(** * ctrl_bps: the workflow transformation engine, embedded and verified

    A shallow embedding of the parts of [python/lsst/ctrl/bps/transform.py]
    and [python/lsst/ctrl/bps/bps_core.py] that the specification speaks
    about, with the properties of the specification stated and proved (or
    refuted) against it.

    Layout: Python values and exceptions; strings and the command
    templater ([_fill_arguments]); the value resolver ([BpsConfig.search]);
    the generic workflow and the final job; the attribute aggregator
    ([_handle_job_values] and its three handlers); the initialization jobs
    of the transform engine and of the legacy core; then the properties, in
    the same order. *)

From Stdlib Require Import ZArith QArith String Ascii List Bool Lia.
From Stdlib Require Import DecimalString.
From stdpp Require Import base strings gmap list.

Local Open Scope string_scope.
Local Open Scope Z_scope.
#[local] Arguments String.append : simpl nomatch.
#[local] Set Warnings "-register-all".

(** ** Python values *)

(** The values a job attribute or a configuration leaf holds.  A float is
    represented by the rational it denotes (comparisons of Python numbers are
    exact on these; nan and the infinities are left out). *)
Inductive pyval : Type :=
| PNone
| PBool (b : bool)
| PInt (z : Z)
| PFloat (q : Q)
| PStr (s : string).

(** The exceptions the embedded code raises.  [InconsistentValue attr name]
    is [RuntimeError(f"Inconsistent value for {attr} in cluster
    {gwjob.name}.")], with the two interpolated fields kept as data. *)
Inductive exn : Type :=
| KeyError (key : string)
| TypeError
| AttributeError
| StopIteration
| UnboundLocalError
| InconsistentValue (attr : string) (cluster : pyval)
| RuntimeError (msg : string)
| ValueError (msg : string).

(** A statement run on a mutable object either completes or raises; in both
    cases the object is left in the state the mutations reached. *)
Inductive result (S : Type) : Type :=
| Ok (s : S)
| Raise (s : S) (e : exn).
Arguments Ok {S} s.
Arguments Raise {S} s e.

#[global] Instance Q_eq_dec : EqDecision Q.
Proof. solve_decision. Defined.
#[global] Instance pyval_eq_dec : EqDecision pyval.
Proof. solve_decision. Defined.
#[global] Instance exn_eq_dec : EqDecision exn.
Proof. solve_decision. Defined.
#[global] Instance result_eq_dec {S} `{EqDecision S} : EqDecision (result S).
Proof. solve_decision. Defined.

Definition state_of {S} (r : result S) : S :=
  match r with Ok s => s | Raise s _ => s end.

Definition is_ok {S} (r : result S) : bool :=
  match r with Ok _ => true | Raise _ _ => false end.

(** [for attr in l: step(attr)] on a mutable state. *)
Fixpoint for_each {S} (step : string -> S -> result S) (l : list string) (s : S)
  : result S :=
  match l with
  | [] => Ok s
  | a :: l' =>
      match step a s with
      | Ok s' => for_each step l' s'
      | Raise s' e => Raise s' e
      end
  end.

Module Py.

Definition is_none (v : pyval) : bool :=
  match v with PNone => true | _ => false end.

(** [bool(v)] *)
Definition truthy (v : pyval) : bool :=
  match v with
  | PNone => false
  | PBool b => b
  | PInt z => negb (z =? 0)
  | PFloat q => negb (Qeq_bool q 0)
  | PStr s => negb (String.eqb s "")
  end.

(** The number a numeric value denotes ([bool] is a subtype of [int]). *)
Definition as_number (v : pyval) : option Q :=
  match v with
  | PBool b => Some (inject_Z (if b then 1 else 0))
  | PInt z => Some (inject_Z z)
  | PFloat q => Some q
  | _ => None
  end.

(** [a == b] *)
Definition eq (a b : pyval) : bool :=
  match as_number a, as_number b with
  | Some x, Some y => Qeq_bool x y
  | _, _ =>
      match a, b with
      | PNone, PNone => true
      | PStr s, PStr t => String.eqb s t
      | _, _ => false
      end
  end.

(** [a < b]; [None] when Python raises [TypeError]. *)
Definition lt (a b : pyval) : option bool :=
  match as_number a, as_number b with
  | Some x, Some y => Some (negb (Qle_bool y x))
  | _, _ =>
      match a, b with
      | PStr s, PStr t => Some (String.ltb s t)
      | _, _ => None
      end
  end.

Definition is_float (v : pyval) : bool :=
  match v with PFloat _ => true | _ => false end.

Definition as_int (v : pyval) : option Z :=
  match v with
  | PBool b => Some (if b then 1 else 0)
  | PInt z => Some z
  | _ => None
  end.

(** [a + b]; [None] when Python raises [TypeError].  Sums of floats are
    taken in the rationals (rounding is outside this model). *)
Definition add (a b : pyval) : option pyval :=
  match as_int a, as_int b with
  | Some x, Some y => Some (PInt (x + y))
  | _, _ =>
      match as_number a, as_number b with
      | Some x, Some y => Some (PFloat (Qred (x + y)))
      | _, _ =>
          match a, b with
          | PStr s, PStr t => Some (PStr (s ++ t))
          | _, _ => None
          end
      end
  end.

(** [math.ceil(x)] of the float [x]. *)
Definition ceil (q : Q) : Z := - ((- Qnum q) / Zpos (Qden q)).

(** [math.ceil(float(v)) > 1] as [_get_job_values] evaluates it on a
    numeric multiplier ([float] of a value that is not a number is left
    out: [None]). *)
Definition ceil_gt_1 (v : pyval) : option bool :=
  match as_number v with
  | Some q => Some (1 <? ceil q)
  | None => None
  end.

End Py.

(** ** Strings: the Python string operations the code uses *)

Module Str.

Fixpoint has_char (c : ascii) (s : string) : bool :=
  match s with
  | EmptyString => false
  | String d s' => Ascii.eqb d c || has_char c s'
  end.

(** [s.startswith(p)] *)
Fixpoint starts_with (p s : string) : bool :=
  match p, s with
  | EmptyString, _ => true
  | String a p', String b s' => Ascii.eqb a b && starts_with p' s'
  | String _ _, EmptyString => false
  end.

(** [s[n:]] *)
Fixpoint drop (n : nat) (s : string) : string :=
  match n, s with
  | O, _ => s
  | S n', String _ s' => drop n' s'
  | S _, EmptyString => EmptyString
  end.

(** The longest prefix of [s] whose characters satisfy [keep], and the rest. *)
Fixpoint span (keep : ascii -> bool) (s : string) : string * string :=
  match s with
  | EmptyString => (EmptyString, EmptyString)
  | String c s' =>
      if keep c then let (a, b) := span keep s' in (String c a, b)
      else (EmptyString, s)
  end.

(** The regular expression [OPEN([^c]+)c] matched at the start of [s], where
    [c] is the closing character: the group and what follows the match. *)
Definition match_marker (opening : string) (closing : ascii) (s : string)
  : option (string * string) :=
  if starts_with opening s then
    match span (fun c => negb (Ascii.eqb c closing))
               (drop (String.length opening) s) with
    | (String k key, String _ rest) => Some (String k key, rest)
    | _ => None
    end
  else None.

(** A string cut at the matches of [OPEN([^c]+)c], scanned from the left as
    [re.findall] and [re.sub] do. *)
Inductive token : Type :=
| Chr (c : ascii)
| Marker (key : string).

Fixpoint scan (fuel : nat) (opening : string) (closing : ascii) (s : string)
  : list token :=
  match fuel with
  | O => []
  | S n =>
      match s with
      | EmptyString => []
      | String c s' =>
          match match_marker opening closing s with
          | Some (key, rest) => Marker key :: scan n opening closing rest
          | None => Chr c :: scan n opening closing s'
          end
      end
  end.

Definition tokens (opening : string) (closing : ascii) (s : string) : list token :=
  scan (String.length s) opening closing s.

(** [re.findall(r"OPEN([^c]+)c", s)] *)
Definition findall (opening : string) (closing : ascii) (s : string) : list string :=
  omap (fun t => match t with Marker k => Some k | Chr _ => None end)
       (tokens opening closing s).

(** [re.sub(r"OPEN([^c]+)c", f, s)], [f] giving the replacement of a match
    from its group. *)
Definition sub (opening : string) (closing : ascii) (f : string -> string)
    (s : string) : string :=
  String.concat ""
    (List.map (fun t => match t with
                        | Marker k => f k
                        | Chr c => String c EmptyString
                        end)
              (tokens opening closing s)).

(** [s.replace(old, new)] for a non-empty [old] (every call of the code
    replaces a non-empty marker; for an empty [old], which Python treats
    apart, [s] is returned). *)
Fixpoint replace_fuel (fuel : nat) (old new s : string) : string :=
  match fuel with
  | O => s
  | S n =>
      match s with
      | EmptyString => EmptyString
      | String c s' =>
          if starts_with old s
          then new ++ replace_fuel n old new (drop (String.length old) s)
          else String c (replace_fuel n old new s')
      end
  end.

Definition replace (old new s : string) : string :=
  match old with
  | EmptyString => s
  | _ => replace_fuel (String.length s) old new s
  end.

(** [os.path.basename(p)] *)
Fixpoint basename (p : string) : string :=
  match p with
  | EmptyString => EmptyString
  | String c p' =>
      if Ascii.eqb c "/" || has_char "/" p' then basename p' else p
  end.

(** The extension of a file name without directory: from its last dot on,
    when some character before that dot is not a dot. *)
Fixpoint ext_of (seen_non_dot : bool) (b : string) : string :=
  match b with
  | EmptyString => EmptyString
  | String c b' =>
      if Ascii.eqb c "." then
        if seen_non_dot && negb (has_char "." b') then b
        else ext_of seen_non_dot b'
      else ext_of true b'
  end.

(** [os.path.splitext(p)[1]] *)
Definition splitext_ext (p : string) : string := ext_of false (basename p).

(** [\w] of an ASCII pattern *)
Definition is_word (c : ascii) : bool :=
  let n := nat_of_ascii c in
  ((48 <=? n) && (n <=? 57) || (65 <=? n) && (n <=? 90) ||
   (97 <=? n) && (n <=? 122) || (n =? 95))%nat.

(** [os.path.expandvars(s)] over the environment [env]: every match of
    [\$(\w+|\{[^}]*\})] whose name is set is replaced by its value (which is
    not scanned again), the others stay. *)
Fixpoint expandvars_fuel (fuel : nat) (env : gmap string string) (s : string)
  : string :=
  match fuel with
  | O => s
  | S n =>
      match s with
      | EmptyString => EmptyString
      | String c s' =>
          if Ascii.eqb c "$" then
            match span is_word s' with
            | (String w name, rest) =>
                match env !! (String w name) with
                | Some v => v ++ expandvars_fuel n env rest
                | None => String c (String w name ++ expandvars_fuel n env rest)
                end
            | (EmptyString, _) =>
                match s' with
                | String "{" s'' =>
                    match span (fun d => negb (Ascii.eqb d "}")) s'' with
                    | (name, String _ rest) =>
                        match env !! name with
                        | Some v => v ++ expandvars_fuel n env rest
                        | None =>
                            String c (String "{" (name ++ String "}"
                              (expandvars_fuel n env rest)))
                        end
                    | (_, EmptyString) => String c (expandvars_fuel n env s')
                    end
                | _ => String c (expandvars_fuel n env s')
                end
            end
          else String c (expandvars_fuel n env s')
      end
  end.

Definition expandvars (env : gmap string string) (s : string) : string :=
  expandvars_fuel (String.length s) env s.

(** [s.upper()] on ASCII letters (other bytes are kept). *)
Definition upper_char (c : ascii) : ascii :=
  let n := nat_of_ascii c in
  if ((97 <=? n) && (n <=? 122))%nat then ascii_of_nat (n - 32) else c.

Fixpoint upper (s : string) : string :=
  match s with
  | EmptyString => EmptyString
  | String c s' => String (upper_char c) (upper s')
  end.

(** [str(z)] of an integer. *)
Definition of_Z (z : Z) : string := NilZero.string_of_int (Z.to_int z).

(** [n] copies of [c]. *)
Fixpoint repeat_char (c : ascii) (n : nat) : string :=
  match n with
  | O => EmptyString
  | S n' => String c (repeat_char c n')
  end.

(** [str.isspace] of an ASCII character. *)
Definition is_space (c : ascii) : bool :=
  let n := nat_of_ascii c in
  ((9 <=? n) && (n <=? 13) || (28 <=? n) && (n <=? 32))%nat.

Fixpoint lstrip (s : string) : string :=
  match s with
  | EmptyString => EmptyString
  | String c s' => if is_space c then lstrip s' else s
  end.

Fixpoint rstrip (s : string) : string :=
  match s with
  | EmptyString => EmptyString
  | String c s' =>
      match rstrip s' with
      | EmptyString => if is_space c then EmptyString else String c EmptyString
      | r => String c r
      end
  end.

(** [s.strip()] *)
Definition strip (s : string) : string := rstrip (lstrip s).

(** [s.endswith("/")] *)
Fixpoint ends_with_slash (s : string) : bool :=
  match s with
  | EmptyString => false
  | String c EmptyString => Ascii.eqb c "/"
  | String _ s' => ends_with_slash s'
  end.

(** [os.path.join(a, b)] *)
Definition path_join (a b : string) : string :=
  if starts_with "/" b then b
  else
    match a with
    | EmptyString => b
    | _ => if ends_with_slash a then a ++ b else a ++ "/" ++ b
    end.

(** ["%06d" % n] *)
Definition fmt6 (n : nat) : string :=
  let digits := of_Z (Z.of_nat n) in
  repeat_char "0" (6 - String.length digits) ++ digits.

End Str.

(** ** The command templater (transform.py, lines 281-331) *)

Module Templater.

(** A [GenericWorkflowFile], with the fields its constructor is given in
    transform.py (lines 366-372). *)
Record GenericWorkflowFile : Type := {
  gwfile_name : string;
  src_uri : string;
  wms_transfer : bool;
  job_access_remote : bool;
  job_shared : bool
}.

(** transform.py, lines 303-320: the path that stands for a file in the
    command line. *)
Definition file_uri (use_shared : bool) (gwfile : GenericWorkflowFile) : string :=
  if negb (wms_transfer gwfile) then src_uri gwfile
  else if use_shared then
    if job_shared gwfile then src_uri gwfile
    else
      if String.eqb (gwfile_name gwfile) "butlerConfig"
         && negb (String.eqb (Str.splitext_ext (src_uri gwfile)) ".yaml")
      then "butler.yaml"
      else Str.basename (src_uri gwfile)
  else Str.basename (src_uri gwfile).

(** transform.py, lines 301-322: the loop over the file markers.
    [get_file] is [generic_workflow.get_file]: the workflow's files by
    logical name, [None] when it raises [KeyError]. *)
Fixpoint replace_file_markers (use_shared : bool)
    (get_file : string -> option GenericWorkflowFile)
    (file_keys : list string) (arguments : string) : result string :=
  match file_keys with
  | [] => Ok arguments
  | file_key :: rest =>
      match get_file file_key with
      | None => Raise arguments (KeyError file_key)
      | Some gwfile =>
          let uri := file_uri use_shared gwfile in
          replace_file_markers use_shared get_file rest
            (Str.replace ("<FILE:" ++ file_key ++ ">") uri arguments)
      end
  end.

Definition fill_file_markers (use_shared : bool)
    (get_file : string -> option GenericWorkflowFile) (arguments : string)
  : result string :=
  replace_file_markers use_shared get_file
    (Str.findall "<FILE:" ">" arguments) arguments.

(** transform.py, lines 281-331.  [environ] is the environment of the
    submitting process; [str_format arguments cmdvals] is Python's
    [arguments.format] with the entries of [cmdvals] as keyword arguments
    ([inl] when it raises). *)
Definition _fill_arguments (environ : gmap string string)
    (str_format : string -> gmap string pyval -> exn + string)
    (use_shared : bool) (get_file : string -> option GenericWorkflowFile)
    (arguments : string) (cmdvals : gmap string pyval) : result string :=
  match fill_file_markers use_shared get_file arguments with
  | Raise a e => Raise a e
  | Ok arguments1 =>
      let arguments2 := Str.sub "<ENV:" ">" (fun k => "$" ++ k) arguments1 in
      let arguments3 := Str.expandvars environ arguments2 in
      match str_format arguments3 cmdvals with
      | inr arguments4 => Ok arguments4
      | inl e => Raise arguments3 e
      end
  end.

(** Example data: the execution butler of a run, staged by the backend. *)
Definition execution_butler : GenericWorkflowFile :=
  {| gwfile_name := "butlerConfig"; src_uri := "/submit/run1/EXEC_REPO";
     wms_transfer := true; job_access_remote := false; job_shared := false |}.

Definition run_qgraph_file : GenericWorkflowFile :=
  {| gwfile_name := "runQgraphFile"; src_uri := "/submit/run1/run1.qgraph";
     wms_transfer := false; job_access_remote := true; job_shared := true |}.

Definition example_files (name : string) : option GenericWorkflowFile :=
  if String.eqb name "butlerConfig" then Some execution_butler
  else if String.eqb name "runQgraphFile" then Some run_qgraph_file
  else None.

(** transform.py, lines 334-374 *)
Definition _get_butler_gwfile
    (prefix when_create butler_config execution_butler_dir : string)
  : GenericWorkflowFile :=
  if String.eqb (Str.upper when_create) "NEVER" then
    {| gwfile_name := "butlerConfig"; src_uri := butler_config;
       wms_transfer := false; job_access_remote := true; job_shared := true |}
  else
    let butler_config := execution_butler_dir in
    let butler_config :=
      if negb (Str.starts_with "/" butler_config)
      then prefix ++ "/" ++ butler_config
      else butler_config in
    {| gwfile_name := "butlerConfig"; src_uri := butler_config;
       wms_transfer := true; job_access_remote := false; job_shared := false |}.

(** The path that the loop puts for the file of a logical name (the empty
    string for a name without file, which the loop never uses: it raises
    there). *)
Definition uri_of (use_shared : bool)
    (get_file : string -> option GenericWorkflowFile) (file_key : string)
  : string :=
  match get_file file_key with
  | Some gwfile => file_uri use_shared gwfile
  | None => EmptyString
  end.

(** An argument string cut at its file markers, in which a ["<"] that opens
    no file marker ends the string or is followed by a character other than
    ["F"] that opens no file marker either; the ["<"] of a marker
    [<ENV:...>] is one. *)
Fixpoint stray_guarded (ts : list Str.token) : bool :=
  match ts with
  | [] => true
  | Str.Chr c :: rest =>
      (if Ascii.eqb c "<" then
         match rest with
         | [] => true
         | Str.Chr d :: _ => negb (Ascii.eqb d "F")
         | Str.Marker _ :: _ => false
         end
       else true) && stray_guarded rest
  | Str.Marker _ :: rest => stray_guarded rest
  end.

(** The argument string in the course of the loop: the file markers whose
    key is among [replaced] stand replaced by the path of their file, the
    others are as they were. *)
Definition render (f : string -> string) (replaced : list string)
    (ts : list Str.token) : string :=
  String.concat ""
    (List.map (fun t => match t with
                        | Str.Chr c => String c EmptyString
                        | Str.Marker k =>
                            if existsb (String.eqb k) replaced then f k
                            else "<FILE:" ++ k ++ ">"
                        end) ts).

End Templater.

(** ** The value resolver ([BpsConfig.search]) *)

Module Resolver.

(** A configuration value: a leaf or a nested mapping. *)
Inductive cfg : Type :=
| Leaf (v : pyval)
| Sect (entries : list (string * cfg)).

(** [d[key]] on a mapping kept in insertion order. *)
Fixpoint lookup_key (key : string) (entries : list (string * cfg)) : option cfg :=
  match entries with
  | [] => None
  | (k, v) :: rest => if String.eqb k key then Some v else lookup_key key rest
  end.

(** Modelled from the spec: the ConfigStore of the data model (bps_config.py
    is not among these files): sections by name, the search order given by
    the caller, and the snapshot of the environment. *)
Record ConfigStore : Type := {
  sections : list (string * cfg);
  search_order : list string;
  environment : gmap string string
}.

(** Modelled from the spec: the SearchRequest of the data model (the [opt]
    dictionary of [BpsConfig.search]). *)
Record SearchRequest : Type := {
  searchobj : option (list (string * cfg));
  curvals : gmap string pyval;
  expandEnvVars : bool;
  replaceEnvVars : bool;
  replaceVars : bool;
  default : option pyval;
  required : bool
}.

(** Modelled from the spec: step 2 of the search, inside one section.  When
    the request holds a current value [curr_<section>] that names a
    subsection, the subsection is probed before the key of the section. *)
Definition probe_section (req : SearchRequest) (sect : string)
    (entries : list (string * cfg)) (key : string) : option cfg :=
  let in_subsection :=
    match curvals req !! ("curr_" ++ sect) with
    | Some (PStr current) =>
        match lookup_key current entries with
        | Some (Sect subentries) => lookup_key key subentries
        | _ => None
        end
    | _ => None
    end in
  match in_subsection with
  | Some v => Some v
  | None => lookup_key key entries
  end.

(** Modelled from the spec: step 2 of the search, over the search order. *)
Fixpoint probe_sections (store : ConfigStore) (req : SearchRequest)
    (order : list string) (key : string) : option cfg :=
  match order with
  | [] => None
  | sect :: rest =>
      match lookup_key sect (sections store) with
      | Some (Sect entries) =>
          match probe_section req sect entries key with
          | Some v => Some v
          | None => probe_sections store req rest key
          end
      | _ => probe_sections store req rest key
      end
  end.

(** Modelled from the spec: steps 1 and 2.  A current value under the very
    key comes first, as testCurrentValues of tests/test_bpsconfig.py has it;
    then the object of the request; then the sections. *)
Definition find_raw (store : ConfigStore) (req : SearchRequest) (key : string)
  : option cfg :=
  match curvals req !! key with
  | Some v => Some (Leaf v)
  | None =>
      match
        match searchobj req with
        | Some obj => lookup_key key obj
        | None => None
        end
      with
      | Some v => Some v
      | None => probe_sections store req (search_order store) key
      end
  end.

(** Modelled from the spec: defer-environment rewrites a token [${VAR}] into
    the marker [<ENV:VAR>]. *)
Definition defer_env (s : string) : string :=
  Str.sub "${" "}" (fun k => "<ENV:" ++ k ++ ">") s.

(** Modelled from the spec: the two environment stages of the template
    pipeline.  When both are requested, expansion is what runs: the
    assertions of testVariables (tests/test_bpsconfig.py, lines 218-227) fix
    it. *)
Definition env_stage (store : ConfigStore) (req : SearchRequest) (s : string)
  : string :=
  if expandEnvVars req then Str.expandvars (environment store) s
  else if replaceEnvVars req then defer_env s
  else s.

(** Modelled from the spec: a value put through a format specifier.  The
    empty specifier gives [str(v)]; a width, with an optional leading zero,
    pads an integer on the left (the zeros after the sign).  Other
    specifiers and the text of a float are outside the model ([None]). *)
Definition pad_int (zero : bool) (width : nat) (z : Z) : string :=
  let digits := Str.of_Z (Z.abs z) in
  let sign := if z <? 0 then "-" else "" in
  let missing := (width - String.length sign - String.length digits)%nat in
  if zero then sign ++ Str.repeat_char "0" missing ++ digits
  else Str.repeat_char " " missing ++ sign ++ digits.

Definition is_digit (c : ascii) : bool :=
  let n := nat_of_ascii c in ((48 <=? n) && (n <=? 57))%nat.

Fixpoint all_digits (s : string) : bool :=
  match s with
  | EmptyString => true
  | String c s' => is_digit c && all_digits s'
  end.

Fixpoint nat_of_digits (acc : nat) (s : string) : nat :=
  match s with
  | EmptyString => acc
  | String c s' => nat_of_digits (10 * acc + (nat_of_ascii c - 48))%nat s'
  end.

Definition format_value (v : cfg) (spec : string) : option string :=
  match spec, v with
  | EmptyString, Leaf (PStr s) => Some s
  | EmptyString, Leaf (PInt z) => Some (Str.of_Z z)
  | EmptyString, Leaf (PBool b) => Some (if b then "True" else "False")
  | EmptyString, Leaf PNone => Some "None"
  | String c spec', Leaf (PInt z) =>
      if all_digits spec then
        Some (pad_int (Ascii.eqb c "0") (nat_of_digits 0 spec) z)
      else None
  | _, _ => None
  end.

(** [name] and [spec] of a replacement field [name:spec]. *)
Definition split_field (field : string) : string * string :=
  match Str.span (fun c => negb (Ascii.eqb c ":")) field with
  | (name, String _ spec) => (name, spec)
  | (name, EmptyString) => (name, EmptyString)
  end.

(** Modelled from the spec: resolve-nested-variables.  Every token [{key}]
    or [{key:spec}] is replaced by the formatted value that [resolve] finds
    for [key]; a token [${VAR}] of the environment is left as it is. *)
Fixpoint format_fuel (fuel : nat) (resolve : string -> exn + cfg) (s : string)
  : exn + string :=
  match s with
  | EmptyString => inr EmptyString
  | String c s' =>
      match fuel with
      | O => inl (ValueError s)
      | S n =>
          match Str.match_marker "${" "}" s with
          | Some (name, rest) =>
              match format_fuel n resolve rest with
              | inr out => inr ("${" ++ name ++ "}" ++ out)
              | inl e => inl e
              end
          | None =>
              match Str.match_marker "{" "}" s with
              | Some (field, rest) =>
                  let (name, spec) := split_field field in
                  match resolve name with
                  | inl e => inl e
                  | inr v =>
                      match format_value v spec with
                      | None => inl (ValueError field)
                      | Some text =>
                          match format_fuel n resolve rest with
                          | inr out => inr (text ++ out)
                          | inl e => inl e
                          end
                      end
                  end
              | None =>
                  if Ascii.eqb c "{" || Ascii.eqb c "}" then inl (ValueError s)
                  else
                    match format_fuel n resolve s' with
                    | inr out => inr (String c out)
                    | inl e => inl e
                    end
              end
          end
      end
  end.

(** The text is scanned once: a step takes a character or a token, so the
    length of the text is fuel enough. *)
Definition format_nested (resolve : string -> exn + cfg) (s : string)
  : exn + string :=
  format_fuel (String.length s) resolve s.

(** Modelled from the spec: the lookup of a nested variable in step 4, by
    a search below with the same store and request; a variable that is not
    found is an error naming it. *)
Definition resolve_nested (search_below : string -> exn + (bool * cfg))
    (k : string) : exn + cfg :=
  match search_below k with
  | inl e => inl e
  | inr (true, v) => inr v
  | inr (false, _) => inl (KeyError k)
  end.

(** Modelled from the spec: step 4, the template pipeline on a string that
    was found: the environment stage, then the nested variables. *)
Definition templated (search_below : string -> exn + (bool * cfg))
    (store : ConfigStore) (req : SearchRequest) (s : string)
  : exn + (bool * cfg) :=
  let s1 := env_stage store req s in
  if replaceVars req then
    match format_nested (resolve_nested search_below) s1 with
    | inl e => inl e
    | inr s2 => inr (true, Leaf (PStr s2))
    end
  else inr (true, Leaf (PStr s1)).

(** Modelled from the spec: [search(key, request) -> (found, value)], steps
    1 to 4.  [depth] bounds the nesting of variables inside variables (at
    depth 0 Python's own recursion limit is taken to be reached). *)
Fixpoint search (depth : nat) (store : ConfigStore) (req : SearchRequest)
    (key : string) : exn + (bool * cfg) :=
  match depth with
  | O => inl (RuntimeError "maximum recursion depth exceeded")
  | S depth' =>
      match find_raw store req key with
      | Some (Leaf (PStr s)) => templated (search depth' store req) store req s
      | Some v => inr (true, v)
      | None =>
          match default req with
          | Some d => inr (true, Leaf d)
          | None =>
              if required req then inl (KeyError key)
              else inr (false, Leaf (PStr ""))
          end
      end
  end.

(** A request with its defer-environment toggle set to [defer]. *)
Definition with_defer (defer : bool) (req : SearchRequest) : SearchRequest :=
  {| searchobj := searchobj req; curvals := curvals req;
     expandEnvVars := expandEnvVars req; replaceEnvVars := defer;
     replaceVars := replaceVars req; default := default req;
     required := required req |}.

(** The key is in no section of the store, nor in a subsection of one. *)
Definition absent_from_sections (store : ConfigStore) (key : string) : Prop :=
  forall sect entries,
    lookup_key sect (sections store) = Some (Sect entries) ->
    lookup_key key entries = None /\
    forall sub subentries,
      lookup_key sub entries = Some (Sect subentries) ->
      lookup_key key subentries = None.

(** Modelled from the spec: the configuration of tests/test_bpsconfig.py
    (tests/data/config.yaml is not among these files), with the sections
    that the testable properties give, the search order of the test's setUp
    and its environment. *)
Definition test_config : ConfigStore :=
  {| sections :=
       [("foo", Sect [("qux", Leaf (PInt 1))]);
        ("baz", Sect [("qux", Leaf (PInt 2));
                      ("garply", Sect [("qux", Leaf (PInt 3))]);
                      ("grault", Leaf (PStr "${GARPLY}/waldo/{qux:03}"))])];
     search_order := ["baz"; "bar"; "foo"];
     environment := {[ "GARPLY" := "garply" ]} |}.

(** The request of a test: the three toggles, nothing else. *)
Definition toggles (expand defer vars : bool) : SearchRequest :=
  {| searchobj := None; curvals := ∅;
     expandEnvVars := expand; replaceEnvVars := defer; replaceVars := vars;
     default := None; required := false |}.

(** tests/test_bpsconfig.py, lines 184-227: the value that testVariables
    asserts for each combination of the toggles. *)
Definition testVariables_expected (expand defer vars : bool) : string :=
  match expand, defer, vars with
  | false, false, false => "${GARPLY}/waldo/{qux:03}"
  | false, false, true => "${GARPLY}/waldo/002"
  | false, true, false => "<ENV:GARPLY>/waldo/{qux:03}"
  | false, true, true => "<ENV:GARPLY>/waldo/002"
  | true, false, false => "garply/waldo/{qux:03}"
  | true, false, true => "garply/waldo/002"
  | true, true, false => "garply/waldo/{qux:03}"
  | true, true, true => "garply/waldo/002"
  end.

(** Example data: settings with text values; a queue for the whole site and
    one in the subsection of a cluster, and a template that names it. *)
Definition site_config : ConfigStore :=
  {| sections :=
       [("site", Sect [("queue", Leaf (PStr "general"));
                       ("cluster1", Sect [("queue", Leaf (PStr "long"))]);
                       ("options", Leaf (PStr "-q {queue}"))])];
     search_order := ["site"];
     environment := ∅ |}.

(** The request of a job of that cluster. *)
Definition cluster1_request : SearchRequest :=
  {| searchobj := None; curvals := {[ "curr_site" := PStr "cluster1" ]};
     expandEnvVars := true; replaceEnvVars := false; replaceVars := true;
     default := None; required := false |}.

End Resolver.

(** ** The generic workflow and its final job (transform.py, lines 655-746
    and 918-933) *)

Module Workflow.

(** A [GenericWorkflowJob]: its attribute dictionary (on which the
    aggregator works) and the mapping [cmdvals]. *)
Record GenericWorkflowJob : Type := {
  fields : gmap string pyval;
  cmdvals : gmap string pyval
}.

(** [gwjob.name]: the constructor takes it as a string. *)
Definition job_name (gwjob : GenericWorkflowJob) : string :=
  match fields gwjob !! "name" with
  | Some (PStr s) => s
  | _ => EmptyString
  end.

(** [GenericWorkflowJob(name, label=label)] *)
Definition new_job (name label : string) : GenericWorkflowJob :=
  {| fields := <["label" := PStr label]> {[ "name" := PStr name ]};
     cmdvals := ∅ |}.

(** Modelled from the spec: the GenericWorkflow of the data model
    (generic_workflow.py is not among these files): a directed graph whose
    nodes are the jobs, by their unique names and in the order they were
    added, with its edges, and at most one designated final job, which is
    not a node of the graph. *)
Record GenericWorkflow : Type := {
  gw_nodes : list string;
  gw_jobs : gmap string GenericWorkflowJob;
  gw_edges : list (string * string);
  gw_final : option GenericWorkflowJob;
  gw_files : gmap string Templater.GenericWorkflowFile;
  gw_inputs : gmap string (list string)
}.

(** [GenericWorkflow(name)]: an empty workflow. *)
Definition empty_workflow : GenericWorkflow :=
  {| gw_nodes := []; gw_jobs := ∅; gw_edges := []; gw_final := None;
     gw_files := ∅; gw_inputs := ∅ |}.

(** [out_degree(n)] of a directed graph. *)
Definition out_degree (w : GenericWorkflow) (n : string) : nat :=
  length (List.filter (fun e => String.eqb (fst e) n) (gw_edges w)).

Definition in_degree (w : GenericWorkflow) (n : string) : nat :=
  length (List.filter (fun e => String.eqb (snd e) n) (gw_edges w)).

Definition has_edge (w : GenericWorkflow) (a b : string) : bool :=
  existsb (fun e => String.eqb (fst e) a && String.eqb (snd e) b) (gw_edges w).

(** Modelled from the spec: [add_job].  Job names are unique: a second job
    of the same name is refused. *)
Definition add_job (w : GenericWorkflow) (gwjob : GenericWorkflowJob)
  : result GenericWorkflow :=
  if existsb (String.eqb (job_name gwjob)) (gw_nodes w)
  then Raise w (RuntimeError "Job names must be unique")
  else Ok {| gw_nodes := gw_nodes w ++ [job_name gwjob];
             gw_jobs := <[job_name gwjob := gwjob]> (gw_jobs w);
             gw_edges := gw_edges w;
             gw_final := gw_final w;
             gw_files := gw_files w; gw_inputs := gw_inputs w |}.

(** An edge added to a directed graph (a second copy of an edge is the
    edge). *)
Definition add_edge (w : GenericWorkflow) (a b : string) : GenericWorkflow :=
  if has_edge w a b then w
  else {| gw_nodes := gw_nodes w; gw_jobs := gw_jobs w;
          gw_edges := gw_edges w ++ [(a, b)]; gw_final := gw_final w;
          gw_files := gw_files w; gw_inputs := gw_inputs w |}.

(** Modelled from the spec: [add_job_relationships(parents, child)], an edge
    "job precedes job" from every parent to the child. *)
Fixpoint add_job_relationships (w : GenericWorkflow) (parents : list string)
    (child : string) : GenericWorkflow :=
  match parents with
  | [] => w
  | p :: rest => add_job_relationships (add_edge w p child) rest child
  end.

(** Modelled from the spec: [add_final], the designated final job, attached
    unconditionally. *)
Definition add_final (w : GenericWorkflow) (gwjob : GenericWorkflowJob)
  : GenericWorkflow :=
  {| gw_nodes := gw_nodes w; gw_jobs := gw_jobs w;
     gw_edges := gw_edges w; gw_final := Some gwjob;
     gw_files := gw_files w; gw_inputs := gw_inputs w |}.

(** transform.py, lines 918-933 *)
Definition add_final_job_as_sink (generic_workflow : GenericWorkflow)
    (final_job : GenericWorkflowJob) : result GenericWorkflow :=
  let gw_sinks :=
    List.filter (fun n => Nat.eqb (out_degree generic_workflow n) 0)
                (gw_nodes generic_workflow) in
  match add_job generic_workflow final_job with
  | Raise w e => Raise w e
  | Ok w => Ok (add_job_relationships w gw_sinks (job_name final_job))
  end.

(** [s.upper()] of a value: only a string has the method. *)
Definition py_upper (v : pyval) : option string :=
  match v with
  | PStr s => Some (Str.upper s)
  | _ => None
  end.

(** The two functions that write the command of a final job
    (transform.py, lines 822-915). *)
Inductive create_cmd : Type :=
| _create_final_command
| _create_merge_command.

Section FinalJob.

(** The configuration object ([BpsConfig], not declared in these files):
    [name in config], [config[name]] and [config.search(key)]. *)
Variable Config : Type.
Variable config_contains : Config -> string -> bool.
Variable config_getitem : Config -> string -> pyval.
Variable config_search : Config -> string -> bool * pyval.

(** The function that [_make_final_job_creator job_name create_cmd] returns
    (transform.py, lines 749-819): it builds the job named [job_name] from
    the configuration, registers its input files in the workflow, and
    returns it, or raises. *)
Variable _make_final_job_creator :
  string -> create_cmd -> Config -> GenericWorkflow -> string ->
  GenericWorkflow * (exn + GenericWorkflowJob).

(** transform.py, lines 689-716 *)
Definition _add_final_job (config : Config) (generic_workflow : GenericWorkflow)
    (prefix : string) : result GenericWorkflow :=
  let when_run := snd (config_search config ".finalJob.whenRun") in
  match py_upper when_run with
  | None => Raise generic_workflow AttributeError
  | Some upper_when_run =>
      if negb (String.eqb upper_when_run "NEVER") then
        match _make_final_job_creator "finalJob" _create_final_command
                config generic_workflow prefix with
        | (w, inl e) => Raise w e
        | (w, inr gwjob) =>
            if String.eqb upper_when_run "ALWAYS" then Ok (add_final w gwjob)
            else if String.eqb upper_when_run "SUCCESS" then
              add_final_job_as_sink w gwjob
            else
              match when_run with
              | PStr text =>
                  Raise w (ValueError ("Invalid value for finalJob.whenRun: " ++ text))
              | _ => Raise w AttributeError
              end
        end
      else Ok generic_workflow
  end.

(** transform.py, lines 719-746 *)
Definition _add_merge_job (config : Config) (generic_workflow : GenericWorkflow)
    (prefix : string) : result GenericWorkflow :=
  let when_create := snd (config_search config ".executionButler.whenCreate") in
  let when_merge := snd (config_search config ".executionButler.whenMerge") in
  match py_upper when_create with
  | None => Raise generic_workflow AttributeError
  | Some upper_when_create =>
      if negb (String.eqb upper_when_create "NEVER") then
        match py_upper when_merge with
        | None => Raise generic_workflow AttributeError
        | Some upper_when_merge =>
            if negb (String.eqb upper_when_merge "NEVER") then
              match _make_final_job_creator "executionButler" _create_merge_command
                      config generic_workflow prefix with
              | (w, inl e) => Raise w e
              | (w, inr gwjob) =>
                  if String.eqb upper_when_merge "ALWAYS" then Ok (add_final w gwjob)
                  else if String.eqb upper_when_merge "SUCCESS" then
                    add_final_job_as_sink w gwjob
                  else
                    match when_merge with
                    | PStr text =>
                        Raise w (ValueError
                          ("Invalid value for executionButler.whenMerge: " ++ text))
                    | _ => Raise w AttributeError
                    end
              end
            else Ok generic_workflow
        end
      else Ok generic_workflow
  end.

(** transform.py, lines 677-680: the dispatcher, in the order of its
    entries. *)
Definition dispatcher
  : list (string * (Config -> GenericWorkflow -> string -> result GenericWorkflow)) :=
  [ (".finalJob.whenRun", _add_final_job);
    (".executionButler.whenCreate", _add_merge_job) ].

(** transform.py, lines 681-685: the loop with its [break] and [else]. *)
Fixpoint first_configured (config : Config)
    (entries : list (string * (Config -> GenericWorkflow -> string ->
                               result GenericWorkflow)))
  : option (Config -> GenericWorkflow -> string -> result GenericWorkflow) :=
  match entries with
  | [] => None
  | (name, func) :: rest =>
      if config_contains config name
         && negb (Py.eq (config_getitem config name) (PStr "NEVER"))
      then Some func
      else first_configured config rest
  end.

(** transform.py, lines 655-686 *)
Definition add_final_job (config : Config) (generic_workflow : GenericWorkflow)
    (prefix : string) : result GenericWorkflow :=
  match first_configured config dispatcher with
  | None => Raise generic_workflow (RuntimeError "Final job specification not found")
  | Some func => func config generic_workflow prefix
  end.

End FinalJob.

(** The edges of a graph join nodes of the graph. *)
Definition well_formed (w : GenericWorkflow) : Prop :=
  forall a b, In (a, b) (gw_edges w) -> In a (gw_nodes w) /\ In b (gw_nodes w).

(** The number of jobs attached to the workflow as its end: the designated
    final job, if any, is one. *)
Definition final_count (w : GenericWorkflow) : nat :=
  match gw_final w with Some _ => 1 | None => 0 end.

(** Exactly one job was attached to [w] as its end, giving [w']: either as
    the designated final job or as a new node of the graph. *)
Definition attached_one (w w' : GenericWorkflow) (gwjob : GenericWorkflowJob)
  : Prop :=
  (gw_final w' = Some gwjob /\ gw_nodes w' = gw_nodes w /\
   gw_edges w' = gw_edges w) \/
  (gw_final w' = gw_final w /\
   gw_nodes w' = (gw_nodes w ++ [job_name gwjob])%list).

(** Example data: a configuration as a flat mapping from dotted keys to
    values, a creator that only builds the job, and a workflow of three
    jobs, [a] before [b] and [c]. *)
Definition flat_contains (config : gmap string pyval) (name : string) : bool :=
  match config !! name with Some _ => true | None => false end.

Definition flat_getitem (config : gmap string pyval) (name : string) : pyval :=
  match config !! name with Some v => v | None => PStr "" end.

Definition flat_search (config : gmap string pyval) (key : string) : bool * pyval :=
  match config !! key with Some v => (true, v) | None => (false, PStr "") end.

Definition plain_creator (job_name : string) (cmd : create_cmd)
    (config : gmap string pyval) (w : GenericWorkflow) (prefix : string)
  : GenericWorkflow * (exn + GenericWorkflowJob) :=
  (w, inr (new_job job_name job_name)).

Definition example_workflow : GenericWorkflow :=
  {| gw_nodes := ["a"; "b"; "c"];
     gw_jobs := {[ "a" := new_job "a" "t1"; "b" := new_job "b" "t2";
                   "c" := new_job "c" "t2" ]};
     gw_edges := [("a", "b"); ("a", "c")];
     gw_final := None; gw_files := ∅; gw_inputs := ∅ |}.

End Workflow.

(** ** The attribute aggregator (transform.py, lines 56-89 and 469-595) *)

Module Aggregator.

(** [getattr]/[setattr] on a [GenericWorkflowJob]: the job's attribute
dictionary.  A field the dictionary does not list holds the dataclass
default [None]. *)
Definition getattr (gwjob : gmap string pyval) (attr : string) : pyval :=
  match gwjob !! attr with
  | Some v => v
  | None => PNone
  end.

Definition setattr (gwjob : gmap string pyval) (attr : string) (v : pyval)
  : gmap string pyval :=
  <[attr := v]> gwjob.

(** transform.py, lines 59-86 *)
Definition _ATTRS_MAX : gset string :=
  {[ "memory_multiplier"; "number_of_retries"; "request_cpus";
     "request_memory"; "request_memory_max" ]}.

Definition _ATTRS_SUM : gset string :=
  {[ "request_disk"; "request_walltime" ]}.

Definition _ATTRS_MISC : gset string :=
  {[ "label"; "cmdvals"; "profile"; "attrs" ]}.

(** Python iterates a [frozenset] in an order the language does not fix:
a handler's loop runs over some list [order] that enumerates the set. *)
Definition iterates (order : list string) (s : gset string) : Prop :=
  NoDup order /\ forall a, a ∈ order <-> a ∈ s.

(** transform.py, lines 502-528: the body of the loop of
[_handle_job_values_universal]. *)
Definition universal_step (quantum_job_values : gmap string pyval)
(attr : string) (gwjob : gmap string pyval) : result (gmap string pyval) :=
  let current_value := getattr gwjob attr in
  match quantum_job_values !! attr with
  | None => Ok gwjob
  | Some quantum_value =>
      if negb (Py.truthy current_value) then
        Ok (setattr gwjob attr quantum_value)
      else if negb (Py.eq current_value quantum_value) then
        Raise gwjob (InconsistentValue attr (getattr gwjob "name"))
      else Ok gwjob
  end.

(** transform.py, lines 552-558 *)
Definition needs_update (current_value quantum_value : pyval) : option bool :=
  if Py.is_none current_value then Some (negb (Py.is_none quantum_value))
  else if Py.is_none quantum_value then Some false
  else Py.lt current_value quantum_value.

(** transform.py, lines 545-574: the body of the loop of
[_handle_job_values_max]. *)
Definition max_step (quantum_job_values : gmap string pyval)
(attr : string) (gwjob : gmap string pyval) : result (gmap string pyval) :=
  let current_value := getattr gwjob attr in
  match quantum_job_values !! attr with
  | None => Ok gwjob
  | Some quantum_value =>
      match needs_update current_value quantum_value with
      | None => Raise gwjob TypeError
      | Some false => Ok gwjob
      | Some true =>
          let gwjob1 := setattr gwjob attr quantum_value in
          if String.eqb attr "request_memory" then
            match quantum_job_values !! "memory_multiplier" with
            | None => Raise gwjob1 (KeyError "memory_multiplier")
            | Some mm =>
                let gwjob2 := setattr gwjob1 "memory_multiplier" mm in
                if Py.is_none mm then Ok gwjob2
                else
                  match quantum_job_values !! "number_of_retries" with
                  | None => Raise gwjob2 (KeyError "number_of_retries")
                  | Some r => Ok (setattr gwjob2 "number_of_retries" r)
                  end
            end
          else Ok gwjob1
      end
  end.

(** transform.py, lines 590-595: the body of the loop of
[_handle_job_values_sum]. *)
Definition sum_step (quantum_job_values : gmap string pyval)
(attr : string) (gwjob : gmap string pyval) : result (gmap string pyval) :=
  let current_value := getattr gwjob attr in
  if negb (Py.truthy current_value) then
match quantum_job_values !! attr with
| None => Raise gwjob (KeyError attr)
| Some quantum_value => Ok (setattr gwjob attr quantum_value)
end
  else
match quantum_job_values !! attr with
| None => Raise gwjob (KeyError attr)
| Some quantum_value =>
        match Py.add current_value quantum_value with
        | None => Raise gwjob TypeError
        | Some v => Ok (setattr gwjob attr v)
        end
end.

(** The three handlers; [order] is the order in which the loop visits
[_ATTRS_X & set(attributes)]. *)
Definition _handle_job_values_universal (quantum_job_values : gmap string pyval)
(gwjob : gmap string pyval) (order : list string) :=
  for_each (universal_step quantum_job_values) order gwjob.

Definition _handle_job_values_max (quantum_job_values : gmap string pyval)
(gwjob : gmap string pyval) (order : list string) :=
  for_each (max_step quantum_job_values) order gwjob.

Definition _handle_job_values_sum (quantum_job_values : gmap string pyval)
(gwjob : gmap string pyval) (order : list string) :=
  for_each (sum_step quantum_job_values) order gwjob.

(** transform.py, lines 469-485 *)
Definition _handle_job_values (quantum_job_values : gmap string pyval)
(gwjob : gmap string pyval) (order_universal order_max order_sum : list string)
  : result (gmap string pyval) :=
  match _handle_job_values_universal quantum_job_values gwjob order_universal with
  | Raise j e => Raise j e
  | Ok j1 =>
      match _handle_job_values_max quantum_job_values j1 order_max with
      | Raise j e => Raise j e
      | Ok j2 => _handle_job_values_sum quantum_job_values j2 order_sum
      end
  end.

(** transform.py, lines 449-454: the memory-scaling adjustment that
[_get_job_values] applies to the record it has gathered.
[DEFAULT_MEM_RETRIES] is imported from the package (its value is not
part of these files). *)
Definition adjust_memory_scaling (DEFAULT_MEM_RETRIES : Z)
(job_values : gmap string pyval) : result (gmap string pyval) :=
  match job_values !! "memory_multiplier" with
  | None => Raise job_values (KeyError "memory_multiplier")
  | Some mm =>
      if negb (Py.is_none mm) then
        match Py.ceil_gt_1 mm with
        | None => Raise job_values TypeError
        | Some true =>
            match job_values !! "number_of_retries" with
            | None => Raise job_values (KeyError "number_of_retries")
            | Some r =>
                if Py.is_none r then
                  Ok (<["number_of_retries" := PInt DEFAULT_MEM_RETRIES]> job_values)
                else Ok job_values
            end
        | Some false => Ok (<["memory_multiplier" := PNone]> job_values)
        end
      else Ok job_values
  end.

(** transform.py, line 89.  [_ATTRS_ALL] is the list of the fields of the
    [GenericWorkflowJob] dataclass (line 57), which these files do not
    declare: it is a parameter here. *)
Definition _ATTRS_UNIVERSAL (_ATTRS_ALL : gset string) : gset string :=
  _ATTRS_ALL ∖ (_ATTRS_MAX ∪ _ATTRS_MISC ∪ _ATTRS_SUM).

(** The unit's value for [attr] conflicts with the one the job stores. *)
Definition conflictb (q j : gmap string pyval) (attr : string) : bool :=
  match q !! attr with
  | Some v => Py.truthy (getattr j attr) && negb (Py.eq (getattr j attr) v)
  | None => false
  end.

(** What one fold leaves in [attr] when it does not raise. *)
Definition universal_merged (q j : gmap string pyval) (attr : string) : pyval :=
  match q !! attr with
  | Some v => if Py.truthy (getattr j attr) then getattr j attr else v
  | None => getattr j attr
  end.

(** What one run of the loop of [_handle_job_values_max] leaves in [attr]
    when [attr] is not [request_memory]. *)
Definition max_merged (q j : gmap string pyval) (attr : string) : pyval :=
  match q !! attr with
  | Some v =>
      match needs_update (getattr j attr) v with
      | Some true => v
      | _ => getattr j attr
      end
  | None => getattr j attr
  end.

(** The unit's memory request is a new maximum for the job. *)
Definition rm_updated (q j : gmap string pyval) : bool :=
  match q !! "request_memory" with
  | Some v =>
      match needs_update (getattr j "request_memory") v with
      | Some true => true
      | _ => false
      end
  | None => false
  end.

(** The closed form of one fold by [_handle_job_values_max]: the value of
    [attr] afterwards, whatever the order of the loop. *)
Definition max_folded (q j : gmap string pyval) (order : list string)
    (attr : string) : pyval :=
  let plain :=
    if bool_decide (attr ∈ order) then max_merged q j attr else getattr j attr in
  if bool_decide ("request_memory" ∈ order) && rm_updated q j then
    match q !! "memory_multiplier" with
    | Some mm =>
        if String.eqb attr "memory_multiplier" then mm
        else if String.eqb attr "number_of_retries" && negb (Py.is_none mm) then
          match q !! "number_of_retries" with
          | Some r => r
          | None => plain
          end
        else plain
    | None => plain
    end
  else plain.

(** Modelled from the spec: the fields of [GenericWorkflowJob]
    (generic_workflow.py is not among these files), as the data model of the
    specification lists them, with [compute_site] of its testable
    properties. *)
Definition spec_job_fields : gset string :=
  {[ "name"; "label"; "executable"; "arguments"; "cmdvals";
     "request_cpus"; "request_memory"; "request_memory_max";
     "request_disk"; "request_walltime"; "memory_multiplier";
     "number_of_retries"; "profile"; "attrs"; "compute_site" ]}.

(** The unit's record has a value for [attr] ([attr in quantum_job_values]). *)
Definition supplies (q : gmap string pyval) (attr : string) : bool :=
  match q !! attr with Some _ => true | None => false end.

(** Example data: a fresh cluster job, unit records, and one iteration
    order of each class for the fields of [spec_job_fields]. *)
Definition fresh_job : gmap string pyval := {[ "name" := PStr "cluster1" ]}.

Definition unit_site (site : string) : gmap string pyval :=
  {[ "compute_site" := PStr site ]}.

Definition universal_order : list string :=
  ["arguments"; "compute_site"; "executable"; "name"].

Definition max_order : list string :=
  ["memory_multiplier"; "number_of_retries"; "request_cpus";
   "request_memory"; "request_memory_max"].

Definition sum_order : list string := ["request_disk"; "request_walltime"].

(** A unit's record limited to the memory attributes. *)
Definition unit_memory (request_memory memory_multiplier number_of_retries : pyval)
  : gmap string pyval :=
  <["request_memory" := request_memory]>
    (<["memory_multiplier" := memory_multiplier]>
       (<["number_of_retries" := number_of_retries]> ∅)).

(** What one run of the loop of [_handle_job_values_sum] leaves in [attr]
    when the unit's record has it and the sum is defined. *)
Definition sum_merged (q j : gmap string pyval) (attr : string) : pyval :=
  match q !! attr with
  | Some v =>
      if Py.truthy (getattr j attr) then
        match Py.add (getattr j attr) v with
        | Some s => s
        | None => getattr j attr
        end
      else v
  | None => getattr j attr
  end.

(** The number an integer attribute counts for in a sum: an unset attribute
    counts for nothing. *)
Definition int_or_zero (v : pyval) : Z :=
  match v with
  | PInt z => z
  | _ => 0
  end.

(** An attribute value that is unset or an integer. *)
Definition unset_or_int (v : pyval) : Prop :=
  v = PNone \/ exists z, v = PInt z.

(** An attribute value that is unset or a number. *)
Definition unset_or_number (v : pyval) : Prop :=
  v = PNone \/ is_Some (Py.as_number v).

(** Example data: the resource requests of a unit (its scaling keys unset). *)
Definition unit_requests (request_cpus request_disk request_walltime : pyval)
  : gmap string pyval :=
  <["request_cpus" := request_cpus]>
    (<["request_disk" := request_disk]>
       (<["request_walltime" := request_walltime]>
          (<["memory_multiplier" := PNone]>
             (<["number_of_retries" := PNone]> ∅)))).

End Aggregator.

(** ** The initialization job of the transform engine (transform.py,
    lines 132-200) *)

Module Init.
Import Workflow.

(** The upstream graph ([QuantumGraph] of lsst.pipe.base), as far as
    [create_init_workflow] reads it: its [graphID] and, for every task label
    of [pipeline_graph.tasks] and in that order, the node ids (as text) of
    the execution units that [getNodesForTask] yields. *)
Record QuantumGraph : Type := {
  graphID : string;
  pipeline_tasks : list (string * list string)
}.

(** transform.py, lines 180-184: one node per task; [next(iter(...))] of a
    task without nodes raises [StopIteration]. *)
Fixpoint pick_node_ids (tasks : list (string * list string)) : exn + list string :=
  match tasks with
  | [] => inr []
  | (task_label, task_nodes) :: rest =>
      match task_nodes with
      | [] => inl StopIteration
      | node :: _ =>
          match pick_node_ids rest with
          | inl e => inl e
          | inr node_ids => inr (node :: node_ids)
          end
      end
  end.

(** [sorted(l)] of a list of strings. *)
Fixpoint insert_sorted (x : string) (l : list string) : list string :=
  match l with
  | [] => [x]
  | y :: rest => if String.leb x y then x :: l else y :: insert_sorted x rest
  end.

Definition sorted (l : list string) : list string := foldr insert_sorted [] l.

(** Modelled from the spec: [add_file] registers a file under its unique
    logical name; [add_job_inputs] records the files a job reads. *)
Definition add_file (w : GenericWorkflow) (gwfile : Templater.GenericWorkflowFile)
  : GenericWorkflow :=
  {| gw_nodes := gw_nodes w; gw_jobs := gw_jobs w; gw_edges := gw_edges w;
     gw_final := gw_final w;
     gw_files := <[Templater.gwfile_name gwfile := gwfile]> (gw_files w);
     gw_inputs := gw_inputs w |}.

Definition add_job_inputs (w : GenericWorkflow) (name : string)
    (gwfiles : list Templater.GenericWorkflowFile) : GenericWorkflow :=
  {| gw_nodes := gw_nodes w; gw_jobs := gw_jobs w; gw_edges := gw_edges w;
     gw_final := gw_final w;
     gw_files := foldr (fun f m => <[Templater.gwfile_name f := f]> m)
                       (gw_files w) gwfiles;
     gw_inputs := <[name := (default [] (gw_inputs w !! name)
                             ++ List.map Templater.gwfile_name gwfiles)%list]>
                    (gw_inputs w) |}.

(** The job object held by the workflow is the object that the caller goes
    on mutating: a later state of the job replaces the stored one. *)
Definition update_job (w : GenericWorkflow) (name : string)
    (gwjob : GenericWorkflowJob) : GenericWorkflow :=
  {| gw_nodes := gw_nodes w; gw_jobs := <[name := gwjob]> (gw_jobs w);
     gw_edges := gw_edges w; gw_final := gw_final w;
     gw_files := gw_files w; gw_inputs := gw_inputs w |}.

Section CreateInit.

(** The configuration is read through three functions of the files that
    are not here or that depend on them: [job_values_of] is
    [_get_job_values(config, search_opt, "runQuantumCommand")] with the
    options of lines 151-163; [butler_gwfile_of] is lines 191-195 with
    [_get_butler_gwfile]; [_enhance_command] returns the job with its
    command line enhanced, or raises. *)
Variable Config : Type.
Variable job_values_of : Config -> gmap string pyval.
Variable butler_gwfile_of : Config -> exn + Templater.GenericWorkflowFile.
Variable _enhance_command :
  Config -> GenericWorkflow -> GenericWorkflowJob -> exn + GenericWorkflowJob.

(** The orders in which the three loops of [_handle_job_values] run. *)
Variables order_universal order_max order_sum : list string.

(** transform.py, lines 132-200 *)
Definition create_init_workflow (config : Config) (qgraph : QuantumGraph)
    (qgraph_gwfile : Templater.GenericWorkflowFile) : exn + GenericWorkflow :=
  let init_workflow := add_file empty_workflow qgraph_gwfile in
  let gwjob := new_job "pipetaskInit" "pipetaskInit" in
  let job_values :=
    <["label" := PStr "pipetaskInit"]>
      (<["name" := PStr "pipetaskInit"]> (job_values_of config)) in
  match Aggregator._handle_job_values job_values (fields gwjob)
          order_universal order_max order_sum with
  | Raise _ e => inl e
  | Ok fields1 =>
      match pick_node_ids (pipeline_tasks qgraph) with
      | inl e => inl e
      | inr node_ids =>
          let gwjob1 :=
            {| fields := fields1;
               cmdvals :=
                 <["qgraphNodeId" := PStr (String.concat "," (sorted node_ids))]>
                   (<["qgraphId" := PStr (graphID qgraph)]> (cmdvals gwjob)) |} in
          match add_job init_workflow gwjob1 with
          | Raise _ e => inl e
          | Ok w1 =>
              match butler_gwfile_of config with
              | inl e => inl e
              | inr butler_gwfile =>
                  let w2 := add_job_inputs w1 (job_name gwjob1)
                              [qgraph_gwfile; butler_gwfile] in
                  match _enhance_command config w2 gwjob1 with
                  | inl e => inl e
                  | inr gwjob2 => inr (update_job w2 (job_name gwjob1) gwjob2)
                  end
              end
          end
      end
  end.

End CreateInit.

(** Example data: a graph of two tasks with two units each, a record with
    every field of the job unset, and an enhancement that changes nothing. *)
Definition two_task_graph : QuantumGraph :=
  {| graphID := "1699999999.123-4242";
     pipeline_tasks := [("isr", ["n3"; "n1"]); ("calibrate", ["n2"; "n4"])] |}.

Definition unset_job_values (config : unit) : gmap string pyval :=
  gset_to_gmap PNone Aggregator.spec_job_fields.

Definition central_butler (config : unit) : exn + Templater.GenericWorkflowFile :=
  inr {| Templater.gwfile_name := "butlerConfig";
         Templater.src_uri := "/repo/butler.yaml";
         Templater.wms_transfer := false;
         Templater.job_access_remote := true;
         Templater.job_shared := true |}.

Definition no_enhancement (config : unit) (w : GenericWorkflow)
    (gwjob : GenericWorkflowJob) : exn + GenericWorkflowJob := inr gwjob.

End Init.

(** ** The initialization jobs of the legacy core (bps_core.py, lines
    408-427 and 429-555) *)

Module LegacyCore.

(** bps_core.py, lines 54-55 *)
Definition FILENODE : Z := 0.
Definition TASKNODE : Z := 1.

(** The attribute dictionary of a node of the networkx graph, with the keys
    that the construction reads back or that name files; the attributes for
    drawing and the job description, which nothing reads back, are left
    out.  [None] is an absent key. *)
Record node_attrs : Type := {
  node_type : option Z;
  task_abbrev : option string;
  lfn : option string
}.

Definition no_attrs : node_attrs :=
  {| node_type := None; task_abbrev := None; lfn := None |}.

(** A [networkx.DiGraph]: its nodes in the order they were added, each with
    its attributes, and its edges. *)
Record DiGraph : Type := {
  nodes : list (string * node_attrs);
  edges : list (string * string)
}.

Fixpoint node_of (name : string) (l : list (string * node_attrs)) : option node_attrs :=
  match l with
  | [] => None
  | (n, a) :: rest => if String.eqb n name then Some a else node_of name rest
  end.

(** [add_node(name, **attrs)]: a new node, or an update of the attributes of
    the node of that name. *)
Fixpoint upsert (name : string) (update : node_attrs -> node_attrs)
    (l : list (string * node_attrs)) : list (string * node_attrs) :=
  match l with
  | [] => [(name, update no_attrs)]
  | (n, a) :: rest =>
      if String.eqb n name then (n, update a) :: rest
      else (n, a) :: upsert name update rest
  end.

Definition add_node (g : DiGraph) (name : string)
    (update : node_attrs -> node_attrs) : DiGraph :=
  {| nodes := upsert name update (nodes g); edges := edges g |}.

Definition has_edge (g : DiGraph) (u v : string) : bool :=
  existsb (fun e => String.eqb (fst e) u && String.eqb (snd e) v) (edges g).

(** [add_edge(u, v)]: the end points become nodes when they are not. *)
Definition add_edge (g : DiGraph) (u v : string) : DiGraph :=
  let g1 := add_node (add_node g u (fun a => a)) v (fun a => a) in
  if has_edge g1 u v then g1
  else {| nodes := nodes g1; edges := (edges g1 ++ [(u, v)])%list |}.

(** [init_nodes[task_abbrev]], a dictionary with the two keys TASKNODE and
    FILENODE. *)
Record init_node : Type := {
  init_task : string;
  init_file : string
}.

(** The variables of [_create_workflow_graph] that live across the
    iterations of its loop (among them [fnode_name], which an iteration may
    read without having assigned it). *)
Record build : Type := {
  graph : DiGraph;
  ncnt : nat;
  qcnt : nat;
  taskcnts : gmap string nat;
  init_nodes : gmap string init_node;
  fnode_name : option string
}.

Definition with_graph (st : build) (g : DiGraph) : build :=
  {| graph := g; ncnt := ncnt st; qcnt := qcnt st; taskcnts := taskcnts st;
     init_nodes := init_nodes st; fnode_name := fnode_name st |}.

Section CreateWorkflowGraph.

(** [runInit] is the truth value of [self.config.get("runInit", ...)];
    [save_qg_subgraph] (lines 121-145) writes a file and [_update_task]
    (lines 367-406) sets the execution attributes of a node from the
    configuration: each returns the exception it raises, if any. *)
Variable runInit : bool.
Variable save_qg_subgraph : string -> string -> option exn.
Variable _update_task : string -> string -> option exn.
Variable submit_path : string.

(** bps_core.py, lines 452-538: the body of the loop. *)
Definition visit_node (nodename : string) (st : build) : result build :=
  match node_of nodename (nodes (graph st)) with
  | None => Raise st (KeyError nodename)
  | Some node =>
      match node_type node with
      | None => Raise st (KeyError "node_type")
      | Some ty =>
          if ty =? FILENODE then
            Ok (with_graph st
                  (add_node (graph st) nodename
                     (fun a => {| node_type := node_type a;
                                  task_abbrev := task_abbrev a;
                                  lfn := Some nodename |})))
          else if ty =? TASKNODE then
            match task_abbrev node with
            | None => Raise st (KeyError "task_abbrev")
            | Some abbrev =>
                let taskcnts1 :=
                  <[abbrev := S (default 0%nat (taskcnts st !! abbrev))]> (taskcnts st) in
                let ncnt1 := S (ncnt st) in
                let qcnt1 := S (qcnt st) in
                let qnode_name := "qgraph_" ++ nodename in
                let qlfn := "quantum_" ++ nodename ++ "_" ++ abbrev ++ ".pickle" in
                let q_filename :=
                  Str.path_join
                    (Str.path_join (Str.path_join submit_path "input") abbrev) qlfn in
                let g1 :=
                  add_node (graph st) qnode_name
                    (fun a => {| node_type := Some FILENODE;
                                 task_abbrev := task_abbrev a;
                                 lfn := Some (Str.basename q_filename) |}) in
                let st1 :=
                  {| graph := g1; ncnt := ncnt1; qcnt := qcnt1; taskcnts := taskcnts1;
                     init_nodes := init_nodes st; fnode_name := fnode_name st |} in
                match save_qg_subgraph nodename q_filename with
                | Some e => Raise st1 e
                | None =>
                    match _update_task abbrev qlfn with
                    | Some e => Raise st1 e
                    | None =>
                        let g2 := add_edge g1 qnode_name nodename in
                        if runInit then
                          match init_nodes st !! abbrev with
                          | Some _ =>
                              match fnode_name st with
                              | None => Raise (with_graph st1 g2) UnboundLocalError
                              | Some fnode =>
                                  Ok (with_graph st1 (add_edge g2 fnode nodename))
                              end
                          | None =>
                              let taskcnts2 :=
                                <[abbrev := S (default 0%nat (taskcnts1 !! abbrev))]>
                                  taskcnts1 in
                              let tnode_name := "init_" ++ abbrev in
                              let g3 :=
                                add_node g2 tnode_name
                                  (fun a => {| node_type := Some TASKNODE;
                                               task_abbrev := Some abbrev;
                                               lfn := lfn a |}) in
                              let st3 :=
                                {| graph := g3; ncnt := S ncnt1; qcnt := qcnt1;
                                   taskcnts := taskcnts2;
                                   init_nodes := init_nodes st;
                                   fnode_name := fnode_name st |} in
                              match _update_task "pipetask_init" qlfn with
                              | Some e => Raise st3 e
                              | None =>
                                  let ncnt3 := S (S ncnt1) in
                                  let fnode := Str.fmt6 ncnt3 in
                                  let g4 :=
                                    add_node g3 fnode
                                      (fun a => {| node_type := Some FILENODE;
                                                   task_abbrev := task_abbrev a;
                                                   lfn := Some (abbrev ++ "_init") |}) in
                                  let g5 := add_edge g4 tnode_name fnode in
                                  let g6 := add_edge g5 qnode_name tnode_name in
                                  Ok {| graph := add_edge g6 fnode nodename;
                                        ncnt := ncnt3; qcnt := qcnt1;
                                        taskcnts := taskcnts2;
                                        init_nodes :=
                                          <[abbrev := {| init_task := tnode_name;
                                                         init_file := fnode |}]>
                                            (init_nodes st);
                                        fnode_name := Some fnode |}
                              end
                          end
                        else Ok (with_graph st1 g2)
                    end
                end
            end
          else Raise st (ValueError "Invalid node_type")
      end
  end.

(** bps_core.py, lines 417-427: the loop of [_link_init_nodes] from its
    second item on, [prev_abbrev] being the item before. *)
Fixpoint link_from (inits : gmap string init_node) (prev_abbrev : string)
    (rest : list string) (g : DiGraph) : result DiGraph :=
  match rest with
  | [] => Ok g
  | abbrev :: rest' =>
      match inits !! abbrev with
      | None => Raise g (KeyError abbrev)
      | Some current =>
          match inits !! prev_abbrev with
          | None => Raise g (KeyError prev_abbrev)
          | Some previous =>
              link_from inits abbrev rest'
                (add_edge g (init_file previous) (init_task current))
          end
      end
  end.

(** bps_core.py, lines 408-427 *)
Definition _link_init_nodes (pipeline : list string)
    (inits : gmap string init_node) (g : DiGraph) : result DiGraph :=
  match List.map Str.strip pipeline with
  | [] => Ok g
  | first :: rest => link_from inits first rest g
  end.

(** bps_core.py, lines 543-545: the counts of the summary. *)
Fixpoint run_summary (pipeline : list string) (counts : gmap string nat)
  : exn + list (string * nat) :=
  match pipeline with
  | [] => inr []
  | x :: rest =>
      match counts !! Str.strip x with
      | None => inl (KeyError (Str.strip x))
      | Some n =>
          match run_summary rest counts with
          | inl e => inl e
          | inr l => inr ((Str.strip x, n) :: l)
          end
      end
  end.

(** bps_core.py, lines 429-555: the workflow graph made from the science
    graph [sci_graph], for the pipeline [pipeline] (the task labels in
    their order). *)
Definition _create_workflow_graph (pipeline : list string) (sci_graph : DiGraph)
  : result build :=
  let st0 :=
    {| graph := sci_graph; ncnt := length (nodes sci_graph); qcnt := 0;
       taskcnts := ∅; init_nodes := ∅; fnode_name := None |} in
  match for_each visit_node (List.map fst (nodes sci_graph)) st0 with
  | Raise st e => Raise st e
  | Ok st =>
      match
        (if runInit then _link_init_nodes pipeline (init_nodes st) (graph st)
         else Ok (graph st))
      with
      | Raise g e => Raise (with_graph st g) e
      | Ok g =>
          match run_summary pipeline (taskcnts st) with
          | inl e => Raise (with_graph st g) e
          | inr _ => Ok (with_graph st g)
          end
      end
  end.

End CreateWorkflowGraph.

(** The task nodes of a graph, each with its label, in the order of the
    nodes. *)
Fixpoint task_nodes (l : list (string * node_attrs)) : list (string * string) :=
  match l with
  | [] => []
  | (name, a) :: rest =>
      match node_type a, task_abbrev a with
      | Some ty, Some abbrev =>
          if ty =? TASKNODE then (name, abbrev) :: task_nodes rest
          else task_nodes rest
      | _, _ => task_nodes rest
      end
  end.

(** The first unit of a task label. *)
Fixpoint first_unit (label : string) (units : list (string * string)) : option string :=
  match units with
  | [] => None
  | (name, abbrev) :: rest =>
      if String.eqb abbrev label then Some name else first_unit label rest
  end.

(** Every node is a file or a task with its label. *)
Definition typed (g : DiGraph) : Prop :=
  forall name a, In (name, a) (nodes g) ->
    node_type a = Some FILENODE \/
    (node_type a = Some TASKNODE /\ exists abbrev, task_abbrev a = Some abbrev).

(** The names that the construction gives to the nodes it adds are not
    names of the science graph. *)
Definition fresh_names (g : DiGraph) : Prop :=
  forall name, In name (List.map fst (nodes g)) ->
    Str.starts_with "qgraph_" name = false /\
    Str.starts_with "init_" name = false /\
    forall k, (length (nodes g) < k <= 4 * length (nodes g))%nat ->
              name <> Str.fmt6 k.

(** The edges of a graph end at its nodes. *)
Definition closed (g : DiGraph) : Prop :=
  forall u v, In (u, v) (edges g) -> In v (List.map fst (nodes g)).

(** What holds of the variables of the loop of [_create_workflow_graph]
    when it has visited the nodes [processed] of the science graph [g0]. *)
Record loop_inv (g0 : DiGraph) (processed : list (string * node_attrs))
    (st : build) : Prop := {
  inv_keep : forall name a,
    node_of name (nodes g0) = Some a -> ~ In name (List.map fst processed) ->
    node_of name (nodes (graph st)) = Some a;
  inv_dom : forall label,
    is_Some (init_nodes st !! label) <->
    is_Some (first_unit label (task_nodes processed));
  inv_init : forall label ini,
    init_nodes st !! label = Some ini ->
    init_task ini = "init_" ++ label /\
    (exists k, init_file ini = Str.fmt6 k) /\
    (exists attrs, node_of ("init_" ++ label) (nodes (graph st)) = Some attrs /\
       node_type attrs = Some TASKNODE /\ task_abbrev attrs = Some label) /\
    exists unit, first_unit label (task_nodes processed) = Some unit /\
      In ("qgraph_" ++ unit, "init_" ++ label) (edges (graph st));
  inv_only : forall unit label,
    In ("qgraph_" ++ unit, "init_" ++ label) (edges (graph st)) ->
    first_unit label (task_nodes processed) = Some unit;
  inv_count_lo : (length (nodes g0) <= ncnt st)%nat;
  inv_count_hi : (ncnt st <= length (nodes g0) + 3 * length processed)%nat;
  inv_fnode : forall label,
    is_Some (init_nodes st !! label) -> is_Some (fnode_name st);
  inv_counts : forall label,
    is_Some (first_unit label (task_nodes processed)) ->
    is_Some (taskcnts st !! label)
}.

(** Example data: the science graph of two units of task [isr] and one of
    task [calibrate], with the data sets between them. *)
Definition file_node : node_attrs :=
  {| node_type := Some FILENODE; task_abbrev := None; lfn := None |}.

Definition task_node (abbrev : string) : node_attrs :=
  {| node_type := Some TASKNODE; task_abbrev := Some abbrev; lfn := None |}.

Definition example_sci_graph : DiGraph :=
  {| nodes := [("000000", task_node "isr"); ("ds000001", file_node);
               ("ds000002", file_node); ("000001", task_node "isr");
               ("ds000003", file_node); ("ds000004", file_node);
               ("000002", task_node "calibrate"); ("ds000005", file_node)];
     edges := [("ds000001", "000000"); ("000000", "ds000002");
               ("ds000003", "000001"); ("000001", "ds000004");
               ("ds000002", "000002"); ("ds000004", "000002");
               ("000002", "ds000005")] |}.

Definition no_failure (a b : string) : option exn := None.

(** [re.sub(r"[\{\}]", "", s)]: the braces are dropped. *)
Fixpoint drop_braces (s : string) : string :=
  match s with
  | EmptyString => EmptyString
  | String c s' =>
      if Ascii.eqb c "{" || Ascii.eqb c "}" then drop_braces s'
      else String c (drop_braces s')
  end.

(** The line feed. *)
Definition newline : string := String (ascii_of_nat 10) EmptyString.

(** bps_core.py, lines 101-118.  Each pattern but the last matches one
    fixed text, so that [re.sub] is [str.replace]. *)
Definition pretty_dataset_label (orig_name : string) : string :=
  let new_name := Str.replace ": " "=" orig_name in
  let new_name := Str.replace "+" newline new_name in
  let new_name := Str.replace "," newline new_name in
  drop_braces new_name.

End LegacyCore.

(** * Properties *)

(** ** Loops *)

Lemma for_each_app {S} (step : string -> S -> result S) (l1 l2 : list string) (s : S) :
  for_each step (l1 ++ l2)%list s =
  match for_each step l1 s with
  | Ok s' => for_each step l2 s'
  | Raise s' e => Raise s' e
  end.
Proof.
  revert s. induction l1 as [|a l1 IH]; intros s; simpl; [reflexivity|].
  destruct (step a s) as [s'|s' e]; [apply IH | reflexivity].
Qed.

(** A loop whose body does nothing on the items that [keep] rejects is the
    loop over the items it keeps. *)
Lemma for_each_skip {S} (step : string -> S -> result S) (keep : string -> bool)
    (l : list string) (s : S) :
  (forall a s0, keep a = false -> step a s0 = Ok s0) ->
  for_each step l s = for_each step (List.filter keep l) s.
Proof.
  intros Hskip. revert s. induction l as [|a l IH]; intros s; simpl; [reflexivity|].
  destruct (keep a) eqn:Hk; simpl.
  - destruct (step a s); [apply IH | reflexivity].
  - rewrite (Hskip a s Hk). apply IH.
Qed.

(** ** Strings *)

Module StrFacts.
Import Str.

Lemma app_assoc (a b c : string) : ((a ++ b) ++ c = a ++ (b ++ c))%string.
Proof. induction a as [|x a IH]; simpl; [done|by rewrite IH]. Qed.

Lemma length_app (a b : string) :
  String.length (a ++ b) = (String.length a + String.length b)%nat.
Proof. induction a as [|x a IH]; simpl; [done|by rewrite IH]. Qed.

Lemma starts_with_app (p s : string) : starts_with p (p ++ s) = true.
Proof.
  induction p as [|x p IH]; simpl; [done|].
  by rewrite Ascii.eqb_refl, IH.
Qed.

Lemma drop_app (p s : string) : drop (String.length p) (p ++ s) = s.
Proof. induction p as [|x p IH]; simpl; [by destruct s|done]. Qed.

Lemma drop_length (n : nat) (s : string) :
  (String.length (drop n s) <= String.length s)%nat.
Proof.
  revert s. induction n as [|n IH]; intros [|c s]; simpl; try lia.
  specialize (IH s). lia.
Qed.

Lemma span_length keep s a b :
  span keep s = (a, b) ->
  String.length s = (String.length a + String.length b)%nat.
Proof.
  revert a b. induction s as [|c s IH]; intros a b; simpl.
  - by intros [= <- <-].
  - destruct (keep c); [|by intros [= <- <-]].
    destruct (span keep s) as [a' b']. intros [= <- <-]. simpl.
    by rewrite (IH a' b').
Qed.

(** [span] stops at the first character that is not kept. *)
Lemma span_app keep (k : string) (c : ascii) (rest : string) :
  (forall d, has_char d k = true -> keep d = true) -> keep c = false ->
  span keep (k ++ String c rest) = (k, String c rest).
Proof.
  intros Hk Hc. induction k as [|x k IH]; simpl.
  - by rewrite Hc.
  - rewrite Hk by (simpl; by rewrite Ascii.eqb_refl).
    rewrite IH; [done|]. intros d Hd. apply Hk. simpl. by rewrite Hd, orb_true_r.
Qed.

Lemma match_marker_shorter opening closing s k rest :
  match_marker opening closing s = Some (k, rest) ->
  (String.length rest < String.length s)%nat.
Proof.
  unfold match_marker. destruct (starts_with opening s); [|done].
  destruct (span _ _) as [a b] eqn:Hspan.
  destruct a as [|ka a]; [done|]. destruct b as [|cb b]; [done|].
  intros [= <- <-]. apply span_length in Hspan.
  pose proof (drop_length (String.length opening) s). simpl in Hspan. lia.
Qed.

(** More fuel than the length of the string changes nothing. *)
Lemma scan_enough opening closing : forall n s,
  (String.length s <= n)%nat ->
  scan n opening closing s = scan (String.length s) opening closing s.
Proof.
  intros n. induction n as [n IH] using lt_wf_ind. intros s Hn.
  destruct s as [|c s]; [by destruct n|].
  destruct n as [|n]; [simpl in Hn; lia|].
  cbn [scan String.length].
  destruct (match_marker opening closing (String c s)) as [[k rest]|] eqn:Hm.
  - apply match_marker_shorter in Hm as Hlt. simpl in Hlt, Hn.
    f_equal. rewrite (IH n) by lia. rewrite (IH (String.length s)) by lia. done.
  - f_equal. simpl in Hn. apply IH; lia.
Qed.

Lemma tokens_chr opening closing c s :
  match_marker opening closing (String c s) = None ->
  tokens opening closing (String c s) = Chr c :: tokens opening closing s.
Proof. intros Hm. unfold tokens. cbn [scan String.length]. by rewrite Hm. Qed.

Lemma tokens_marker opening closing s k rest :
  match_marker opening closing s = Some (k, rest) ->
  tokens opening closing s = Marker k :: tokens opening closing rest.
Proof.
  intros Hm. destruct s as [|c s].
  { unfold match_marker in Hm. destruct (starts_with opening ""); [|done].
    by destruct opening. }
  unfold tokens. cbn [scan String.length]. rewrite Hm. f_equal.
  apply match_marker_shorter in Hm. simpl in Hm. apply scan_enough. lia.
Qed.

Lemma starts_with_other o opening' c s :
  c <> o -> starts_with (String o opening') (String c s) = false.
Proof. intros H. simpl. destruct (Ascii.eqb_spec o c); [congruence|done]. Qed.

Lemma match_marker_other o opening' closing c s :
  c <> o -> match_marker (String o opening') closing (String c s) = None.
Proof. intros H. unfold match_marker. by rewrite starts_with_other. Qed.

Lemma has_char_cons_false o c s :
  has_char o (String c s) = false -> c <> o /\ has_char o s = false.
Proof.
  simpl. intros H. apply orb_false_iff in H as [H1 H2]. split; [|done].
  by destruct (Ascii.eqb_spec c o).
Qed.

(** No match of the pattern starts in a text without its first character. *)
Lemma findall_plain o opening' closing (pre rest : string) :
  has_char o pre = false ->
  findall (String o opening') closing (pre ++ rest) =
  findall (String o opening') closing rest.
Proof.
  intros H. induction pre as [|c pre IH]; [done|].
  apply has_char_cons_false in H as [Hc H].
  unfold findall in *. simpl.
  rewrite tokens_chr by (by apply match_marker_other). simpl. by apply IH.
Qed.

Lemma findall_plain_nil o opening' closing (s : string) :
  has_char o s = false -> findall (String o opening') closing s = [].
Proof.
  intros H. induction s as [|c s IH]; [done|].
  apply has_char_cons_false in H as [Hc H].
  unfold findall in *.
  rewrite tokens_chr by (by apply match_marker_other). simpl. by apply IH.
Qed.

Lemma match_marker_here opening closing (k rest : string) :
  k <> EmptyString -> has_char closing k = false ->
  match_marker opening closing (opening ++ k ++ String closing rest) =
  Some (k, rest).
Proof.
  intros Hk Hc. unfold match_marker.
  rewrite starts_with_app, drop_app.
  rewrite span_app.
  - destruct k; [done|done].
  - intros d Hd. destruct (Ascii.eqb_spec d closing) as [->|]; [congruence|done].
  - by rewrite Ascii.eqb_refl.
Qed.

(** [replace]: the same three facts. *)
Lemma replace_enough old new : forall n s,
  old <> EmptyString -> (String.length s <= n)%nat ->
  replace_fuel n old new s = replace_fuel (String.length s) old new s.
Proof.
  intros n. induction n as [n IH] using lt_wf_ind. intros s Hold Hn.
  destruct s as [|c s]; [by destruct n|].
  destruct n as [|n]; [simpl in Hn; lia|].
  cbn [replace_fuel String.length].
  destruct (starts_with old (String c s)) eqn:Hs.
  - f_equal. destruct old as [|o old]; [done|].
    cbn [String.length drop]. simpl in Hn.
    pose proof (drop_length (String.length old) s).
    rewrite (IH n) by (done || lia).
    rewrite (IH (String.length s)) by (done || lia). done.
  - f_equal. simpl in Hn. apply IH; (done || lia).
Qed.

Lemma replace_plain o old' new (pre rest : string) :
  has_char o pre = false ->
  replace (String o old') new (pre ++ rest) =
  (pre ++ replace (String o old') new rest)%string.
Proof.
  intros H. induction pre as [|c pre IH]; [done|].
  apply has_char_cons_false in H as [Hc H].
  unfold replace in *. simpl String.append. cbn [replace_fuel String.length].
  rewrite starts_with_other by done. f_equal. by apply IH.
Qed.

Lemma replace_plain_id o old' new (s : string) :
  has_char o s = false -> replace (String o old') new s = s.
Proof.
  intros H. induction s as [|c s IH]; [done|].
  apply has_char_cons_false in H as [Hc H].
  unfold replace in *. cbn [replace_fuel String.length].
  rewrite starts_with_other by done. f_equal. by apply IH.
Qed.

Lemma replace_fuel_step n old new c s :
  replace_fuel (S n) old new (String c s) =
  if starts_with old (String c s)
  then (new ++ replace_fuel n old new (drop (String.length old) (String c s)))%string
  else String c (replace_fuel n old new s).
Proof. reflexivity. Qed.

Lemma replace_here old new (rest : string) :
  old <> EmptyString ->
  replace old new (old ++ rest) = (new ++ replace old new rest)%string.
Proof.
  intros Hold. unfold replace. destruct old as [|o old]; [done|].
  change (String o old ++ rest)%string with (String o (old ++ rest)).
  cbn [String.length]. rewrite replace_fuel_step.
  change (String o (old ++ rest)) with (String o old ++ rest)%string.
  rewrite starts_with_app, drop_app. f_equal.
  apply replace_enough; [done|]. rewrite length_app. lia.
Qed.

End StrFacts.

(** ** The command templater *)

Module TemplaterFacts.
Import Templater StrFacts.

(** C6 as stated fails: not every remaining case gives the base name.  The
    execution butler of a run (transferred by the backend, not
    job-shareable, source location not ending in .yaml) on a shared
    filesystem stands in the command as butler.yaml, while the base name of
    its source location is EXEC_REPO. *)
Lemma butler_config_marker_is_not_base_name :
  wms_transfer execution_butler = true /\
  job_shared execution_butler = false /\
  Str.basename (src_uri execution_butler) = "EXEC_REPO" /\
  example_files "butlerConfig" = Some execution_butler /\
  fill_file_markers true example_files
    "--butler-config <FILE:butlerConfig> --qgraph <FILE:runQgraphFile>"
  = Ok "--butler-config butler.yaml --qgraph /submit/run1/run1.qgraph".
Proof. repeat split; vm_compute; reflexivity. Qed.

Lemma basename_no_slash (p : string) : Str.has_char "/" (Str.basename p) = false.
Proof.
  induction p as [|c p IH]; [done|]. cbn [Str.basename].
  destruct (Ascii.eqb c "/" || Str.has_char "/" p) eqn:E; [done|].
  apply orb_false_iff in E as [Hc Hp]. cbn [Str.has_char]. by rewrite Hc, Hp.
Qed.

Lemma basename_plain (p : string) : Str.has_char "/" p = false -> Str.basename p = p.
Proof.
  destruct p as [|c p]; [done|]. cbn [Str.has_char Str.basename].
  intros H. by rewrite H.
Qed.

(** X9. The butler file of a job is always named [butlerConfig].  When the
    execution butler is never created (in any letter case), it is the
    central butler's configuration, not transferred, and a job's command
    line gets its location as configured.  Otherwise it is the execution
    butler's directory, taken under [prefix] unless it is absolute and
    transferred by the backend, and a job's command line gets a name without
    any directory: [butler.yaml], or the directory's base name. *)
Theorem butler_file_in_command_line
    (prefix when_create butler_config execution_butler_dir : string)
    (use_shared : bool) :
  let gwfile :=
    _get_butler_gwfile prefix when_create butler_config execution_butler_dir in
  gwfile_name gwfile = "butlerConfig" /\
  (Str.upper when_create = "NEVER" ->
     src_uri gwfile = butler_config /\ wms_transfer gwfile = false /\
     file_uri use_shared gwfile = butler_config) /\
  (Str.upper when_create <> "NEVER" ->
     wms_transfer gwfile = true /\
     (Str.starts_with "/" execution_butler_dir = true ->
        src_uri gwfile = execution_butler_dir) /\
     (Str.starts_with "/" execution_butler_dir = false ->
        src_uri gwfile = prefix ++ "/" ++ execution_butler_dir) /\
     Str.has_char "/" (file_uri use_shared gwfile) = false /\
     (file_uri use_shared gwfile = "butler.yaml" \/
      file_uri use_shared gwfile = Str.basename (src_uri gwfile)) /\
     (use_shared = false ->
        file_uri use_shared gwfile = Str.basename (src_uri gwfile))).
Proof.
  unfold _get_butler_gwfile. cbv zeta.
  destruct (String.eqb_spec (Str.upper when_create) "NEVER") as [Hn|Hn].
  - split; [done|]. split; [|done]. intros _. done.
  - split; [done|]. split; [done|]. intros _. split; [done|].
    split; [by intros ->|]. split; [by intros ->|].
    unfold file_uri. cbn [wms_transfer job_shared gwfile_name src_uri negb].
    destruct use_shared.
    + rewrite String.eqb_refl. cbn [andb].
      destruct (negb _); [split; [done|]; split; [by left|done]|].
      split; [apply basename_no_slash|]. split; [by right|done].
    + split; [apply basename_no_slash|]. split; [by right|done].
Qed.

Lemma append_empty_r (s : string) : s ++ EmptyString = s.
Proof. induction s as [|c s IH]; simpl; [done|by rewrite IH]. Qed.

Lemma concat_cons (x : string) (l : list string) :
  String.concat EmptyString (x :: l) = x ++ String.concat EmptyString l.
Proof. destruct l; simpl; [by rewrite append_empty_r|done]. Qed.

(** [re.sub] on the text before the first ["<"], at a marker, and on text
    without any. *)
Lemma sub_plain o opening' closing f (pre rest : string) :
  Str.has_char o pre = false ->
  Str.sub (String o opening') closing f (pre ++ rest) =
  pre ++ Str.sub (String o opening') closing f rest.
Proof.
  intros H. induction pre as [|c pre IH]; [done|].
  apply has_char_cons_false in H as [Hc H].
  unfold Str.sub in *. simpl String.append.
  rewrite tokens_chr by (by apply match_marker_other).
  cbn [List.map]. rewrite concat_cons, IH by done. done.
Qed.

Lemma sub_plain_id o opening' closing f (s : string) :
  Str.has_char o s = false -> Str.sub (String o opening') closing f s = s.
Proof.
  intros H. rewrite <- (append_empty_r s) at 1.
  rewrite sub_plain by done. unfold Str.sub. simpl. apply append_empty_r.
Qed.

Lemma sub_here opening closing f (k rest : string) :
  k <> EmptyString -> Str.has_char closing k = false ->
  Str.sub opening closing f (opening ++ k ++ String closing rest) =
  f k ++ Str.sub opening closing f rest.
Proof.
  intros Hk Hc. unfold Str.sub.
  rewrite (tokens_marker opening closing _ k rest)
    by (by apply match_marker_here).
  cbn [List.map]. by rewrite concat_cons.
Qed.

Lemma findall_chr opening closing c s :
  Str.match_marker opening closing (String c s) = None ->
  Str.findall opening closing (String c s) = Str.findall opening closing s.
Proof. intros H. unfold Str.findall. by rewrite tokens_chr. Qed.

(** [os.path.expandvars] on text without ["$"], with any fuel. *)
Lemma expandvars_fuel_plain env : forall n s,
  Str.has_char "$" s = false -> Str.expandvars_fuel n env s = s.
Proof.
  induction n as [|n IH]; intros s H; [done|].
  destruct s as [|c s]; [done|].
  apply has_char_cons_false in H as [Hc H].
  cbn [Str.expandvars_fuel]. destruct (Ascii.eqb_spec c "$"); [done|].
  by rewrite IH.
Qed.

Lemma expandvars_fuel_prefix env (pre s : string) : forall n,
  Str.has_char "$" pre = false ->
  Str.expandvars_fuel (String.length pre + n) env (pre ++ s) =
  pre ++ Str.expandvars_fuel n env s.
Proof.
  intros n H. induction pre as [|c pre IH]; [done|].
  apply has_char_cons_false in H as [Hc H].
  cbn [String.length Nat.add]. simpl String.append.
  cbn [Str.expandvars_fuel]. destruct (Ascii.eqb_spec c "$"); [done|].
  by rewrite IH.
Qed.

(** [span] goes over a prefix whose characters are all kept. *)
Lemma span_kept keep (k s : string) :
  (forall d, Str.has_char d k = true -> keep d = true) ->
  Str.span keep (k ++ s) = (k ++ fst (Str.span keep s), snd (Str.span keep s)).
Proof.
  intros Hk. induction k as [|x k IH]; simpl.
  - by destruct (Str.span keep s).
  - rewrite Hk by (simpl; by rewrite Ascii.eqb_refl).
    rewrite IH; [done|]. intros d Hd. apply Hk. simpl. by rewrite Hd, orb_true_r.
Qed.

Lemma span_plain keep c (s : string) :
  Str.has_char c s = false ->
  Str.has_char c (fst (Str.span keep s)) = false /\
  Str.has_char c (snd (Str.span keep s)) = false.
Proof.
  induction s as [|x s IH]; [done|]. intros H.
  apply has_char_cons_false in H as [Hx H]. cbn [Str.span].
  destruct (keep x).
  - destruct (IH H) as [Ha Hb]. destruct (Str.span keep s) as [a b].
    simpl in *. split; [|done]. rewrite Ha.
    by destruct (Ascii.eqb_spec x c).
  - split; [done|]. simpl. rewrite H. by destruct (Ascii.eqb_spec x c).
Qed.

(** X10. In [_fill_arguments], a marker [<ENV:NAME>] whose name is made of
    word characters, in a command line with no other marker and no dollar,
    stands for the environment variable whose name is [NAME] followed by the
    word characters that come right after the marker: the command line
    handed to [str.format] has the variable's value in the place of the
    marker and of these characters, or, when the variable is not set, [$NAME]
    in the place of the marker. *)
Theorem env_marker_reads_the_following_word
    (environ : gmap string string)
    (str_format : string -> gmap string pyval -> exn + string)
    (use_shared : bool) (get_file : string -> option GenericWorkflowFile)
    (pre post name : string) (cmdvals : gmap string pyval) :
  Str.has_char "<" pre = false -> Str.has_char "$" pre = false ->
  Str.has_char "<" post = false -> Str.has_char "$" post = false ->
  name <> EmptyString ->
  (forall d, Str.has_char d name = true -> Str.is_word d = true) ->
  let word := fst (Str.span Str.is_word post) in
  let rest := snd (Str.span Str.is_word post) in
  let expanded :=
    match environ !! (name ++ word) with
    | Some value => pre ++ value ++ rest
    | None => pre ++ "$" ++ name ++ post
    end in
  _fill_arguments environ str_format use_shared get_file
    (pre ++ "<ENV:" ++ name ++ ">" ++ post) cmdvals
  = match str_format expanded cmdvals with
    | inr arguments => Ok arguments
    | inl e => Raise expanded e
    end.
Proof.
  intros Hpre Hpre' Hpost Hpost' Hname Hword word rest expanded.
  assert (Hnolt : Str.has_char "<" name = false).
  { destruct (Str.has_char "<" name) eqn:E; [|done]. by apply Hword in E. }
  assert (Hnogt : Str.has_char ">" name = false).
  { destruct (Str.has_char ">" name) eqn:E; [|done]. by apply Hword in E. }
  assert (Hfiles : fill_file_markers use_shared get_file
            (pre ++ "<ENV:" ++ name ++ ">" ++ post)
          = Ok (pre ++ "<ENV:" ++ name ++ ">" ++ post)).
  { unfold fill_file_markers.
    rewrite (findall_plain "<" "FILE:" ">" pre _ Hpre).
    assert (Hkeys : Str.findall "<FILE:" ">" ("<ENV:" ++ name ++ ">" ++ post) = []).
    { change ("<ENV:" ++ name ++ ">" ++ post)
        with (String "<" (String "E" (String "N" (String "V" (String ":"
                (name ++ ">" ++ post)))))).
      rewrite findall_chr by done.
      do 4 (rewrite findall_chr by (by apply match_marker_other)).
      rewrite (findall_plain "<" "FILE:" ">" name _ Hnolt).
      change (">" ++ post) with (String ">" post).
      rewrite findall_chr by (by apply match_marker_other).
      apply (findall_plain_nil "<" "FILE:" ">" post Hpost). }
    by rewrite Hkeys. }
  assert (Hsub : Str.sub "<ENV:" ">" (fun k => "$" ++ k)
                   (pre ++ "<ENV:" ++ name ++ ">" ++ post)
                 = pre ++ "$" ++ name ++ post).
  { rewrite (sub_plain "<" "ENV:" ">" _ pre _ Hpre). f_equal.
    change (">" ++ post) with (String ">" post).
    rewrite (sub_here "<ENV:" ">" _ name post Hname Hnogt).
    rewrite (sub_plain_id "<" "ENV:" ">" _ post Hpost).
    apply app_assoc. }
  assert (Hsplit : post = word ++ rest).
  { unfold word, rest. clear. induction post as [|c s IH]; [done|].
    cbn [Str.span]. destruct (Str.is_word c); [|done].
    destruct (Str.span Str.is_word s) as [a b]. simpl in *. by rewrite IH at 1. }
  assert (Hrest : Str.has_char "$" rest = false)
    by (apply (span_plain Str.is_word "$" post Hpost')).
  assert (Hexp : Str.expandvars environ (pre ++ "$" ++ name ++ post) = expanded).
  { unfold Str.expandvars. rewrite length_app.
    rewrite (expandvars_fuel_prefix environ pre _ _ Hpre').
    change ("$" ++ name ++ post) with (String "$" (name ++ post)).
    cbn [String.length Str.expandvars_fuel]. rewrite Ascii.eqb_refl.
    rewrite (span_kept Str.is_word name post Hword). fold word rest.
    destruct name as [|w nm]; [done|].
    change (String w nm ++ word) with (String w (nm ++ word)).
    unfold expanded.
    change (String w nm ++ word) with (String w (nm ++ word)).
    destruct (environ !! String w (nm ++ word)) as [value|].
    - by rewrite expandvars_fuel_plain.
    - rewrite expandvars_fuel_plain by done. f_equal.
      change (String "$" (String w ((nm ++ word) ++ rest))
              = String "$" (String w (nm ++ post))).
      do 2 f_equal. rewrite app_assoc. f_equal. by symmetry. }
  unfold _fill_arguments. rewrite Hfiles. cbv zeta. by rewrite Hsub, Hexp.
Qed.

(** X11. [_fill_arguments] raises [KeyError] on the first file marker of
    the command line when the workflow has no file of that name, whatever
    follows the marker, and leaves the command line as it was. *)
Theorem file_marker_of_unknown_file_raises
    (environ : gmap string string)
    (str_format : string -> gmap string pyval -> exn + string)
    (use_shared : bool) (get_file : string -> option GenericWorkflowFile)
    (pre post file_key : string) (cmdvals : gmap string pyval) :
  Str.has_char "<" pre = false ->
  file_key <> EmptyString -> Str.has_char ">" file_key = false ->
  get_file file_key = None ->
  _fill_arguments environ str_format use_shared get_file
    (pre ++ "<FILE:" ++ file_key ++ ">" ++ post) cmdvals
  = Raise (pre ++ "<FILE:" ++ file_key ++ ">" ++ post) (KeyError file_key).
Proof.
  intros Hpre Hk Hkc Hget. unfold _fill_arguments, fill_file_markers.
  rewrite (findall_plain "<" "FILE:" ">" pre _ Hpre).
  unfold Str.findall.
  change (">" ++ post) with (String ">" post).
  rewrite (tokens_marker "<FILE:" ">" _ file_key post)
    by (by apply (match_marker_here "<FILE:" ">" file_key post)).
  cbn [omap list_omap replace_file_markers]. by rewrite Hget.
Qed.

(** X12. A command line without ["<"] and without ["$"] has no marker and
    no variable: [_fill_arguments] hands it to [str.format] as it is,
    whatever the files of the workflow and the environment. *)
Theorem command_line_without_markers_is_only_formatted
    (environ : gmap string string)
    (str_format : string -> gmap string pyval -> exn + string)
    (use_shared : bool) (get_file : string -> option GenericWorkflowFile)
    (arguments : string) (cmdvals : gmap string pyval) :
  Str.has_char "<" arguments = false -> Str.has_char "$" arguments = false ->
  _fill_arguments environ str_format use_shared get_file arguments cmdvals
  = match str_format arguments cmdvals with
    | inr formatted => Ok formatted
    | inl e => Raise arguments e
    end.
Proof.
  intros Hlt Hdollar. unfold _fill_arguments, fill_file_markers.
  rewrite (findall_plain_nil "<" "FILE:" ">" arguments Hlt).
  cbn [replace_file_markers]. cbv zeta.
  rewrite (sub_plain_id "<" "ENV:" ">" _ arguments Hlt).
  unfold Str.expandvars. by rewrite expandvars_fuel_plain.
Qed.

(** The execution butler of a run whose directory is given relative to the
    submit directory. *)
Lemma butler_file_witness :
  src_uri (_get_butler_gwfile "/submit/run1" "submit" "/repo/butler.yaml" "EXEC_REPO")
    = "/submit/run1/EXEC_REPO" /\
  Str.has_char "/"
    (file_uri true
       (_get_butler_gwfile "/submit/run1" "submit" "/repo/butler.yaml" "EXEC_REPO"))
    = false.
Proof.
  destruct (butler_file_in_command_line "/submit/run1" "submit" "/repo/butler.yaml"
              "EXEC_REPO" true) as (_ & _ & H).
  destruct H as (_ & _ & Hrel & Hno & _).
  - intros E. vm_compute in E. discriminate.
  - split; [apply Hrel; reflexivity|exact Hno].
Defined.

(** The variable read is [HOMEdir], not [HOME]. *)
Lemma env_marker_witness :
  _fill_arguments {[ "HOME" := "/home/u"; "HOMEdir" := "/data" ]}
    (fun s _ => inr s) true example_files "ls <ENV:HOME>dir/x" ∅
  = Ok "ls /data/x".
Proof.
  refine (eq_trans (env_marker_reads_the_following_word
           {[ "HOME" := "/home/u"; "HOMEdir" := "/data" ]}
           (fun s _ => inr s) true example_files "ls " "dir/x" "HOME" ∅
           _ _ _ _ _ _) _);
    try reflexivity; [discriminate|].
  intros d Hd. cbn [Str.has_char] in Hd.
  repeat (apply orb_true_iff in Hd as [Hd|Hd];
          [apply Ascii.eqb_eq in Hd; subst d; reflexivity|]).
  discriminate.
Defined.

Lemma unknown_file_witness :
  _fill_arguments ∅ (fun s _ => inr s) true example_files
    "run <FILE:qgraphFile> <FILE:butlerConfig>" ∅
  = Raise "run <FILE:qgraphFile> <FILE:butlerConfig>" (KeyError "qgraphFile").
Proof.
  apply (file_marker_of_unknown_file_raises ∅ (fun s _ => inr s) true example_files
           "run " " <FILE:butlerConfig>" "qgraphFile" ∅);
    first [reflexivity | discriminate].
Defined.

Lemma command_line_without_markers_witness :
  _fill_arguments {[ "HOME" := "/home/u" ]} (fun s _ => inr s) false
    example_files "pipetask run -b repo" ∅
  = Ok "pipetask run -b repo".
Proof.
  apply (command_line_without_markers_is_only_formatted
           {[ "HOME" := "/home/u" ]} (fun s _ => inr s) false example_files
           "pipetask run -b repo" ∅); reflexivity.
Defined.

Lemma starts_with_split (p s : string) :
  Str.starts_with p s = true -> s = p ++ Str.drop (String.length p) s.
Proof.
  revert s. induction p as [|a p IH]; intros s; [by destruct s|].
  destruct s as [|b s]; [done|]. simpl.
  intros H. apply andb_true_iff in H as [Hab Hs].
  apply Ascii.eqb_eq in Hab as ->. f_equal. by apply IH.
Qed.

Lemma span_split keep (s a b : string) :
  Str.span keep s = (a, b) ->
  s = a ++ b /\
  (forall d, Str.has_char d a = true -> keep d = true) /\
  match b with String c _ => keep c = false | EmptyString => True end.
Proof.
  revert a b. induction s as [|c s IH]; intros a b; simpl.
  - by intros [= <- <-].
  - destruct (keep c) eqn:Hc.
    + destruct (Str.span keep s) as [a' b']. intros [= <- <-].
      destruct (IH a' b' eq_refl) as (Hs & Ha & Hb).
      split; [simpl; by rewrite Hs at 1|]. split; [|done].
      intros d. simpl. intros H. apply orb_true_iff in H as [H|H]; [|by apply Ha].
      by apply Ascii.eqb_eq in H as <-.
    + intros [= <- <-]. split; [done|]. split; [done|]. done.
Qed.

Lemma match_marker_split opening closing (s k rest : string) :
  Str.match_marker opening closing s = Some (k, rest) ->
  s = opening ++ k ++ String closing rest /\
  k <> EmptyString /\ Str.has_char closing k = false.
Proof.
  unfold Str.match_marker. destruct (Str.starts_with opening s) eqn:Hs; [|done].
  apply starts_with_split in Hs.
  destruct (Str.span _ _) as [a b] eqn:Hspan.
  apply span_split in Hspan as (Hd & Ha & Hb).
  destruct a as [|ka a]; [done|]. destruct b as [|cb b]; [done|].
  intros [= <- <-].
  apply negb_false_iff, Ascii.eqb_eq in Hb as ->.
  split; [by rewrite Hs at 1; rewrite Hd|]. split; [done|].
  destruct (Str.has_char closing (String ka a)) eqn:E; [|done].
  apply Ha in E. by rewrite Ascii.eqb_refl in E.
Qed.

(** Induction along the tokens of a string. *)
Lemma tokens_ind opening closing (P : string -> Prop) :
  P EmptyString ->
  (forall c s, Str.match_marker opening closing (String c s) = None ->
     P s -> P (String c s)) ->
  (forall s k rest, Str.match_marker opening closing s = Some (k, rest) ->
     P rest -> P s) ->
  forall s, P s.
Proof.
  intros Hnil Hchr Hmarker s.
  remember (String.length s) as n eqn:Hn.
  revert s Hn. induction n as [n IH] using lt_wf_ind. intros s Hn.
  destruct s as [|c s]; [done|].
  destruct (Str.match_marker opening closing (String c s)) as [[k rest]|] eqn:Hm.
  - apply (Hmarker _ k rest Hm). apply match_marker_shorter in Hm.
    apply (IH (String.length rest)); [lia|done].
  - apply Hchr; [done|]. apply (IH (String.length s)); [simpl in Hn; lia|done].
Qed.

Lemma render_cons_chr f R c ts :
  render f R (Str.Chr c :: ts) = String c (render f R ts).
Proof. unfold render. cbn [List.map]. by rewrite concat_cons. Qed.

Lemma render_cons_marker f R k ts :
  render f R (Str.Marker k :: ts) =
  (if existsb (String.eqb k) R then f k else "<FILE:" ++ k ++ ">")
  ++ render f R ts.
Proof. unfold render. cbn [List.map]. by rewrite concat_cons. Qed.

(** Before the loop nothing is replaced: the tokens give the string back. *)
Lemma render_nil f (s : string) : render f [] (Str.tokens "<FILE:" ">" s) = s.
Proof.
  induction s as [|c s Hm IH|s k rest Hm IH] using (tokens_ind "<FILE:" ">").
  - done.
  - rewrite tokens_chr by done. by rewrite render_cons_chr, IH.
  - rewrite (tokens_marker _ _ _ _ _ Hm), render_cons_marker, IH.
    apply match_marker_split in Hm as (-> & _ & _). cbn [existsb].
    change (String ">" rest) with (">" ++ rest).
    by rewrite <- !app_assoc.
Qed.

(** The keys of the markers have a character and no [">"]. *)
Lemma tokens_keys (s k : string) :
  In (Str.Marker k) (Str.tokens "<FILE:" ">" s) ->
  k <> EmptyString /\ Str.has_char ">" k = false.
Proof.
  induction s as [|c s Hm IH|s k' rest Hm IH] using (tokens_ind "<FILE:" ">").
  - done.
  - rewrite tokens_chr by done. intros [H|H]; [done|by apply IH].
  - rewrite (tokens_marker _ _ _ _ _ Hm). intros [[= ->]|H]; [|by apply IH].
    by apply match_marker_split in Hm as (_ & ? & ?).
Qed.

Lemma findall_keys opening closing (s k : string) :
  In (Str.Marker k) (Str.tokens opening closing s) ->
  In k (Str.findall opening closing s).
Proof.
  unfold Str.findall. generalize (Str.tokens opening closing s) as ts.
  induction ts as [|t ts IH]; [done|]. intros [->|H]; simpl.
  - by left.
  - destruct t; [by apply IH|right; by apply IH].
Qed.

Lemma keys_findall opening closing (s k : string) :
  In k (Str.findall opening closing s) ->
  In (Str.Marker k) (Str.tokens opening closing s).
Proof.
  unfold Str.findall. generalize (Str.tokens opening closing s) as ts.
  induction ts as [|t ts IH]; [done|]. simpl. destruct t; simpl.
  - intros H. right. by apply IH.
  - intros [->|H]; [by left|right; by apply IH].
Qed.

Lemma replace_skip old new c (s : string) :
  Str.starts_with old (String c s) = false ->
  Str.replace old new (String c s) = String c (Str.replace old new s).
Proof.
  intros H. unfold Str.replace. destruct old as [|o old]; [done|].
  cbn [String.length]. by rewrite replace_fuel_step, H.
Qed.

Lemma has_char_append c (a b : string) :
  Str.has_char c (a ++ b) = Str.has_char c a || Str.has_char c b.
Proof.
  induction a as [|x a IH]; [done|]. simpl String.append. cbn [Str.has_char].
  by rewrite IH, orb_assoc.
Qed.

(** Two markers, one at the start of the other's text: the same key. *)
Lemma marker_prefix_same (k k' r : string) :
  Str.has_char ">" k = false -> Str.has_char ">" k' = false ->
  Str.starts_with (k ++ ">") (k' ++ ">" ++ r) = true -> k = k'.
Proof.
  revert k'. induction k as [|x k IH]; intros [|y k'] Hk Hk'; simpl String.append.
  - done.
  - cbn [Str.starts_with]. apply has_char_cons_false in Hk' as [Hy _].
    destruct (Ascii.eqb_spec ">" y); [congruence|done].
  - cbn [Str.starts_with]. apply has_char_cons_false in Hk as [Hx _].
    destruct (Ascii.eqb_spec x ">"); [congruence|done].
  - cbn [Str.starts_with]. intros H. apply andb_true_iff in H as [Hxy H].
    apply Ascii.eqb_eq in Hxy as ->.
    apply has_char_cons_false in Hk as [_ Hk].
    apply has_char_cons_false in Hk' as [_ Hk'].
    f_equal. by apply IH.
Qed.

(** One turn of the loop: [str.replace] of the marker of [k] rewrites the
    markers of [k] that still stand, and nothing else. *)
Lemma replace_render f (k : string) (R : list string) (ts : list Str.token) :
  Str.has_char ">" k = false ->
  (forall k', In (Str.Marker k') ts ->
     Str.has_char ">" k' = false /\ Str.has_char "<" k' = false /\
     Str.has_char "<" (f k') = false) ->
  stray_guarded ts = true ->
  Str.replace ("<FILE:" ++ k ++ ">") (f k) (render f R ts) = render f (k :: R) ts.
Proof.
  intros Hk. induction ts as [|t ts IH]; intros Hts Hg; [done|].
  assert (IH' : Str.replace ("<FILE:" ++ k ++ ">") (f k) (render f R ts)
                = render f (k :: R) ts).
  { apply IH.
    - intros k' H. apply Hts. by right.
    - destruct t as [c|k0]; [|done]. cbn [stray_guarded] in Hg.
      by apply andb_true_iff in Hg as [_ Hg]. }
  destruct t as [c|k'].
  - rewrite !render_cons_chr, replace_skip; [by rewrite IH'|].
    change ("<FILE:" ++ k ++ ">") with (String "<" (String "F" ("ILE:" ++ k ++ ">"))).
    cbn [stray_guarded] in Hg. apply andb_true_iff in Hg as [Hg _].
    cbn [Str.starts_with].
    destruct (Ascii.eqb_spec "<" c) as [<-|Hc]; [|done].
    cbn [andb]. destruct ts as [|[d|k0] ts]; [done| |done].
    rewrite render_cons_chr. cbn [Str.starts_with].
    rewrite Ascii.eqb_refl in Hg. apply negb_true_iff in Hg.
    rewrite (Ascii.eqb_sym "F" d). by rewrite Hg.
  - destruct (Hts k' ltac:(by left)) as (Hk'c & Hk'o & Hf).
    rewrite !render_cons_marker. cbn [existsb].
    destruct (String.eqb_spec k' k) as [->|Hne]; cbn [orb].
    + destruct (existsb (String.eqb k) R).
      * change ("<FILE:" ++ k ++ ">") with (String "<" ("FILE:" ++ k ++ ">")).
        rewrite (replace_plain "<" _ _ (f k) _ Hf).
        change (String "<" ("FILE:" ++ k ++ ">")) with ("<FILE:" ++ k ++ ">").
        by rewrite IH'.
      * rewrite replace_here by done. by rewrite IH'.
    + destruct (existsb (String.eqb k') R).
      * change ("<FILE:" ++ k ++ ">") with (String "<" ("FILE:" ++ k ++ ">")).
        rewrite (replace_plain "<" _ _ (f k') _ Hf).
        change (String "<" ("FILE:" ++ k ++ ">")) with ("<FILE:" ++ k ++ ">").
        by rewrite IH'.
      * change (("<FILE:" ++ k' ++ ">") ++ render f (k :: R) ts)
          with (String "<" (("FILE:" ++ k' ++ ">") ++ render f (k :: R) ts)).
        change (("<FILE:" ++ k' ++ ">") ++ render f R ts)
          with (String "<" (("FILE:" ++ k' ++ ">") ++ render f R ts)).
        rewrite replace_skip.
        2:{ change ("<FILE:" ++ k ++ ">") with ("<FILE:" ++ (k ++ ">")).
            change (String "<" (("FILE:" ++ k' ++ ">") ++ render f R ts))
              with ("<FILE:" ++ ((k' ++ ">") ++ render f R ts)).
            destruct (Str.starts_with _ _) eqn:E; [|done].
            exfalso. apply Hne. symmetry.
            cbn [String.append Str.starts_with] in E.
            rewrite !Ascii.eqb_refl in E. cbn [andb] in E.
            rewrite app_assoc in E.
            by apply (marker_prefix_same k k' (render f R ts)). }
        f_equal.
        change ("<FILE:" ++ k ++ ">") with (String "<" ("FILE:" ++ k ++ ">")).
        rewrite (replace_plain "<" _ _ ("FILE:" ++ k' ++ ">")).
        2:{ change ("FILE:" ++ k' ++ ">")
              with (String "F" (String "I" (String "L" (String "E" (String ":"
                      (k' ++ ">")))))).
            cbn [Str.has_char]. rewrite has_char_append, Hk'o. done. }
        change (String "<" ("FILE:" ++ k ++ ">")) with ("<FILE:" ++ k ++ ">").
        by rewrite IH'.
Qed.

Lemma existsb_rev_append (k : string) (keys R : list string) :
  existsb (String.eqb k) (rev_append keys R) =
  existsb (String.eqb k) keys || existsb (String.eqb k) R.
Proof.
  revert R. induction keys as [|a keys IH]; intros R; [done|].
  cbn [rev_append existsb]. rewrite IH. cbn [existsb].
  by destruct (String.eqb k a), (existsb (String.eqb k) keys).
Qed.

(** The loop: every key of the list is looked up and its markers replaced. *)
Lemma replace_file_markers_render use_shared get_file (ts : list Str.token) :
  (forall k, In (Str.Marker k) ts ->
     Str.has_char ">" k = false /\ Str.has_char "<" k = false /\
     Str.has_char "<" (uri_of use_shared get_file k) = false) ->
  stray_guarded ts = true ->
  forall (keys R : list string),
    (forall k, In k keys ->
       Str.has_char ">" k = false /\ exists gwfile, get_file k = Some gwfile) ->
    replace_file_markers use_shared get_file keys
      (render (uri_of use_shared get_file) R ts)
    = Ok (render (uri_of use_shared get_file) (rev_append keys R) ts).
Proof.
  intros Hts Hg keys. induction keys as [|k keys IH]; intros R Hkeys; [done|].
  destruct (Hkeys k ltac:(by left)) as (Hk & gwfile & Hget).
  cbn [replace_file_markers rev_append]. rewrite Hget.
  replace (file_uri use_shared gwfile) with (uri_of use_shared get_file k)
    by (unfold uri_of; by rewrite Hget).
  rewrite replace_render by done. apply IH.
  intros k' H. apply Hkeys. by right.
Qed.

(** After the loop every marker is replaced: the string is that of [re.sub]
    with the path of each file. *)
Lemma render_all f (R : list string) (ts : list Str.token) :
  (forall k, In (Str.Marker k) ts -> existsb (String.eqb k) R = true) ->
  render f R ts =
  String.concat ""
    (List.map (fun t => match t with
                        | Str.Marker k => f k
                        | Str.Chr c => String c EmptyString
                        end) ts).
Proof.
  induction ts as [|t ts IH]; intros H; [done|].
  cbn [List.map]. rewrite concat_cons, <- IH by (intros k Hk; apply H; by right).
  destruct t as [c|k].
  - by rewrite render_cons_chr.
  - rewrite render_cons_marker. by rewrite (H k) by (by left).
Qed.

Lemma existsb_in (k : string) (l : list string) :
  In k l -> existsb (String.eqb k) l = true.
Proof.
  induction l as [|a l IH]; [done|]. intros [->|H]; cbn [existsb].
  - by rewrite String.eqb_refl.
  - by rewrite IH, orb_true_r.
Qed.

(** Every file marker of the argument string gets the path of its file. *)
Lemma fill_every_marker use_shared get_file (arguments : string) :
  (forall file_key, In file_key (Str.findall "<FILE:" ">" arguments) ->
     Str.has_char "<" file_key = false /\
     exists gwfile, get_file file_key = Some gwfile /\
       Str.has_char "<" (file_uri use_shared gwfile) = false) ->
  stray_guarded (Str.tokens "<FILE:" ">" arguments) = true ->
  fill_file_markers use_shared get_file arguments
  = Ok (Str.sub "<FILE:" ">" (uri_of use_shared get_file) arguments).
Proof.
  intros Hkeys Hg. unfold fill_file_markers.
  rewrite <- (render_nil (uri_of use_shared get_file) arguments) at 2.
  rewrite replace_file_markers_render.
  - f_equal. unfold Str.sub. apply render_all.
    intros k Hk. rewrite existsb_rev_append. apply findall_keys in Hk.
    by rewrite existsb_in.
  - intros k Hk. destruct (tokens_keys _ _ Hk) as [_ Hc].
    destruct (Hkeys k (findall_keys _ _ _ _ Hk)) as (Ho & gwfile & Hget & Hu).
    split; [done|]. split; [done|]. unfold uri_of. by rewrite Hget.
  - done.
  - intros k Hk. destruct (Hkeys k Hk) as (_ & gwfile & Hget & _).
    split; [|by exists gwfile].
    by destruct (tokens_keys _ _ (keys_findall _ _ _ _ Hk)).
Qed.

(** After [re.sub] with paths without ["<"], no file marker is left. *)
Lemma no_marker_left f (ts : list Str.token) :
  (forall k, In (Str.Marker k) ts -> Str.has_char "<" (f k) = false) ->
  stray_guarded ts = true ->
  Str.findall "<FILE:" ">"
    (String.concat ""
       (List.map (fun t => match t with
                           | Str.Marker k => f k
                           | Str.Chr c => String c EmptyString
                           end) ts)) = [].
Proof.
  induction ts as [|t ts IH]; intros Hf Hg; [done|].
  assert (IH' := IH (fun k H => Hf k (or_intror H))).
  cbn [List.map]. rewrite concat_cons. destruct t as [c|k].
  - cbn [stray_guarded] in Hg. apply andb_true_iff in Hg as [Hc Hg].
    specialize (IH' Hg). change (String c "" ++ ?s) with (String c s).
    rewrite findall_chr; [done|].
    destruct (Ascii.eqb_spec c "<") as [->|Hne]; [|by apply match_marker_other].
    destruct ts as [|[d|k0] ts]; [done| |done].
    cbn [List.map]. rewrite concat_cons.
    change (String d "" ++ ?s) with (String d s).
    apply negb_true_iff in Hc. unfold Str.match_marker. cbn [Str.starts_with].
    rewrite (Ascii.eqb_sym "F" d), Hc. done.
  - rewrite (findall_plain "<" "FILE:" ">" (f k)) by (apply Hf; by left).
    by apply IH'.
Qed.

(** C6, as amended.  In the deferred materialization of a command, every
    file marker of the argument string is replaced by the path that
    [file_uri] chooses for its file, no file marker is left, and the later
    stages of [_fill_arguments] run on the result.  That path is the source
    location when the file is not transferred by the backend; else the
    source location on a shared filesystem when the file is job-shareable;
    else the base name of the source location, except for the file named
    butlerConfig on a shared filesystem, not job-shareable, whose source
    location does not end in .yaml: its path is butler.yaml.  The logical
    names and the paths are without ["<"], and a ["<"] of the argument
    string that opens no file marker is not followed by ["F"] nor by a file
    marker. *)
Theorem every_file_marker_replaced_by_policy
    (environ : gmap string string)
    (str_format : string -> gmap string pyval -> exn + string)
    (use_shared : bool) (get_file : string -> option GenericWorkflowFile)
    (arguments : string) (cmdvals : gmap string pyval) :
  (forall file_key, In file_key (Str.findall "<FILE:" ">" arguments) ->
     Str.has_char "<" file_key = false /\
     exists gwfile, get_file file_key = Some gwfile /\
       Str.has_char "<" (file_uri use_shared gwfile) = false) ->
  stray_guarded (Str.tokens "<FILE:" ">" arguments) = true ->
  fill_file_markers use_shared get_file arguments
  = Ok (Str.sub "<FILE:" ">" (uri_of use_shared get_file) arguments) /\
  Str.findall "<FILE:" ">"
    (Str.sub "<FILE:" ">" (uri_of use_shared get_file) arguments) = [] /\
  _fill_arguments environ str_format use_shared get_file arguments cmdvals
  = (let expanded :=
       Str.expandvars environ
         (Str.sub "<ENV:" ">" (fun k => "$" ++ k)
            (Str.sub "<FILE:" ">" (uri_of use_shared get_file) arguments)) in
     match str_format expanded cmdvals with
     | inr formatted => Ok formatted
     | inl e => Raise expanded e
     end) /\
  (forall file_key gwfile, get_file file_key = Some gwfile ->
     uri_of use_shared get_file file_key = file_uri use_shared gwfile) /\
  (forall gwfile,
     (wms_transfer gwfile = false -> file_uri use_shared gwfile = src_uri gwfile) /\
     (wms_transfer gwfile = true -> use_shared = true -> job_shared gwfile = true ->
        file_uri use_shared gwfile = src_uri gwfile) /\
     (wms_transfer gwfile = true -> use_shared = false ->
        file_uri use_shared gwfile = Str.basename (src_uri gwfile)) /\
     (wms_transfer gwfile = true -> use_shared = true -> job_shared gwfile = false ->
        gwfile_name gwfile <> "butlerConfig" \/
        Str.splitext_ext (src_uri gwfile) = ".yaml" ->
        file_uri use_shared gwfile = Str.basename (src_uri gwfile)) /\
     (wms_transfer gwfile = true -> use_shared = true -> job_shared gwfile = false ->
        gwfile_name gwfile = "butlerConfig" ->
        Str.splitext_ext (src_uri gwfile) <> ".yaml" ->
        file_uri use_shared gwfile = "butler.yaml")).
Proof.
  intros Hkeys Hg.
  pose proof (fill_every_marker use_shared get_file arguments Hkeys Hg) as Hfill.
  split; [done|]. split.
  { unfold Str.sub at 1. apply no_marker_left; [|done].
    intros k Hk. apply findall_keys in Hk.
    destruct (Hkeys k Hk) as (_ & gwfile & Hget & Hu).
    unfold uri_of. by rewrite Hget. }
  split.
  { unfold _fill_arguments. by rewrite Hfill. }
  split.
  { intros file_key gwfile Hget. unfold uri_of. by rewrite Hget. }
  intros gwfile. unfold file_uri. repeat split.
  - by intros ->.
  - by intros -> -> ->.
  - by intros -> ->.
  - intros -> -> -> [Hn|He]; simpl.
    + destruct (String.eqb_spec (gwfile_name gwfile) "butlerConfig"); done.
    + rewrite He. simpl. by rewrite andb_false_r.
  - intros -> -> -> -> He. simpl.
    by destruct (String.eqb_spec (Str.splitext_ext (src_uri gwfile)) ".yaml").
Qed.

(** The theorem at work: a command line with the markers of two files and
    a marker of the environment.  The run's graph file, which the backend
    does not transfer, stands by its source location, the execution butler
    by butler.yaml; the marker of the environment is left to the next
    stage. *)
Lemma every_file_marker_witness :
  fill_file_markers true example_files
    "--butler-config <FILE:butlerConfig> --qgraph <FILE:runQgraphFile> -o <ENV:HOME>/out"
  = Ok "--butler-config butler.yaml --qgraph /submit/run1/run1.qgraph -o <ENV:HOME>/out".
Proof.
  refine (eq_trans (proj1 (every_file_marker_replaced_by_policy
           ∅ (fun s _ => inr s) true example_files
           "--butler-config <FILE:butlerConfig> --qgraph <FILE:runQgraphFile> -o <ENV:HOME>/out"
           ∅ _ _)) _).
  - intros file_key Hk. vm_compute in Hk.
    destruct Hk as [<-|[<-|[]]].
    + split; [reflexivity|]. exists execution_butler. split; reflexivity.
    + split; [reflexivity|]. exists run_qgraph_file. split; reflexivity.
  - vm_compute. reflexivity.
  - vm_compute. reflexivity.
Defined.

End TemplaterFacts.

(** ** The value resolver *)

Module ResolverFacts.
Import Resolver.

Lemma probe_sections_app store req (l1 l2 : list string) key :
  probe_sections store req (l1 ++ l2)%list key =
  match probe_sections store req l1 key with
  | Some v => Some v
  | None => probe_sections store req l2 key
  end.
Proof.
  induction l1 as [|sect l1 IH]; simpl; [done|].
  destruct (lookup_key sect (sections store)) as [[v|entries]|]; try apply IH.
  destruct (probe_section req sect entries key); [done|apply IH].
Qed.

Lemma probe_section_absent store req sect entries key :
  absent_from_sections store key ->
  lookup_key sect (sections store) = Some (Sect entries) ->
  probe_section req sect entries key = None.
Proof.
  intros Habs Hs. destruct (Habs sect entries Hs) as [Hkey Hsub].
  unfold probe_section. rewrite Hkey.
  destruct (curvals req !! ("curr_" ++ sect)) as [[| | | |current]|]; try done.
  destruct (lookup_key current entries) as [[v|subentries]|] eqn:Hc; try done.
  by rewrite (Hsub current subentries Hc).
Qed.

Lemma probe_sections_absent store req order key :
  absent_from_sections store key -> probe_sections store req order key = None.
Proof.
  intros Habs. induction order as [|sect order IH]; simpl; [done|].
  destruct (lookup_key sect (sections store)) as [[v|entries]|] eqn:Hs; try done.
  by rewrite (probe_section_absent store req sect entries key Habs Hs).
Qed.

(** The request enters the probes by its current values only. *)
Lemma probe_sections_with_defer store req defer order key :
  probe_sections store (with_defer defer req) order key =
  probe_sections store req order key.
Proof.
  induction order as [|sect order IH]; simpl; [done|].
  destruct (lookup_key sect (sections store)) as [[v|entries]|]; try apply IH.
  change (probe_section (with_defer defer req) sect entries key)
    with (probe_section req sect entries key).
  destruct (probe_section req sect entries key); [done|apply IH].
Qed.

Lemma find_raw_with_defer store req defer key :
  find_raw store (with_defer defer req) key = find_raw store req key.
Proof.
  unfold find_raw. cbn [with_defer curvals searchobj search_order].
  by rewrite probe_sections_with_defer.
Qed.

(** The nested variables are resolved by what the lookup answers. *)
Lemma format_fuel_ext (r1 r2 : string -> exn + cfg) :
  (forall k, r1 k = r2 k) ->
  forall n s, format_fuel n r1 s = format_fuel n r2 s.
Proof.
  intros Hr n. induction n as [|n IH]; intros [|c s]; try done.
  cbn [format_fuel].
  destruct (Str.match_marker "${" "}" (String c s)) as [[name rest]|].
  { by rewrite IH. }
  destruct (Str.match_marker "{" "}" (String c s)) as [[field rest]|].
  - destruct (split_field field) as [name spec]. rewrite Hr.
    destruct (r2 name) as [e|v]; [done|].
    destruct (format_value v spec); [|done]. by rewrite IH.
  - destruct (Ascii.eqb c "{" || Ascii.eqb c "}"); [done|]. by rewrite IH.
Qed.

(** More fuel than the length of the text changes nothing. *)
Lemma format_fuel_enough (r : string -> exn + cfg) : forall n s,
  (String.length s <= n)%nat ->
  format_fuel n r s = format_fuel (String.length s) r s.
Proof.
  intros n. induction n as [n IH] using lt_wf_ind. intros s Hn.
  destruct s as [|c s]; [by destruct n|].
  destruct n as [|n]; [simpl in Hn; lia|].
  cbn [format_fuel String.length]. simpl in Hn.
  destruct (Str.match_marker "${" "}" (String c s)) as [[name rest]|] eqn:Hm.
  { apply StrFacts.match_marker_shorter in Hm. simpl in Hm.
    rewrite (IH n) by lia. by rewrite (IH (String.length s)) by lia. }
  destruct (Str.match_marker "{" "}" (String c s)) as [[field rest]|] eqn:Hf.
  - apply StrFacts.match_marker_shorter in Hf. simpl in Hf.
    destruct (split_field field) as [name spec].
    destruct (r name) as [e|v]; [done|].
    destruct (format_value v spec); [|done].
    rewrite (IH n) by lia. by rewrite (IH (String.length s)) by lia.
  - destruct (Ascii.eqb c "{" || Ascii.eqb c "}"); [done|].
    by rewrite (IH n) by lia.
Qed.

(** A text without braces has no nested variable: it is returned as it is. *)
Lemma format_plain (r : string -> exn + cfg) (s : string) :
  Str.has_char "{" s = false -> Str.has_char "}" s = false ->
  format_nested r s = inr s.
Proof.
  unfold format_nested. induction s as [|c s IH]; [done|]. intros Ho Hc.
  apply StrFacts.has_char_cons_false in Ho as [Hco Ho].
  apply StrFacts.has_char_cons_false in Hc as [Hcc Hc].
  cbn [format_fuel String.length].
  assert (Hm : Str.match_marker "${" "}" (String c s) = None).
  { unfold Str.match_marker. cbn [Str.starts_with].
    destruct (Ascii.eqb "$" c); [|done]. destruct s as [|d s]; [done|].
    apply StrFacts.has_char_cons_false in Ho as [Hd _].
    cbn [andb]. destruct (Ascii.eqb_spec "{" d); [congruence|done]. }
  rewrite Hm, (StrFacts.match_marker_other "{" "" "}" c s Hco).
  destruct (Ascii.eqb_spec c "{"); [done|].
  destruct (Ascii.eqb_spec c "}"); [done|].
  cbn [orb]. by rewrite IH.
Qed.

(** A text without dollar has no variable of the environment. *)
Lemma env_stage_plain store req (s : string) :
  Str.has_char "$" s = false -> env_stage store req s = s.
Proof.
  intros H. unfold env_stage, defer_env, Str.expandvars.
  destruct (expandEnvVars req);
    [by apply TemplaterFacts.expandvars_fuel_plain|].
  destruct (replaceEnvVars req); [|done].
  by apply (TemplaterFacts.sub_plain_id "$" "{").
Qed.

(** With expand-environment-now requested, the defer-environment toggle
    changes nothing, whatever the store, the request and the key. *)
Lemma expansion_wins_over_defer (defer : bool) (store : ConfigStore)
    (req : SearchRequest) :
  expandEnvVars req = true ->
  forall depth key,
    search depth store (with_defer defer req) key = search depth store req key.
Proof.
  intros Hexp depth. induction depth as [|depth IH]; intros key; [done|].
  cbn [search]. rewrite find_raw_with_defer.
  destruct (find_raw store req key) as [[v|entries]|]; [|done|done].
  destruct v; try done.
  unfold templated, env_stage.
  cbn [with_defer expandEnvVars replaceEnvVars replaceVars]. rewrite Hexp.
  destruct (replaceVars req); [|done].
  unfold format_nested.
  rewrite (format_fuel_ext
             (resolve_nested (search depth store (with_defer defer req)))
             (resolve_nested (search depth store req))); [done|].
  intros k. unfold resolve_nested. by rewrite IH.
Qed.

(** C5, as amended.  For the stored template ["${GARPLY}/waldo/{qux:03}"]
    with GARPLY=garply in the environment and qux=2 in the store, every
    combination of the three toggles gives the value that testVariables
    asserts; these are the six outputs of the specification.  When
    expand-environment-now and defer-environment are both requested the
    outcome is that of immediate expansion alone: for this template, and for
    every store, request and key. *)
Theorem template_pipeline_outputs (depth : nat) (expand defer vars : bool) :
  search (S (S depth)) test_config (toggles expand defer vars) "grault"
  = inr (true, Leaf (PStr (testVariables_expected expand defer vars))) /\
  search (S (S depth)) test_config (toggles true true vars) "grault"
  = search (S (S depth)) test_config (toggles true false vars) "grault" /\
  (forall (d : nat) (store : ConfigStore) (req : SearchRequest) (key : string),
     expandEnvVars req = true ->
     search d store (with_defer true req) key
     = search d store (with_defer false req) key) /\
  (testVariables_expected expand defer vars = "${GARPLY}/waldo/{qux:03}" \/
   testVariables_expected expand defer vars = "${GARPLY}/waldo/002" \/
   testVariables_expected expand defer vars = "<ENV:GARPLY>/waldo/{qux:03}" \/
   testVariables_expected expand defer vars = "<ENV:GARPLY>/waldo/002" \/
   testVariables_expected expand defer vars = "garply/waldo/{qux:03}" \/
   testVariables_expected expand defer vars = "garply/waldo/002").
Proof.
  split; [|split; [|split]].
  - destruct expand, defer, vars; vm_compute; reflexivity.
  - apply (expansion_wins_over_defer true test_config (toggles true false vars)
             eq_refl).
  - intros d store req key Hexp.
    rewrite (expansion_wins_over_defer true store req Hexp).
    by rewrite (expansion_wins_over_defer false store req Hexp).
  - destruct expand, defer, vars; simpl; auto 10.
Qed.

(** C5 as stated fails: with both environment toggles requested the value is
    the expanded one, not the deferred marker. *)
Lemma both_env_toggles_expand :
  search 2 test_config (toggles true true false) "grault"
  = inr (true, Leaf (PStr "garply/waldo/{qux:03}")) /\
  search 2 test_config (toggles false true false) "grault"
  = inr (true, Leaf (PStr "<ENV:GARPLY>/waldo/{qux:03}")) /\
  search 2 test_config (toggles true true false) "grault"
  <> search 2 test_config (toggles false true false) "grault".
Proof.
  split; [vm_compute; reflexivity|]. split; [vm_compute; reflexivity|].
  intros H. vm_compute in H. discriminate.
Qed.

(** C7.  When the first section of the search order that knows the key has
    a section-level value for it and also, under the subsection that the
    current value [curr_<section>] names, another value, the search finds
    the value of the subsection, whatever the section-level value: a value
    that is no text is returned as it is, a text goes through the template
    pipeline, which returns a text without dollar and braces as it is. *)
Theorem subsection_value_takes_precedence
    (depth : nat) (store : ConfigStore) (req : SearchRequest) (key : string)
    (before after : list string) (sect current : string)
    (entries subentries : list (string * cfg)) (section_value : cfg) (v : pyval) :
  curvals req !! key = None ->
  match searchobj req with Some obj => lookup_key key obj = None | None => True end ->
  search_order store = (before ++ sect :: after)%list ->
  probe_sections store req before key = None ->
  lookup_key sect (sections store) = Some (Sect entries) ->
  lookup_key key entries = Some section_value ->
  curvals req !! ("curr_" ++ sect) = Some (PStr current) ->
  lookup_key current entries = Some (Sect subentries) ->
  lookup_key key subentries = Some (Leaf v) ->
  find_raw store req key = Some (Leaf v) /\
  ((forall s, v <> PStr s) ->
     search (S depth) store req key = inr (true, Leaf v)) /\
  (forall s, v = PStr s ->
     search (S depth) store req key
     = templated (search depth store req) store req s) /\
  (forall s, v = PStr s ->
     Str.has_char "$" s = false -> Str.has_char "{" s = false ->
     Str.has_char "}" s = false ->
     search (S depth) store req key = inr (true, Leaf (PStr s))).
Proof.
  intros Hcur Hobj Horder Hbefore Hsect _ Hcurr Hsub Hkey.
  assert (Hraw : find_raw store req key = Some (Leaf v)).
  { unfold find_raw. rewrite Hcur.
    assert (Ho : match searchobj req with
                 | Some obj => lookup_key key obj
                 | None => None
                 end = None) by (by destruct (searchobj req)).
    rewrite Ho, Horder, probe_sections_app, Hbefore. simpl.
    rewrite Hsect. unfold probe_section. by rewrite Hcurr, Hsub, Hkey. }
  split; [done|]. split; [|split].
  - intros Hv. cbn [search]. rewrite Hraw. destruct v; try done.
    by destruct (Hv s).
  - intros s ->. cbn [search]. by rewrite Hraw.
  - intros s -> Hd Ho Hc. cbn [search]. rewrite Hraw.
    unfold templated. rewrite env_stage_plain by done.
    destruct (replaceVars req); [|done]. by rewrite format_plain.
Qed.

(** The theorem at work: testSubsectionSearch, and a setting with text
    values: the queue of the cluster's subsection, not the one of the
    site. *)
Lemma subsection_search_witness :
  search 1 test_config
    {| searchobj := None; curvals := {[ "curr_baz" := PStr "garply" ]};
       expandEnvVars := true; replaceEnvVars := false; replaceVars := true;
       default := None; required := false |} "qux"
  = inr (true, Leaf (PInt 3)) /\
  search 1 site_config cluster1_request "queue"
  = inr (true, Leaf (PStr "long")).
Proof.
  split.
  - refine (proj1 (proj2 (subsection_value_takes_precedence 0 test_config _ "qux"
           [] ["bar"; "foo"] "baz" "garply"
           [("qux", Leaf (PInt 2));
            ("garply", Sect [("qux", Leaf (PInt 3))]);
            ("grault", Leaf (PStr "${GARPLY}/waldo/{qux:03}"))]
           [("qux", Leaf (PInt 3))] (Leaf (PInt 2)) (PInt 3)
           _ _ _ _ _ _ _ _ _)) _);
      solve [reflexivity | exact I | discriminate].
  - refine (proj2 (proj2 (proj2 (subsection_value_takes_precedence 0 site_config
           cluster1_request "queue" [] [] "site" "cluster1"
           [("queue", Leaf (PStr "general"));
            ("cluster1", Sect [("queue", Leaf (PStr "long"))]);
            ("options", Leaf (PStr "-q {queue}"))]
           [("queue", Leaf (PStr "long"))] (Leaf (PStr "general")) (PStr "long")
           _ _ _ _ _ _ _ _ _))) "long" eq_refl eq_refl eq_refl eq_refl);
      solve [reflexivity | exact I].
Defined.

(** C8.  For a key that the request does not supply and that is in no
    section of the store: a required search without default raises
    [KeyError]; a search with a default returns found = True and the
    default. *)
Theorem missing_key_required_or_default
    (depth : nat) (store : ConfigStore) (req : SearchRequest) (key : string) :
  curvals req !! key = None ->
  match searchobj req with Some obj => lookup_key key obj = None | None => True end ->
  absent_from_sections store key ->
  (default req = None -> required req = true ->
     search (S depth) store req key = inl (KeyError key)) /\
  (forall d, default req = Some d ->
     search (S depth) store req key = inr (true, Leaf d)).
Proof.
  intros Hcur Hobj Habs.
  assert (Hraw : find_raw store req key = None).
  { unfold find_raw. rewrite Hcur.
    assert (Ho : match searchobj req with
                 | Some obj => lookup_key key obj
                 | None => None
                 end = None) by (by destruct (searchobj req)).
    rewrite Ho. by apply probe_sections_absent. }
  split.
  - intros Hd Hr. simpl. by rewrite Hraw, Hd, Hr.
  - intros d Hd. simpl. by rewrite Hraw, Hd.
Qed.

Lemma test_config_absent (key : string) :
  key <> "qux" -> key <> "garply" -> key <> "grault" ->
  absent_from_sections test_config key.
Proof.
  intros H1 H2 H3 sect entries.
  assert (Hq : String.eqb "qux" key = false)
    by (by destruct (String.eqb_spec "qux" key)).
  assert (Hg : String.eqb "garply" key = false)
    by (by destruct (String.eqb_spec "garply" key)).
  assert (Hr : String.eqb "grault" key = false)
    by (by destruct (String.eqb_spec "grault" key)).
  cbn -[String.eqb].
  destruct (String.eqb "foo" sect).
  { intros [= <-]. cbn -[String.eqb]. rewrite Hq. split; [done|].
    intros sub subentries. cbn -[String.eqb]. by destruct (String.eqb "qux" sub). }
  destruct (String.eqb "baz" sect); [|done].
  intros [= <-]. cbn -[String.eqb]. rewrite Hq, Hg, Hr.
  split; [done|]. intros sub subentries. cbn -[String.eqb].
  destruct (String.eqb "qux" sub); [done|].
  destruct (String.eqb "garply" sub).
  - intros [= <-]. cbn -[String.eqb]. by rewrite Hq.
  - by destruct (String.eqb "grault" sub).
Qed.

(** The theorem at work: testRequired and testDefault. *)
Lemma missing_key_witness :
  search 1 test_config
    {| searchobj := None; curvals := ∅;
       expandEnvVars := true; replaceEnvVars := false; replaceVars := true;
       default := None; required := true |} "fred"
  = inl (KeyError "fred") /\
  search 1 test_config
    {| searchobj := None; curvals := ∅;
       expandEnvVars := true; replaceEnvVars := false; replaceVars := true;
       default := Some (PInt 4); required := false |} "plugh"
  = inr (true, Leaf (PInt 4)).
Proof.
  split.
  - apply (missing_key_required_or_default 0 test_config _ "fred");
      try solve [reflexivity | exact I].
    apply test_config_absent; discriminate.
  - apply (missing_key_required_or_default 0 test_config _ "plugh");
      try solve [reflexivity | exact I].
    apply test_config_absent; discriminate.
Defined.

End ResolverFacts.

(** ** The generic workflow and its final job *)

Module WorkflowFacts.
Import Workflow.

Lemma out_degree_zero w n :
  out_degree w n = 0%nat <-> forall b, ~ In (n, b) (gw_edges w).
Proof.
  unfold out_degree. induction (gw_edges w) as [|[a c] l IH]; simpl.
  - split; [intros _ b []|done].
  - destruct (String.eqb_spec a n) as [->|Hne]; simpl.
    + split; [done|]. intros H. destruct (H c). by left.
    + rewrite IH. split.
      * intros H b [[= -> ->]|Hin]; [done|by apply (H b)].
      * intros H b Hin. apply (H b). by right.
Qed.

Lemma in_degree_zero w n :
  in_degree w n = 0%nat <-> forall a, ~ In (a, n) (gw_edges w).
Proof.
  unfold in_degree. induction (gw_edges w) as [|[a c] l IH]; simpl.
  - split; [intros _ b []|done].
  - destruct (String.eqb_spec c n) as [->|Hne]; simpl.
    + split; [done|]. intros H. destruct (H a). by left.
    + rewrite IH. split.
      * intros H b [[= -> ->]|Hin]; [done|by apply (H b)].
      * intros H b Hin. apply (H b). by right.
Qed.

Lemma has_edge_true w a b : has_edge w a b = true <-> In (a, b) (gw_edges w).
Proof.
  unfold has_edge. rewrite existsb_exists. split.
  - intros ([x y] & Hin & Hxy). simpl in Hxy.
    apply andb_true_iff in Hxy as [Hx Hy].
    apply String.eqb_eq in Hx, Hy. by subst.
  - intros Hin. exists (a, b). split; [done|]. simpl.
    by rewrite !String.eqb_refl.
Qed.

Lemma add_edge_edges w a b x y :
  In (x, y) (gw_edges (add_edge w a b)) <->
  In (x, y) (gw_edges w) \/ (x = a /\ y = b).
Proof.
  unfold add_edge. destruct (has_edge w a b) eqn:He.
  - apply has_edge_true in He. split; [by left|].
    intros [H|[-> ->]]; done.
  - simpl. rewrite in_app_iff. simpl. split.
    + intros [H|[[= -> ->]|[]]]; [by left|by right].
    + intros [H|[-> ->]]; [by left|right; by left].
Qed.

Lemma add_edge_frame w a b :
  gw_nodes (add_edge w a b) = gw_nodes w /\
  gw_final (add_edge w a b) = gw_final w /\
  gw_jobs (add_edge w a b) = gw_jobs w.
Proof. unfold add_edge. by destruct (has_edge w a b). Qed.

Lemma add_job_relationships_edges parents child : forall w x y,
  In (x, y) (gw_edges (add_job_relationships w parents child)) <->
  In (x, y) (gw_edges w) \/ (In x parents /\ y = child).
Proof.
  induction parents as [|p parents IH]; intros w x y; simpl.
  - split; [by left|]. by intros [H|[[] _]].
  - rewrite IH, add_edge_edges. split.
    + intros [[H|[-> ->]]|[H ->]]; [by left|right|right]; split; auto.
    + intros [H|[[->|H] ->]]; [left; by left|left; by right|by right].
Qed.

Lemma add_job_relationships_frame parents child : forall w,
  gw_nodes (add_job_relationships w parents child) = gw_nodes w /\
  gw_final (add_job_relationships w parents child) = gw_final w.
Proof.
  induction parents as [|p parents IH]; intros w; simpl; [done|].
  destruct (IH (add_edge w p child)) as [-> ->].
  by destruct (add_edge_frame w p child) as (-> & -> & _).
Qed.

Lemma add_job_fresh w gwjob :
  ~ In (job_name gwjob) (gw_nodes w) ->
  add_job w gwjob =
  Ok {| gw_nodes := gw_nodes w ++ [job_name gwjob];
        gw_jobs := <[job_name gwjob := gwjob]> (gw_jobs w);
        gw_edges := gw_edges w;
        gw_final := gw_final w;
        gw_files := gw_files w; gw_inputs := gw_inputs w |}.
Proof.
  intros Hfresh. unfold add_job.
  destruct (existsb _ _) eqn:He; [|done].
  apply existsb_exists in He as (n & Hin & Hn).
  apply String.eqb_eq in Hn. by subst.
Qed.

(** The final job as a sink: an in-edge from every node without out-edges,
    from no other node, and no out-edge. *)
Lemma add_final_job_as_sink_spec w gwjob :
  well_formed w -> ~ In (job_name gwjob) (gw_nodes w) ->
  exists w', add_final_job_as_sink w gwjob = Ok w' /\
    gw_nodes w' = (gw_nodes w ++ [job_name gwjob])%list /\
    gw_final w' = gw_final w /\
    (forall n, In n (gw_nodes w) -> out_degree w n = 0%nat ->
               In (n, job_name gwjob) (gw_edges w')) /\
    (forall n, In (n, job_name gwjob) (gw_edges w') ->
               In n (gw_nodes w) /\ out_degree w n = 0%nat) /\
    out_degree w' (job_name gwjob) = 0%nat /\
    (forall a b, In (a, b) (gw_edges w) -> In (a, b) (gw_edges w')).
Proof.
  intros Hwf Hfresh. unfold add_final_job_as_sink.
  rewrite add_job_fresh by done.
  set (sinks := List.filter _ _).
  set (w0 := {| gw_nodes := _ |}).
  assert (Hsinks : forall n, In n sinks <->
            In n (gw_nodes w) /\ out_degree w n = 0%nat).
  { intros n. unfold sinks. rewrite filter_In. by rewrite Nat.eqb_eq. }
  exists (add_job_relationships w0 sinks (job_name gwjob)).
  destruct (add_job_relationships_frame sinks (job_name gwjob) w0) as [Hn Hf].
  split; [done|]. split; [by rewrite Hn|]. split; [by rewrite Hf|].
  split; [|split; [|split]].
  - intros n Hin Hdeg. apply add_job_relationships_edges. right.
    split; [|done]. by apply Hsinks.
  - intros n Hin. apply add_job_relationships_edges in Hin as [Hin|[Hin _]].
    + destruct (Hwf _ _ Hin) as [_ Hb]. done.
    + by apply Hsinks.
  - apply out_degree_zero. intros b Hin.
    apply add_job_relationships_edges in Hin as [Hin|[Hin _]].
    + destruct (Hwf _ _ Hin) as [Ha _]. done.
    + apply Hsinks in Hin as [Hin _]. done.
  - intros a b Hin. apply add_job_relationships_edges. by left.
Qed.

Section FinalJobFacts.
Variable Config : Type.
Variable config_contains : Config -> string -> bool.
Variable config_getitem : Config -> string -> pyval.
Variable config_search : Config -> string -> bool * pyval.
Variable creator :
  string -> create_cmd -> Config -> GenericWorkflow -> string ->
  GenericWorkflow * (exn + GenericWorkflowJob).

(** A dispatcher entry is configured to run: its key is in the
    configuration with a value other than "NEVER". *)
Definition configured (config : Config) (name : string) : bool :=
  config_contains config name
  && negb (Py.eq (config_getitem config name) (PStr "NEVER")).

(** C4.  When [_add_final_job] has built the final job [gwjob] (the
    workflow then being [w1], well formed and without a job of that name):
    with whenRun SUCCESS the job becomes a node with an in-edge from every
    node of [w1] that has no out-edge, from these only, and with no
    out-edge; with whenRun ALWAYS it becomes the designated final job,
    nodes and edges stay as they are, and no edge touches it. *)
Theorem final_job_sink_or_unconditional
    (config : Config) (w w1 : GenericWorkflow) (prefix text : string)
    (gwjob : GenericWorkflowJob) :
  snd (config_search config ".finalJob.whenRun") = PStr text ->
  creator "finalJob" _create_final_command config w prefix = (w1, inr gwjob) ->
  well_formed w1 -> ~ In (job_name gwjob) (gw_nodes w1) ->
  (Str.upper text = "SUCCESS" ->
     exists w', _add_final_job Config config_search creator config w prefix = Ok w' /\
       gw_nodes w' = (gw_nodes w1 ++ [job_name gwjob])%list /\
       (forall n, In n (gw_nodes w1) -> out_degree w1 n = 0%nat ->
                  In (n, job_name gwjob) (gw_edges w')) /\
       (forall n, In (n, job_name gwjob) (gw_edges w') ->
                  In n (gw_nodes w1) /\ out_degree w1 n = 0%nat) /\
       out_degree w' (job_name gwjob) = 0%nat /\
       (forall a b, In (a, b) (gw_edges w1) -> In (a, b) (gw_edges w')) /\
       gw_final w' = gw_final w1) /\
  (Str.upper text = "ALWAYS" ->
     exists w', _add_final_job Config config_search creator config w prefix = Ok w' /\
       gw_final w' = Some gwjob /\
       gw_nodes w' = gw_nodes w1 /\ gw_edges w' = gw_edges w1 /\
       out_degree w' (job_name gwjob) = 0%nat /\
       in_degree w' (job_name gwjob) = 0%nat).
Proof.
  intros Hsearch Hcreate Hwf Hfresh. split.
  - intros Hup. unfold _add_final_job. rewrite Hsearch. simpl.
    rewrite Hup. simpl. rewrite Hcreate.
    destruct (add_final_job_as_sink_spec w1 gwjob Hwf Hfresh)
      as (w' & Hr & Hn & Hf & Hin & Honly & Hout & Hkeep).
    exists w'. repeat split; try done; by apply Honly.
  - intros Hup. unfold _add_final_job. rewrite Hsearch. simpl.
    rewrite Hup. simpl. rewrite Hcreate.
    exists (add_final w1 gwjob). repeat split.
    + apply out_degree_zero. simpl. intros b Hin.
      by destruct (Hwf _ _ Hin) as [Ha _].
    + apply in_degree_zero. simpl. intros a Hin.
      by destruct (Hwf _ _ Hin) as [_ Hb].
Qed.

Lemma add_final_job_as_sink_attaches w gwjob :
  ~ In (job_name gwjob) (gw_nodes w) ->
  exists w', add_final_job_as_sink w gwjob = Ok w' /\ attached_one w w' gwjob.
Proof.
  intros Hfresh. unfold add_final_job_as_sink. rewrite add_job_fresh by done.
  eexists. split; [done|]. right.
  by destruct (add_job_relationships_frame
                 (List.filter (fun n => Nat.eqb (out_degree w n) 0) (gw_nodes w))
                 (job_name gwjob)
                 {| gw_nodes := gw_nodes w ++ [job_name gwjob];
                    gw_jobs := <[job_name gwjob := gwjob]> (gw_jobs w);
                    gw_edges := gw_edges w; gw_final := gw_final w;
                    gw_files := gw_files w; gw_inputs := gw_inputs w |})
    as [-> ->].
Qed.

(** C3, as amended.  [add_final_job] goes through two policies in a fixed
    order, the explicit final job first and the merge of the execution
    butler second, and runs the first whose key is in the configuration with
    a value other than "NEVER"; when there is none it raises RuntimeError
    ("Final job specification not found").  The explicit final job attaches
    exactly one job when whenRun is ALWAYS or SUCCESS (in any case of the
    letters); the merge policy attaches exactly one job when whenMerge is
    ALWAYS or SUCCESS, and none, leaving the workflow as it is, when
    whenMerge is NEVER. *)
Theorem final_job_dispatch
    (config : Config) (w : GenericWorkflow) (prefix : string) :
  (configured config ".finalJob.whenRun" = true ->
     add_final_job Config config_contains config_getitem config_search creator
       config w prefix
     = _add_final_job Config config_search creator config w prefix) /\
  (configured config ".finalJob.whenRun" = false ->
   configured config ".executionButler.whenCreate" = true ->
     add_final_job Config config_contains config_getitem config_search creator
       config w prefix
     = _add_merge_job Config config_search creator config w prefix) /\
  (configured config ".finalJob.whenRun" = false ->
   configured config ".executionButler.whenCreate" = false ->
     add_final_job Config config_contains config_getitem config_search creator
       config w prefix
     = Raise w (RuntimeError "Final job specification not found")) /\
  (forall text w1 gwjob,
     snd (config_search config ".finalJob.whenRun") = PStr text ->
     Str.upper text = "ALWAYS" \/ Str.upper text = "SUCCESS" ->
     creator "finalJob" _create_final_command config w prefix = (w1, inr gwjob) ->
     ~ In (job_name gwjob) (gw_nodes w1) ->
     exists w', _add_final_job Config config_search creator config w prefix = Ok w' /\
                attached_one w1 w' gwjob) /\
  (forall created merged w1 gwjob,
     snd (config_search config ".executionButler.whenCreate") = PStr created ->
     Str.upper created <> "NEVER" ->
     snd (config_search config ".executionButler.whenMerge") = PStr merged ->
     Str.upper merged = "ALWAYS" \/ Str.upper merged = "SUCCESS" ->
     creator "executionButler" _create_merge_command config w prefix
       = (w1, inr gwjob) ->
     ~ In (job_name gwjob) (gw_nodes w1) ->
     exists w', _add_merge_job Config config_search creator config w prefix = Ok w' /\
                attached_one w1 w' gwjob) /\
  (forall created merged,
     snd (config_search config ".executionButler.whenCreate") = PStr created ->
     snd (config_search config ".executionButler.whenMerge") = PStr merged ->
     Str.upper merged = "NEVER" ->
     _add_merge_job Config config_search creator config w prefix = Ok w).
Proof.
  unfold configured, add_final_job. simpl.
  split; [|split; [|split; [|split; [|split]]]].
  - by intros ->.
  - by intros -> ->.
  - by intros -> ->.
  - intros text w1 gwjob Hs Hup Hc Hfresh. unfold _add_final_job.
    rewrite Hs. simpl.
    destruct Hup as [Hup|Hup]; rewrite Hup; simpl; rewrite Hc.
    + exists (add_final w1 gwjob). split; [done|]. by left.
    + by apply add_final_job_as_sink_attaches.
  - intros created merged w1 gwjob Hc Hcn Hm Hup Hcr Hfresh.
    unfold _add_merge_job. rewrite Hc, Hm. simpl.
    destruct (String.eqb_spec (Str.upper created) "NEVER"); [done|]. simpl.
    destruct Hup as [Hup|Hup]; rewrite Hup; simpl; rewrite Hcr.
    + exists (add_final w1 gwjob). split; [done|]. by left.
    + by apply add_final_job_as_sink_attaches.
  - intros created merged Hc Hm Hup. unfold _add_merge_job.
    rewrite Hc, Hm. simpl. rewrite Hup. simpl.
    by destruct (negb _).
Qed.

End FinalJobFacts.

(** The theorem for C4 at work: in the workflow of three jobs, [a] before
    [b] and [c], the final job gets its in-edges from [b] and [c]. *)
Lemma final_job_sink_witness :
  exists w',
    _add_final_job (gmap string pyval) flat_search plain_creator
      {[ ".finalJob.whenRun" := PStr "success" ]} example_workflow "/submit" = Ok w' /\
    gw_nodes w' = ["a"; "b"; "c"; "finalJob"] /\
    (forall n, In n (gw_nodes example_workflow) ->
               out_degree example_workflow n = 0%nat ->
               In (n, "finalJob") (gw_edges w')) /\
    (forall n, In (n, "finalJob") (gw_edges w') ->
               In n (gw_nodes example_workflow) /\
               out_degree example_workflow n = 0%nat) /\
    out_degree w' "finalJob" = 0%nat /\
    (forall a b, In (a, b) (gw_edges example_workflow) -> In (a, b) (gw_edges w')) /\
    gw_final w' = None.
Proof.
  refine (proj1 (final_job_sink_or_unconditional (gmap string pyval) flat_search
            plain_creator {[ ".finalJob.whenRun" := PStr "success" ]}
            example_workflow example_workflow "/submit" "success"
            (new_job "finalJob" "finalJob") _ _ _ _) _);
    try reflexivity.
  - intros a b Hin. simpl in Hin.
    destruct Hin as [[= <- <-]|[[= <- <-]|[]]]; simpl; auto.
  - simpl. intros [H|[H|[H|[]]]]; discriminate.
Defined.

(** The theorem for C3 at work: no policy in the configuration. *)
Lemma final_job_dispatch_witness :
  add_final_job (gmap string pyval) flat_contains flat_getitem flat_search
    plain_creator ∅ example_workflow "/submit"
  = Raise example_workflow (RuntimeError "Final job specification not found").
Proof.
  apply (proj1 (proj2 (proj2 (final_job_dispatch (gmap string pyval) flat_contains
           flat_getitem flat_search plain_creator ∅ example_workflow "/submit"))));
    reflexivity.
Defined.

(** C3 as stated fails: a policy can be selected and attach no job.  With
    [executionButler.whenCreate: SUBMIT] and [executionButler.whenMerge:
    NEVER] the merge policy is the first configured one, and
    [add_final_job] returns without error and without a final job. *)
Lemma merge_policy_selected_attaches_nothing :
  configured (gmap string pyval) flat_contains flat_getitem
    {[ ".executionButler.whenCreate" := PStr "SUBMIT";
       ".executionButler.whenMerge" := PStr "NEVER" ]}
    ".executionButler.whenCreate" = true /\
  add_final_job (gmap string pyval) flat_contains flat_getitem flat_search
    plain_creator
    {[ ".executionButler.whenCreate" := PStr "SUBMIT";
       ".executionButler.whenMerge" := PStr "NEVER" ]}
    example_workflow "/submit"
  = Ok example_workflow /\
  gw_final example_workflow = None /\
  gw_nodes example_workflow = ["a"; "b"; "c"].
Proof. repeat split; vm_compute; reflexivity. Qed.

Lemma out_degree_positive w n :
  out_degree w n <> 0%nat -> exists b, In (n, b) (gw_edges w).
Proof.
  unfold out_degree. induction (gw_edges w) as [|[a c] l IH]; simpl; [done|].
  destruct (String.eqb_spec a n) as [->|Hne]; simpl.
  - intros _. exists c. by left.
  - intros H. destruct (IH H) as [b Hb]. exists b. by right.
Qed.

(** X8. [add_final_job_as_sink], on a workflow whose edges join its jobs and
    that has no job of the final job's name, returns a workflow of the same
    kind in which the final job is the one sink: it has no out-edge and every
    other job has one; the edges are those of the workflow and the edges from
    its former sinks to the final job, so that an empty workflow gets the
    final job and no edge. *)
Theorem final_job_is_the_single_sink
    (generic_workflow : GenericWorkflow) (final_job : GenericWorkflowJob) :
  well_formed generic_workflow ->
  ~ In (job_name final_job) (gw_nodes generic_workflow) ->
  exists w',
    add_final_job_as_sink generic_workflow final_job = Ok w' /\
    well_formed w' /\
    (forall n, In n (gw_nodes w') ->
       (out_degree w' n = 0%nat <-> n = job_name final_job)) /\
    (forall a b, In (a, b) (gw_edges w') <->
       In (a, b) (gw_edges generic_workflow) \/
       (In a (gw_nodes generic_workflow) /\
        out_degree generic_workflow a = 0%nat /\ b = job_name final_job)) /\
    (gw_nodes generic_workflow = [] ->
       gw_nodes w' = [job_name final_job] /\ gw_edges w' = []).
Proof.
  intros Hwf Hfresh. unfold add_final_job_as_sink.
  rewrite add_job_fresh by done.
  set (sinks := List.filter _ _).
  set (w0 := {| gw_nodes := _ |}).
  assert (Hsinks : forall n, In n sinks <->
            In n (gw_nodes generic_workflow) /\
            out_degree generic_workflow n = 0%nat).
  { intros n. unfold sinks. rewrite filter_In. by rewrite Nat.eqb_eq. }
  set (w' := add_job_relationships w0 sinks (job_name final_job)).
  destruct (add_job_relationships_frame sinks (job_name final_job) w0) as [Hn _].
  fold w' in Hn. simpl in Hn.
  assert (Hedges : forall a b, In (a, b) (gw_edges w') <->
            In (a, b) (gw_edges generic_workflow) \/
            (In a (gw_nodes generic_workflow) /\
             out_degree generic_workflow a = 0%nat /\ b = job_name final_job)).
  { intros a b. unfold w'. rewrite add_job_relationships_edges, Hsinks. simpl.
    tauto. }
  exists w'. split; [done|]. split; [|split; [|split; [done|]]].
  - intros a b Hin. rewrite Hn, !in_app_iff. simpl.
    apply Hedges in Hin as [Hin|(Ha & _ & ->)].
    + destruct (Hwf a b Hin). tauto.
    + tauto.
  - intros n Hin. rewrite Hn, in_app_iff in Hin. simpl in Hin. split.
    + intros Hdeg. destruct Hin as [Hin|[<-|[]]]; [|done]. exfalso.
      assert (Hno : forall b, ~ In (n, b) (gw_edges w'))
        by (by apply out_degree_zero).
      destruct (Nat.eq_dec (out_degree generic_workflow n) 0%nat) as [Hz|Hnz].
      * apply (Hno (job_name final_job)). apply Hedges. right. done.
      * destruct (out_degree_positive _ _ Hnz) as [b Hb].
        apply (Hno b). apply Hedges. by left.
    + intros ->. apply out_degree_zero. intros b Hb.
      apply Hedges in Hb as [Hb|(Ha & _ & _)]; [|done].
      destruct (Hwf _ _ Hb) as [Ha _]. done.
  - intros Hempty. rewrite Hn, Hempty. split; [done|].
    destruct (gw_edges w') as [|[a b] l] eqn:He; [done|]. exfalso.
    destruct (proj1 (Hedges a b) ltac:(by left)) as [Hin|(Ha & _)].
    + destruct (Hwf _ _ Hin) as [Ha _]. by rewrite Hempty in Ha.
    + by rewrite Hempty in Ha.
Qed.

(** The theorem at work on the workflow of three jobs, [a] before [b] and
    [c]: [b] and [c] get their edge to the final job. *)
Lemma final_job_single_sink_witness :
  exists w',
    add_final_job_as_sink example_workflow (new_job "finalJob" "finalJob") = Ok w' /\
    well_formed w' /\
    (forall n, In n (gw_nodes w') -> (out_degree w' n = 0%nat <-> n = "finalJob")) /\
    In ("b", "finalJob") (gw_edges w') /\ In ("c", "finalJob") (gw_edges w').
Proof.
  destruct (final_job_is_the_single_sink example_workflow (new_job "finalJob" "finalJob"))
    as (w' & Hrun & Hwf & Hsink & Hedges & _).
  - intros a b Hin. simpl in Hin.
    destruct Hin as [[= <- <-]|[[= <- <-]|[]]]; simpl; auto.
  - simpl. intros [H|[H|[H|[]]]]; discriminate.
  - exists w'. split; [exact Hrun|]. split; [exact Hwf|]. split; [exact Hsink|].
    split; apply Hedges; right; (split; [simpl; tauto|split; reflexivity]).
Defined.

End WorkflowFacts.

(** ** The initialization jobs of the legacy core *)

Module LegacyCoreFacts.
Import LegacyCore StrFacts.

Lemma node_of_upsert_ne m name update l :
  m <> name -> node_of m (upsert name update l) = node_of m l.
Proof.
  intros Hne. induction l as [|[n a] l IH]; simpl.
  - destruct (String.eqb_spec name m); [congruence|done].
  - destruct (String.eqb_spec n name) as [->|Hn]; simpl.
    + destruct (String.eqb_spec name m); [congruence|done].
    + destruct (String.eqb_spec n m); [done|apply IH].
Qed.

Lemma node_of_upsert_id m name l a :
  node_of m l = Some a -> node_of m (upsert name (fun x => x) l) = Some a.
Proof.
  induction l as [|[n b] l IH]; simpl; [done|].
  destruct (String.eqb_spec n name) as [->|Hn]; simpl.
  - by destruct (String.eqb_spec name m).
  - destruct (String.eqb_spec n m); [done|apply IH].
Qed.

Lemma digraph_add_edge_edges g u v e :
  In e (edges (add_edge g u v)) <-> In e (edges g) \/ e = (u, v).
Proof.
  unfold add_edge. destruct (has_edge _ u v) eqn:He; simpl.
  - split; [by left|]. intros [H | ->]; [done|].
    unfold has_edge in He. simpl in He.
    apply existsb_exists in He as ([x y] & Hin & Hxy). simpl in Hxy.
    apply andb_true_iff in Hxy as [Hx Hy].
    apply String.eqb_eq in Hx, Hy. by subst.
  - rewrite in_app_iff. simpl. split.
    + intros [H | [<- | []]]; auto.
    + intros [H | ->]; auto.
Qed.

Lemma add_edge_keeps_node g u v m a :
  node_of m (nodes g) = Some a ->
  node_of m (nodes (add_edge g u v)) = Some a.
Proof.
  intros H. unfold add_edge.
  assert (H' : node_of m (nodes (add_node (add_node g u (fun x => x)) v (fun x => x)))
               = Some a).
  { simpl. by apply node_of_upsert_id, node_of_upsert_id. }
  by destruct (has_edge _ u v).
Qed.

Lemma add_node_keeps_node g name update m a :
  m <> name -> node_of m (nodes g) = Some a ->
  node_of m (nodes (add_node g name update)) = Some a.
Proof. intros Hne H. simpl. by rewrite node_of_upsert_ne. Qed.

Lemma task_nodes_app (p r : list (string * node_attrs)) :
  task_nodes (p ++ r) = (task_nodes p ++ task_nodes r)%list.
Proof.
  induction p as [|[n a] p IH]; simpl; [done|].
  destruct (node_type a) as [ty|]; [|done].
  destruct (task_abbrev a) as [abbrev|]; [|done].
  destruct (ty =? TASKNODE); [simpl; by rewrite IH|done].
Qed.

Lemma first_unit_app label (units rest : list (string * string)) :
  first_unit label (units ++ rest) =
  match first_unit label units with
  | Some n => Some n
  | None => first_unit label rest
  end.
Proof.
  induction units as [|[n a] units IH]; simpl; [done|].
  by destruct (String.eqb a label).
Qed.

Lemma node_of_in name a (l : list (string * node_attrs)) :
  NoDup (List.map fst l) -> In (name, a) l -> node_of name l = Some a.
Proof.
  induction l as [|[n b] l IH]; simpl; [done|].
  intros Hnd [[= -> ->]|Hin].
  - by rewrite String.eqb_refl.
  - apply NoDup_cons in Hnd as [Hn Hnd].
    destruct (String.eqb_spec n name) as [->|_]; [|by apply IH].
    exfalso. apply Hn. apply list_elem_of_In. apply in_map_iff.
    by exists (name, a).
Qed.

(** The chain of [_link_init_nodes]: every label of the pipeline after the
    first gets an edge from the file of the label before it. *)
Lemma link_from_spec inits : forall rest prev g,
  (forall x, In x (prev :: rest) -> is_Some (inits !! x)) ->
  exists g', link_from inits prev rest g = Ok g' /\
    (forall e, In e (edges g) -> In e (edges g')) /\
    (forall i p c, (prev :: rest) !! i = Some p -> (prev :: rest) !! S i = Some c ->
       exists ip ic, inits !! p = Some ip /\ inits !! c = Some ic /\
         In (init_file ip, init_task ic) (edges g')).
Proof.
  induction rest as [|abbrev rest IH]; intros prev g Hall.
  - exists g. split; [done|]. split; [done|]. intros i p c _ Hc.
    by destruct i.
  - simpl.
    destruct (Hall abbrev) as [ic Hic]; [right; by left|].
    destruct (Hall prev) as [ip Hip]; [by left|].
    rewrite Hic, Hip.
    destruct (IH abbrev (add_edge g (init_file ip) (init_task ic)))
      as (g' & Hr & Hmono & Hchain).
    { intros x Hx. apply Hall. by right. }
    exists g'. split; [done|]. split.
    + intros e He. apply Hmono. apply digraph_add_edge_edges. by left.
    + intros i p c Hp Hc. destruct i as [|i].
      * simpl in Hp, Hc. injection Hp as <-. injection Hc as <-.
        exists ip, ic. split; [done|]. split; [done|].
        apply Hmono. apply digraph_add_edge_edges. by right.
      * apply (Hchain i p c); done.
Qed.


Lemma of_Z_head (z : Z) :
  exists c s, Str.of_Z z = String c s /\ (Resolver.is_digit c = true \/ c = "-"%char).
Proof.
  unfold Str.of_Z. destruct (Z.to_int z) as [d|d]; simpl.
  - destruct d; simpl; eexists _, _; (split; [reflexivity|left; reflexivity]).
  - destruct d; simpl; eexists _, _; (split; [reflexivity|right; reflexivity]).
Qed.

Lemma fmt6_head (k : nat) :
  exists c s, Str.fmt6 k = String c s /\ (Resolver.is_digit c = true \/ c = "-"%char).
Proof.
  unfold Str.fmt6. cbv zeta.
  destruct (of_Z_head (Z.of_nat k)) as (c & s & -> & Hc).
  destruct (6 - _)%nat; simpl.
  - by exists c, s.
  - eexists _, _. split; [reflexivity|by left].
Qed.

Lemma fmt6_not_qgraph k : Str.starts_with "qgraph_" (Str.fmt6 k) = false.
Proof.
  destruct (fmt6_head k) as (c & s & -> & [Hc | ->]); [|done].
  cbn [Str.starts_with]. destruct (Ascii.eqb_spec "q" c) as [<-|]; [|reflexivity].
  vm_compute in Hc. discriminate.
Qed.

Lemma fmt6_not_init k : Str.starts_with "init_" (Str.fmt6 k) = false.
Proof.
  destruct (fmt6_head k) as (c & s & -> & [Hc | ->]); [|done].
  cbn [Str.starts_with]. destruct (Ascii.eqb_spec "i" c) as [<-|]; [|reflexivity].
  vm_compute in Hc. discriminate.
Qed.

Lemma prefixed_ne (p m x : string) :
  Str.starts_with p m = false -> m <> p ++ x.
Proof. intros H ->. by rewrite starts_with_app in H. Qed.

Lemma prefixed_ne_sym (p m x : string) :
  Str.starts_with p m = false -> p ++ x <> m.
Proof. intros H Heq. by apply (prefixed_ne p m x). Qed.

Lemma init_ne_qgraph (a b : string) : "init_" ++ a <> "qgraph_" ++ b.
Proof. simpl. intros [=]. Qed.

Lemma init_inj (a b : string) : "init_" ++ a = "init_" ++ b -> a = b.
Proof. simpl. by intros [=]. Qed.

Lemma qgraph_inj (a b : string) : "qgraph_" ++ a = "qgraph_" ++ b -> a = b.
Proof. simpl. by intros [=]. Qed.

Lemma node_of_upsert_eq name update l :
  exists a, node_of name (upsert name update l) = Some (update a).
Proof.
  induction l as [|[n b] l IH]; simpl.
  - exists no_attrs. by rewrite String.eqb_refl.
  - destruct (String.eqb_spec n name) as [->|Hne]; simpl.
    + exists b. by rewrite String.eqb_refl.
    + destruct (String.eqb_spec n name); [done|]. apply IH.
Qed.

Lemma node_of_member name a (l : list (string * node_attrs)) :
  node_of name l = Some a -> In name (List.map fst l).
Proof.
  induction l as [|[n c] l IH]; simpl; [done|].
  destruct (String.eqb_spec n name); [by left|right; by apply IH].
Qed.

Section Loop.
Variable save_qg_subgraph : string -> string -> option exn.
Variable _update_task : string -> string -> option exn.
Variable submit_path : string.
Hypothesis save_ok : forall a b, save_qg_subgraph a b = None.
Hypothesis update_ok : forall a b, _update_task a b = None.
Variable g0 : DiGraph.
Hypothesis names_nodup : NoDup (List.map fst (nodes g0)).
Hypothesis g0_typed : typed g0.
Hypothesis g0_fresh : fresh_names g0.
Hypothesis g0_closed : closed g0.

Lemma original_not_init m label :
  In m (List.map fst (nodes g0)) -> m <> "init_" ++ label.
Proof. intros Hm. destruct (g0_fresh m Hm) as (_ & Hi & _). by apply prefixed_ne. Qed.

Lemma loop_inv_start :
  loop_inv g0 []
    {| graph := g0; ncnt := length (nodes g0); qcnt := 0; taskcnts := ∅;
       init_nodes := ∅; fnode_name := None |}.
Proof.
  constructor; cbn [graph ncnt taskcnts init_nodes fnode_name]; try done.
  - intros l. rewrite lookup_empty. by simpl.
  - intros u l He. exfalso. by apply (original_not_init _ l (g0_closed _ _ He)).
  - simpl. lia.
  - intros l. by rewrite lookup_empty.
  - intros l. simpl. by intros [? ?].
Qed.

Lemma visit_node_inv processed name a rest st :
  nodes g0 = (processed ++ (name, a) :: rest)%list ->
  loop_inv g0 processed st ->
  exists st',
    visit_node true save_qg_subgraph _update_task submit_path name st = Ok st' /\
    loop_inv g0 (processed ++ [(name, a)])%list st'.
Proof.
  intros Hsplit Hinv.
  assert (Hin : In (name, a) (nodes g0)).
  { rewrite Hsplit. apply in_app_iff. right. by left. }
  assert (Hnode0 : node_of name (nodes g0) = Some a) by (by apply node_of_in).
  assert (Hname : ~ In name (List.map fst processed)).
  { intros Hp. rewrite Hsplit, map_app in names_nodup.
    apply NoDup_app in names_nodup as (_ & Hdisj & _).
    apply (Hdisj name); [by apply list_elem_of_In|]. simpl. left. }
  assert (Hnode : node_of name (nodes (graph st)) = Some a)
    by (by apply (inv_keep _ _ _ Hinv)).
  assert (Hmem : In name (List.map fst (nodes g0))) by (by eapply node_of_member).
  assert (Hlen : (S (length processed) <= length (nodes g0))%nat).
  { rewrite Hsplit, List.length_app. simpl. lia. }
  assert (Hothers : forall m b, node_of m (nodes g0) = Some b ->
            ~ In m (List.map fst (processed ++ [(name, a)])%list) ->
            m <> name /\ node_of m (nodes (graph st)) = Some b /\
            In m (List.map fst (nodes g0))).
  { intros m b Hm Hnot. rewrite map_app, in_app_iff in Hnot. simpl in Hnot.
    split; [intros ->; tauto|]. split; [apply (inv_keep _ _ _ Hinv); tauto|].
    by eapply node_of_member. }
  pose proof (inv_count_lo _ _ _ Hinv) as Hlo.
  pose proof (inv_count_hi _ _ _ Hinv) as Hhi.
  unfold visit_node. rewrite Hnode.
  destruct (g0_typed name a Hin) as [Hty|[Hty [label Hlabel]]]; rewrite Hty.
  - (* a file *)
    simpl. eexists. split; [done|].
    assert (Htn : task_nodes (processed ++ [(name, a)]) = task_nodes processed).
    { rewrite task_nodes_app. simpl. rewrite Hty.
      destruct (task_abbrev a); simpl; by rewrite app_nil_r. }
    constructor; cbn [graph ncnt taskcnts init_nodes fnode_name with_graph]; rewrite ?Htn; try apply Hinv.
    + intros m b Hm Hnot. destruct (Hothers m b Hm Hnot) as (Hne & Hk & _).
      by apply add_node_keeps_node.
    + intros l ini Hl.
      destruct (inv_init _ _ _ Hinv l ini Hl) as (Ht & Hk & (at' & Hat & Hat') & Hu).
      split; [done|]. split; [done|]. split; [|done].
      exists at'. split; [|done]. apply add_node_keeps_node; [|done].
      intros Heq. by apply (original_not_init name l).
    + rewrite List.length_app. simpl. lia.
  - (* a task *)
    change (TASKNODE =? FILENODE)%Z with false. change (TASKNODE =? TASKNODE)%Z with true.
    cbv iota. rewrite Hlabel. cbv zeta. rewrite save_ok, update_ok.
    assert (Htn : task_nodes (processed ++ [(name, a)]) =
                  (task_nodes processed ++ [(name, label)])%list).
    { rewrite task_nodes_app. simpl. by rewrite Hty, Hlabel. }
    assert (Hfirst : forall l, first_unit l (task_nodes (processed ++ [(name, a)])) =
              match first_unit l (task_nodes processed) with
              | Some n => Some n
              | None => if String.eqb label l then Some name else None
              end).
    { intros l. by rewrite Htn, first_unit_app. }
    assert (Hfresh : forall m, In m (List.map fst (nodes g0)) ->
              m <> "qgraph_" ++ name /\ m <> "init_" ++ label /\
              m <> Str.fmt6 (S (S (S (ncnt st))))).
    { intros m Hm. destruct (g0_fresh m Hm) as (Hq & Hi & Hk).
      split; [by apply prefixed_ne|]. split; [by apply prefixed_ne|].
      apply Hk. lia. }
    destruct (init_nodes st !! label) as [ini|] eqn:Hini.
    + (* the label has its init node *)
      destruct (inv_fnode _ _ _ Hinv label) as [fnode Hf]; [by rewrite Hini|].
      rewrite Hf. eexists. split; [done|].
      assert (Hknown : is_Some (first_unit label (task_nodes processed))).
      { apply (inv_dom _ _ _ Hinv). by rewrite Hini. }
      constructor; cbn [graph ncnt taskcnts init_nodes fnode_name with_graph].
      * intros m b Hm Hnot. destruct (Hothers m b Hm Hnot) as (Hne & Hk & Hm').
        destruct (Hfresh m Hm') as (Hq & _).
        apply add_edge_keeps_node, add_edge_keeps_node.
        by apply add_node_keeps_node.
      * intros l. rewrite Hfirst, (inv_dom _ _ _ Hinv l).
        destruct (first_unit l (task_nodes processed)) eqn:Hl; [done|].
        destruct (String.eqb_spec label l) as [->|_]; [|done].
        rewrite Hl in Hknown. by destruct Hknown.
      * intros l ini' Hl.
        destruct (inv_init _ _ _ Hinv l ini' Hl)
          as (Ht & Hk & (at' & Hat & Hat') & n & Hn & He).
        split; [done|]. split; [done|]. split.
        -- exists at'. split; [|done].
           apply add_edge_keeps_node, add_edge_keeps_node.
           apply add_node_keeps_node; [apply init_ne_qgraph|done].
        -- exists n. rewrite Hfirst, Hn. split; [done|].
           apply digraph_add_edge_edges. left. apply digraph_add_edge_edges. by left.
      * intros u l He. rewrite Hfirst.
        apply digraph_add_edge_edges in He as [He|[= _ He]];
          [|exfalso; by apply (original_not_init name l)].
        apply digraph_add_edge_edges in He as [He|[= _ He]];
          [|exfalso; by apply (original_not_init name l)].
        cbn [edges add_node] in He. by rewrite (inv_only _ _ _ Hinv u l He).
      * lia.
      * rewrite List.length_app. simpl. lia.
      * intros l _. by eexists.
      * intros l. rewrite Hfirst.
        destruct (String.eqb_spec label l) as [->|Hne].
        -- intros _. by rewrite lookup_insert_eq.
        -- rewrite lookup_insert_ne by done.
           destruct (first_unit l (task_nodes processed)) eqn:Hl.
           ++ intros _. apply (inv_counts _ _ _ Hinv). by rewrite Hl.
           ++ by intros [? ?].
    + (* the first unit of the label *)
      rewrite update_ok. eexists. split; [done|].
      assert (Hnew : first_unit label (task_nodes processed) = None).
      { destruct (first_unit label (task_nodes processed)) eqn:Hl; [|done].
        assert (Hs : is_Some (init_nodes st !! label)).
        { apply (inv_dom _ _ _ Hinv). by rewrite Hl. }
        rewrite Hini in Hs. by destruct Hs. }
      constructor; cbn [graph ncnt taskcnts init_nodes fnode_name with_graph].
      * intros m b Hm Hnot. destruct (Hothers m b Hm Hnot) as (Hne & Hk & Hm').
        destruct (Hfresh m Hm') as (Hq & Hi & Hfn).
        do 3 apply add_edge_keeps_node.
        apply add_node_keeps_node; [done|]. apply add_node_keeps_node; [done|].
        apply add_edge_keeps_node. by apply add_node_keeps_node.
      * intros l. rewrite Hfirst.
        destruct (String.eqb_spec label l) as [->|Hne].
        -- rewrite lookup_insert_eq, Hnew. split; intros _; by eexists.
        -- rewrite lookup_insert_ne by done. rewrite (inv_dom _ _ _ Hinv l).
           by destruct (first_unit l (task_nodes processed)).
      * intros l ini'. rewrite Hfirst.
        destruct (String.eqb_spec label l) as [->|Hne].
        -- rewrite lookup_insert_eq, Hnew. intros [= <-]. cbn [init_task init_file].
           split; [done|]. split; [by eexists|]. split.
           ++ edestruct (node_of_upsert_eq ("init_" ++ l)) as [old Hold].
              eexists. split.
              ** do 3 apply add_edge_keeps_node.
                 apply add_node_keeps_node;
                   [apply prefixed_ne_sym, fmt6_not_init|]. apply Hold.
              ** done.
           ++ exists name. split; [done|].
              apply digraph_add_edge_edges. left. apply digraph_add_edge_edges. by right.
        -- rewrite lookup_insert_ne by done. intros Hl.
           destruct (inv_init _ _ _ Hinv l ini' Hl)
             as (Ht & Hk & (at' & Hat & Hat') & n & Hn & He).
           split; [done|]. split; [done|]. split.
           ++ exists at'. split; [|done].
              do 3 apply add_edge_keeps_node.
              apply add_node_keeps_node; [apply prefixed_ne_sym, fmt6_not_init|].
              apply add_node_keeps_node; [intros Heq; by apply init_inj in Heq|].
              apply add_edge_keeps_node.
              apply add_node_keeps_node; [apply init_ne_qgraph|done].
           ++ exists n. rewrite Hn. split; [done|].
              do 4 (apply digraph_add_edge_edges; left). done.
      * intros u l He. rewrite Hfirst.
        apply digraph_add_edge_edges in He as [He|[= _ He]];
          [|exfalso; by apply (original_not_init name l)].
        apply digraph_add_edge_edges in He as [He|[= Hu Hl]].
        2:{ subst u l.
            by rewrite Hnew, String.eqb_refl. }
        apply digraph_add_edge_edges in He as [He|[=]].
        cbn [edges add_node] in He.
        apply digraph_add_edge_edges in He as [He|[= _ He]];
          [|exfalso; by apply (original_not_init name l)].
        cbn [edges add_node] in He. by rewrite (inv_only _ _ _ Hinv u l He).
      * lia.
      * rewrite List.length_app. simpl. lia.
      * intros l _. by eexists.
      * intros l. rewrite Hfirst.
        destruct (String.eqb_spec label l) as [->|Hne].
        -- intros _. by rewrite lookup_insert_eq.
        -- rewrite !lookup_insert_ne by done.
           destruct (first_unit l (task_nodes processed)) eqn:Hl.
           ++ intros _. apply (inv_counts _ _ _ Hinv). by rewrite Hl.
           ++ by intros [? ?].
Qed.

Lemma loop_inv_run : forall rest processed st,
  nodes g0 = (processed ++ rest)%list ->
  loop_inv g0 processed st ->
  exists st',
    for_each (visit_node true save_qg_subgraph _update_task submit_path)
      (List.map fst rest) st = Ok st' /\
    loop_inv g0 (nodes g0) st'.
Proof.
  induction rest as [|[name a] rest IH]; intros processed st Hsplit Hinv.
  - exists st. split; [done|]. by rewrite Hsplit, app_nil_r.
  - destruct (visit_node_inv processed name a rest st Hsplit Hinv) as (st1 & Hv & Hinv1).
    simpl. rewrite Hv. apply (IH (processed ++ [(name, a)])%list); [|done].
    by rewrite <- List.app_assoc.
Qed.

End Loop.

Lemma link_from_frame inits : forall rest prev g g',
  link_from inits prev rest g = Ok g' ->
  (forall m a, node_of m (nodes g) = Some a -> node_of m (nodes g') = Some a) /\
  (forall e, In e (edges g') ->
     In e (edges g) \/
     exists p ip c ic, inits !! p = Some ip /\ inits !! c = Some ic /\
       e = (init_file ip, init_task ic)).
Proof.
  induction rest as [|abbrev rest IH]; intros prev g g'; simpl.
  - intros [= <-]. split; [done|]. intros e He. by left.
  - destruct (inits !! abbrev) as [ic|] eqn:Hic; [|done].
    destruct (inits !! prev) as [ip|] eqn:Hip; [|done].
    intros Hr. destruct (IH _ _ _ Hr) as [Hn He]. split.
    + intros m a Hm. by apply Hn, add_edge_keeps_node.
    + intros e Hin. destruct (He e Hin) as [Hin'|Hnew]; [|by right].
      apply digraph_add_edge_edges in Hin' as [Hin'| ->]; [by left|].
      right. by exists prev, ip, abbrev, ic.
Qed.

Lemma run_summary_total (counts : gmap string nat) : forall pipeline,
  (forall x, In x pipeline -> is_Some (counts !! Str.strip x)) ->
  exists l, run_summary pipeline counts = inr l.
Proof.
  induction pipeline as [|x pipeline IH]; intros Hall; simpl; [by eexists|].
  destruct (Hall x) as [n ->]; [by left|].
  destruct IH as [l ->]; [|by eexists].
  intros y Hy. apply Hall. by right.
Qed.

Section Graph.
Variable save_qg_subgraph : string -> string -> option exn.
Variable _update_task : string -> string -> option exn.
Variable submit_path : string.
Variable pipeline : list string.
Variable g0 : DiGraph.
Hypothesis save_ok : forall a b, save_qg_subgraph a b = None.
Hypothesis update_ok : forall a b, _update_task a b = None.
Hypothesis names_nodup : NoDup (List.map fst (nodes g0)).
Hypothesis g0_typed : typed g0.
Hypothesis g0_fresh : fresh_names g0.
Hypothesis g0_closed : closed g0.
Hypothesis labels_have_units : forall x, In x pipeline ->
  is_Some (first_unit (Str.strip x) (task_nodes (nodes g0))).

Lemma legacy_init_nodes :
  exists st,
    _create_workflow_graph true save_qg_subgraph _update_task submit_path
      pipeline g0 = Ok st /\
    (forall label,
       is_Some (init_nodes st !! label) <->
       is_Some (first_unit label (task_nodes (nodes g0)))) /\
    (forall label ini, init_nodes st !! label = Some ini ->
       init_task ini = "init_" ++ label /\
       (exists attrs, node_of (init_task ini) (nodes (graph st)) = Some attrs /\
          node_type attrs = Some TASKNODE /\ task_abbrev attrs = Some label) /\
       exists unit, first_unit label (task_nodes (nodes g0)) = Some unit /\
         forall u, In ("qgraph_" ++ u, init_task ini) (edges (graph st)) <->
                   u = unit) /\
    (forall i p c,
       List.map Str.strip pipeline !! i = Some p ->
       List.map Str.strip pipeline !! S i = Some c ->
       exists ip ic, init_nodes st !! p = Some ip /\ init_nodes st !! c = Some ic /\
         In (init_file ip, init_task ic) (edges (graph st))).
Proof.
  destruct (loop_inv_run save_qg_subgraph _update_task submit_path save_ok update_ok
              g0 names_nodup g0_typed g0_fresh (nodes g0) [] _ eq_refl
              (loop_inv_start g0 g0_fresh g0_closed))
    as (st & Hloop & Hinv).
  assert (Hinits : forall x, In x (List.map Str.strip pipeline) ->
            is_Some (init_nodes st !! x)).
  { intros x Hx. apply in_map_iff in Hx as (y & <- & Hy).
    apply (inv_dom _ _ _ Hinv). by apply labels_have_units. }
  assert (Hlink : exists g',
            _link_init_nodes pipeline (init_nodes st) (graph st) = Ok g' /\
            (forall e, In e (edges (graph st)) -> In e (edges g')) /\
            (forall m a, node_of m (nodes (graph st)) = Some a ->
                         node_of m (nodes g') = Some a) /\
            (forall e, In e (edges g') ->
               In e (edges (graph st)) \/
               exists p ip c ic, init_nodes st !! p = Some ip /\
                 init_nodes st !! c = Some ic /\ e = (init_file ip, init_task ic)) /\
            (forall i p c,
               List.map Str.strip pipeline !! i = Some p ->
               List.map Str.strip pipeline !! S i = Some c ->
               exists ip ic, init_nodes st !! p = Some ip /\
                 init_nodes st !! c = Some ic /\
                 In (init_file ip, init_task ic) (edges g'))).
  { unfold _link_init_nodes.
    destruct (List.map Str.strip pipeline) as [|first rest] eqn:Hp.
    - exists (graph st). split; [done|]. split; [done|]. split; [done|].
      split; [by left|]. by intros [|i].
    - destruct (link_from_spec (init_nodes st) rest first (graph st) Hinits)
        as (g' & Hr & Hmono & Hchain).
      exists g'. split; [done|]. split; [done|].
      destruct (link_from_frame _ _ _ _ _ Hr) as [Hn He]. done. }
  destruct Hlink as (g' & Hlink & Hmono & Hnodes & Hedges & Hchain).
  destruct (run_summary_total (taskcnts st) pipeline) as [summary Hsum].
  { intros x Hx. apply (inv_counts _ _ _ Hinv). by apply labels_have_units. }
  exists (with_graph st g'). split.
  { unfold _create_workflow_graph. cbv zeta. rewrite Hloop, Hlink. by rewrite Hsum. }
  cbn [graph init_nodes with_graph]. split; [apply Hinv|]. split; [|done].
  intros label ini Hini.
  destruct (inv_init _ _ _ Hinv label ini Hini)
    as (Ht & Hk & (attrs & Hat & Hat') & unit & Hu & He).
  split; [done|]. rewrite Ht. split.
  { exists attrs. split; [by apply Hnodes|done]. }
  exists unit. split; [done|]. intros u. split.
  - intros Hin. destruct (Hedges _ Hin) as [Hold|(p & ip & c & ic & Hp & Hc & Heq)].
    + apply (inv_only _ _ _ Hinv) in Hold. congruence.
    + exfalso. injection Heq as Hq _.
      destruct (inv_init _ _ _ Hinv p ip Hp) as (_ & [k Hk'] & _).
      rewrite Hk' in Hq. symmetry in Hq.
      exact (prefixed_ne "qgraph_" (Str.fmt6 k) u (fmt6_not_qgraph k) Hq).
  - intros ->. by apply Hmono.
Qed.

End Graph.

Lemma has_char_app c (a b : string) :
  Str.has_char c (a ++ b) = Str.has_char c a || Str.has_char c b.
Proof. induction a as [|x a IH]; simpl; [done|]. by rewrite IH, orb_assoc. Qed.

Lemma has_char_drop c : forall n s,
  Str.has_char c s = false -> Str.has_char c (Str.drop n s) = false.
Proof.
  induction n as [|n IH]; intros [|x s] H; simpl; try done.
  apply has_char_cons_false in H as [_ H]. by apply IH.
Qed.

(** [replace] brings no character that neither the text nor the new text
    has. *)
Lemma replace_fuel_keeps_absent c old new : forall n s,
  Str.has_char c new = false -> Str.has_char c s = false ->
  Str.has_char c (Str.replace_fuel n old new s) = false.
Proof.
  induction n as [|n IH]; intros s Hnew Hs; [done|].
  destruct s as [|x s]; [done|]. cbn [Str.replace_fuel].
  destruct (Str.starts_with old (String x s)).
  - rewrite has_char_app, Hnew. simpl. apply IH; [done|]. by apply has_char_drop.
  - apply has_char_cons_false in Hs as [Hx Hs]. cbn [Str.has_char].
    rewrite IH by done. by destruct (Ascii.eqb_spec x c).
Qed.

Lemma replace_keeps_absent c old new s :
  Str.has_char c new = false -> Str.has_char c s = false ->
  Str.has_char c (Str.replace old new s) = false.
Proof.
  intros Hnew Hs. unfold Str.replace. destruct old; [done|].
  by apply replace_fuel_keeps_absent.
Qed.

(** [replace] of a character leaves none of it. *)
Lemma replace_fuel_char_gone c new : forall s n,
  Str.has_char c new = false -> (String.length s <= n)%nat ->
  Str.has_char c (Str.replace_fuel n (String c EmptyString) new s) = false.
Proof.
  induction s as [|x s IH]; intros n Hnew Hn; [by destruct n|].
  destruct n as [|n]; [simpl in Hn; lia|]. simpl in Hn.
  cbn [Str.replace_fuel Str.starts_with String.length Str.drop].
  destruct (Ascii.eqb_spec c x) as [->|Hne]; cbn [andb].
  - rewrite has_char_app, Hnew. simpl. apply IH; [done|lia].
  - cbn [Str.has_char]. rewrite IH by (done || lia).
    by destruct (Ascii.eqb_spec x c).
Qed.

Lemma replace_char_gone c new s :
  Str.has_char c new = false ->
  Str.has_char c (Str.replace (String c EmptyString) new s) = false.
Proof. intros H. unfold Str.replace. by apply replace_fuel_char_gone. Qed.

Lemma drop_braces_keeps_absent c s :
  Str.has_char c s = false -> Str.has_char c (drop_braces s) = false.
Proof.
  induction s as [|x s IH]; [done|]. intros H.
  apply has_char_cons_false in H as [Hx H]. cbn [drop_braces].
  destruct (_ || _); [by apply IH|]. cbn [Str.has_char].
  rewrite IH by done. by destruct (Ascii.eqb_spec x c).
Qed.

Lemma drop_braces_gone s :
  Str.has_char "{" (drop_braces s) = false /\
  Str.has_char "}" (drop_braces s) = false.
Proof.
  induction s as [|x s [IH1 IH2]]; [done|]. cbn [drop_braces].
  destruct (Ascii.eqb_spec x "{"); [done|].
  destruct (Ascii.eqb_spec x "}"); [done|].
  cbn [orb Str.has_char]. rewrite IH1, IH2.
  destruct (Ascii.eqb_spec x "{"); [done|].
  by destruct (Ascii.eqb_spec x "}").
Qed.

Lemma drop_braces_plain s :
  Str.has_char "{" s = false -> Str.has_char "}" s = false -> drop_braces s = s.
Proof.
  induction s as [|x s IH]; [done|]. intros H1 H2.
  apply has_char_cons_false in H1 as [Hx1 H1].
  apply has_char_cons_false in H2 as [Hx2 H2]. cbn [drop_braces].
  destruct (Ascii.eqb_spec x "{"); [done|].
  destruct (Ascii.eqb_spec x "}"); [done|]. cbn [orb]. by rewrite IH.
Qed.

(** X14. The label that [pretty_dataset_label] makes of a data set name has
    no plus sign, comma or brace, and a name that has none of these and no
    colon is its own label. *)
Theorem pretty_dataset_label_has_no_separators (orig_name : string) :
  Str.has_char "+" (pretty_dataset_label orig_name) = false /\
  Str.has_char "," (pretty_dataset_label orig_name) = false /\
  Str.has_char "{" (pretty_dataset_label orig_name) = false /\
  Str.has_char "}" (pretty_dataset_label orig_name) = false /\
  (Str.has_char ":" orig_name = false -> Str.has_char "+" orig_name = false ->
   Str.has_char "," orig_name = false -> Str.has_char "{" orig_name = false ->
   Str.has_char "}" orig_name = false ->
   pretty_dataset_label orig_name = orig_name).
Proof.
  unfold pretty_dataset_label. cbv zeta.
  split; [|split; [|split; [|split]]].
  - apply drop_braces_keeps_absent, replace_keeps_absent; [done|].
    by apply replace_char_gone.
  - apply drop_braces_keeps_absent. by apply replace_char_gone.
  - apply drop_braces_gone.
  - apply drop_braces_gone.
  - intros Hc Hp Hm Ho Hcl.
    rewrite (replace_plain_id ":" " " "=" orig_name Hc).
    rewrite (replace_plain_id "+" EmptyString newline orig_name Hp).
    rewrite (replace_plain_id "," EmptyString newline orig_name Hm).
    by apply drop_braces_plain.
Qed.

Lemma pretty_dataset_label_witness :
  pretty_dataset_label "raw+{instrument: HSC, visit: 903334}"
    = "raw" ++ newline ++ "instrument=HSC" ++ newline ++ " visit=903334" /\
  pretty_dataset_label "calexp" = "calexp".
Proof.
  split; [vm_compute; reflexivity|].
  apply (proj2 (proj2 (proj2 (proj2
           (pretty_dataset_label_has_no_separators "calexp"))))); reflexivity.
Defined.

End LegacyCoreFacts.

(** ** The initialization jobs of the two assemblers *)

Module InitFacts.
Import LegacyCore StrFacts LegacyCoreFacts Workflow Init.


Lemma pick_node_ids_first : forall tasks : list (string * list string),
  (forall t, In t tasks -> snd t <> []) ->
  exists ids, pick_node_ids tasks = inr ids /\
    List.map Some ids = List.map (fun t => head (snd t)) tasks.
Proof.
  induction tasks as [|[label units] tasks IH]; intros Hall; simpl.
  - by exists [].
  - destruct units as [|node units]; [by destruct (Hall (label, [])); [left|]|].
    destruct IH as (ids & -> & Hids); [intros t Ht; apply Hall; by right|].
    exists (node :: ids). split; [done|]. simpl. by rewrite Hids.
Qed.

Lemma create_init_workflow_one_job (Config : Type)
    (job_values_of : Config -> gmap string pyval)
    (butler_gwfile_of : Config -> exn + Templater.GenericWorkflowFile)
    (_enhance_command :
       Config -> GenericWorkflow -> GenericWorkflowJob -> exn + GenericWorkflowJob)
    (order_universal order_max order_sum : list string)
    (config : Config) (qgraph : QuantumGraph)
    (qgraph_gwfile butler_gwfile : Templater.GenericWorkflowFile)
    (fields1 : gmap string pyval) :
  Aggregator._handle_job_values
    (<["label" := PStr "pipetaskInit"]>
       (<["name" := PStr "pipetaskInit"]> (job_values_of config)))
    (fields (new_job "pipetaskInit" "pipetaskInit"))
    order_universal order_max order_sum = Ok fields1 ->
  (forall t, In t (pipeline_tasks qgraph) -> snd t <> []) ->
  butler_gwfile_of config = inr butler_gwfile ->
  (forall w j, exists j', _enhance_command config w j = inr j') ->
  exists w ids gwjob1 w2 gwjob2,
    create_init_workflow Config job_values_of butler_gwfile_of _enhance_command
      order_universal order_max order_sum config qgraph qgraph_gwfile = inr w /\
    gw_nodes w = [job_name gwjob1] /\
    cmdvals gwjob1 !! "qgraphNodeId" = Some (PStr (String.concat "," (sorted ids))) /\
    List.map Some ids = List.map (fun t => head (snd t)) (pipeline_tasks qgraph) /\
    _enhance_command config w2 gwjob1 = inr gwjob2 /\
    gw_jobs w !! job_name gwjob1 = Some gwjob2.
Proof.
  intros Hvalues Hunits Hbutler Henh.
  destruct (pick_node_ids_first _ Hunits) as (ids & Hpick & Hids).
  unfold create_init_workflow. cbv zeta. rewrite Hvalues, Hpick.
  unfold add_job. cbn [gw_nodes add_file empty_workflow existsb].
  rewrite Hbutler.
  match goal with
  | |- context [_enhance_command config ?w2 ?j1] =>
      destruct (Henh w2 j1) as [j2 Hj2]; rewrite Hj2;
      exists (update_job w2 (job_name j1) j2), ids, j1, w2, j2
  end.
  split; [done|]. split; [done|].
  split; [cbn [cmdvals]; by rewrite lookup_insert_eq|].
  split; [done|]. split; [done|]. cbn [gw_jobs update_job]. by rewrite lookup_insert_eq.
Qed.

(** C9, amended.  The two assemblers differ.  [create_init_workflow] of the
    transform engine, when the job values merge, every task has a unit, the
    butler file is found and the command enhancement succeeds, returns a
    workflow of ONE job, whatever the number of task labels; the job handed
    to the enhancement carries in [qgraphNodeId] the sorted node ids of one
    unit per task label, the first that the graph yields for the label, and
    the stored job is the enhanced one.  [_create_workflow_graph] of the
    legacy core, with [runInit] set, on a science graph with distinct node
    names, typed nodes, edges between its nodes and none of the generated
    names, when saving and updating never fail and every label of the
    pipeline has a unit, returns a graph with one init task per distinct task
    label: the task node [init_<label>], whose only quantum file is the one
    of the first unit of the label; and for consecutive labels of the
    pipeline there is an edge from the file of the first label's init node
    to the init task of the next. *)
Theorem init_job_single_and_init_nodes_per_label
    (Config : Type)
    (job_values_of : Config -> gmap string pyval)
    (butler_gwfile_of : Config -> exn + Templater.GenericWorkflowFile)
    (_enhance_command :
       Config -> GenericWorkflow -> GenericWorkflowJob -> exn + GenericWorkflowJob)
    (order_universal order_max order_sum : list string)
    (config : Config) (qgraph : QuantumGraph)
    (qgraph_gwfile butler_gwfile : Templater.GenericWorkflowFile)
    (fields1 : gmap string pyval)
    (save_qg_subgraph _update_task : string -> string -> option exn)
    (submit_path : string) (pipeline : list string) (sci_graph : DiGraph) :
  Aggregator._handle_job_values
    (<["label" := PStr "pipetaskInit"]>
       (<["name" := PStr "pipetaskInit"]> (job_values_of config)))
    (fields (new_job "pipetaskInit" "pipetaskInit"))
    order_universal order_max order_sum = Ok fields1 ->
  (forall t, In t (pipeline_tasks qgraph) -> snd t <> []) ->
  butler_gwfile_of config = inr butler_gwfile ->
  (forall w j, exists j', _enhance_command config w j = inr j') ->
  (forall a b, save_qg_subgraph a b = None) ->
  (forall a b, _update_task a b = None) ->
  NoDup (List.map fst (nodes sci_graph)) ->
  typed sci_graph -> fresh_names sci_graph -> closed sci_graph ->
  (forall x, In x pipeline ->
     is_Some (first_unit (Str.strip x) (task_nodes (nodes sci_graph)))) ->
  (exists w ids gwjob1 w2 gwjob2,
     create_init_workflow Config job_values_of butler_gwfile_of _enhance_command
       order_universal order_max order_sum config qgraph qgraph_gwfile = inr w /\
     gw_nodes w = [job_name gwjob1] /\
     cmdvals gwjob1 !! "qgraphNodeId" = Some (PStr (String.concat "," (sorted ids))) /\
     List.map Some ids = List.map (fun t => head (snd t)) (pipeline_tasks qgraph) /\
     _enhance_command config w2 gwjob1 = inr gwjob2 /\
     gw_jobs w !! job_name gwjob1 = Some gwjob2) /\
  (exists st,
     _create_workflow_graph true save_qg_subgraph _update_task submit_path
       pipeline sci_graph = Ok st /\
     (forall label,
        is_Some (init_nodes st !! label) <->
        is_Some (first_unit label (task_nodes (nodes sci_graph)))) /\
     (forall label ini, init_nodes st !! label = Some ini ->
        init_task ini = "init_" ++ label /\
        (exists attrs, node_of (init_task ini) (nodes (graph st)) = Some attrs /\
           node_type attrs = Some TASKNODE /\ task_abbrev attrs = Some label) /\
        exists unit, first_unit label (task_nodes (nodes sci_graph)) = Some unit /\
          forall u, In ("qgraph_" ++ u, init_task ini) (edges (graph st)) <->
                    u = unit) /\
     (forall i p c,
        List.map Str.strip pipeline !! i = Some p ->
        List.map Str.strip pipeline !! S i = Some c ->
        exists ip ic, init_nodes st !! p = Some ip /\ init_nodes st !! c = Some ic /\
          In (init_file ip, init_task ic) (edges (graph st)))).
Proof.
  intros Hvalues Hunits Hbutler Henh Hsave Hupdate Hnd Htyped Hfresh Hclosed Hlabels.
  split.
  - by eapply create_init_workflow_one_job.
  - by apply legacy_init_nodes.
Qed.

Lemma example_sci_graph_fresh : fresh_names example_sci_graph.
Proof.
  intros name Hin. simpl in Hin.
  repeat (destruct Hin as [<-|Hin]); try done;
    (split; [done|]; split; [done|]; intros k Hrange Heq; simpl in Hrange;
     do 9 (destruct k as [|k]; [lia|]);
     do 24 (destruct k as [|k]; [vm_compute in Heq; discriminate|]); lia).
Qed.

(** The theorem for C9 at work: the graph of two tasks for the transform
    engine, and the science graph of three units with the pipeline [isr],
    [calibrate] for the legacy core. *)
Lemma init_job_witness :
  (exists w gwjob1,
     create_init_workflow unit unset_job_values central_butler no_enhancement
       Aggregator.universal_order Aggregator.max_order Aggregator.sum_order
       tt two_task_graph Templater.run_qgraph_file = inr w /\
     gw_nodes w = [job_name gwjob1]) /\
  (exists st,
     _create_workflow_graph true no_failure no_failure "/submit"
       ["isr"; " calibrate "] example_sci_graph = Ok st /\
     (forall label,
        is_Some (init_nodes st !! label) <->
        is_Some (first_unit label (task_nodes (nodes example_sci_graph))))).
Proof.
  edestruct (fun butler_gwfile fields1 =>
               init_job_single_and_init_nodes_per_label unit unset_job_values
                 central_butler no_enhancement
                 Aggregator.universal_order Aggregator.max_order Aggregator.sum_order
                 tt two_task_graph Templater.run_qgraph_file butler_gwfile fields1
                 no_failure no_failure "/submit" ["isr"; " calibrate "]
                 example_sci_graph)
    as [(w & ids & gwjob1 & w2 & gwjob2 & Hw & Hnodes & _)
        (st & Hst & Hdom & _)].
  - vm_compute. reflexivity.
  - simpl. intros t [<-|[<-|[]]]; discriminate.
  - reflexivity.
  - intros w j. by exists j.
  - reflexivity.
  - reflexivity.
  - apply (bool_decide_unpack _). vm_compute. exact I.
  - intros name a Hin. simpl in Hin.
    repeat (destruct Hin as [[= <- <-]|Hin]); try done;
      first [by left | right; split; [done|by eexists]].
  - apply example_sci_graph_fresh.
  - intros u v Hin. simpl in Hin.
    repeat (destruct Hin as [[= <- <-]|Hin]); try done; simpl; tauto.
  - simpl. intros x [<-|[<-|[]]]; vm_compute; by eexists.
  - split; [exists w, gwjob1; split; [exact Hw|exact Hnodes]
          |exists st; split; [exact Hst|exact Hdom]].
Defined.

(** C9 as stated fails for [create_init_workflow]: for a graph of two task
    labels, with two units each, it builds one job, [pipetaskInit], not one
    job per label; the two labels show only in the job's [qgraphNodeId],
    one node id for each. *)
Lemma two_task_labels_one_init_job :
  length (pipeline_tasks two_task_graph) = 2%nat /\
  exists w gwjob,
    create_init_workflow unit unset_job_values central_butler no_enhancement
      Aggregator.universal_order Aggregator.max_order Aggregator.sum_order
      tt two_task_graph Templater.run_qgraph_file = inr w /\
    gw_nodes w = ["pipetaskInit"] /\
    gw_jobs w !! "pipetaskInit" = Some gwjob /\
    cmdvals gwjob !! "qgraphNodeId" = Some (PStr "n2,n3").
Proof.
  split; [reflexivity|]. eexists _, _.
  split; [vm_compute; reflexivity|]. split; [reflexivity|].
  split; [vm_compute; reflexivity|]. vm_compute. reflexivity.
Qed.

Lemma pick_node_ids_empty_task : forall tasks : list (string * list string),
  (exists t, In t tasks /\ snd t = []) -> pick_node_ids tasks = inl StopIteration.
Proof.
  induction tasks as [|[label units] tasks IH]; intros (t & Hin & Ht).
  - destruct Hin.
  - simpl. destruct units as [|node units]; [done|].
    destruct Hin as [<-|Hin]; [done|].
    rewrite IH; [done|]. by exists t.
Qed.

(** X13. [create_init_workflow] raises [StopIteration] when the job values
    merge and a task label of the graph has no execution unit, whatever the
    butler and the command enhancement would give. *)
Theorem init_job_of_task_without_units_raises
    (Config : Type)
    (job_values_of : Config -> gmap string pyval)
    (butler_gwfile_of : Config -> exn + Templater.GenericWorkflowFile)
    (_enhance_command :
       Config -> GenericWorkflow -> GenericWorkflowJob -> exn + GenericWorkflowJob)
    (order_universal order_max order_sum : list string)
    (config : Config) (qgraph : QuantumGraph)
    (qgraph_gwfile : Templater.GenericWorkflowFile)
    (task_label : string) :
  is_ok (Aggregator._handle_job_values
           (<["label" := PStr "pipetaskInit"]>
              (<["name" := PStr "pipetaskInit"]> (job_values_of config)))
           (fields (new_job "pipetaskInit" "pipetaskInit"))
           order_universal order_max order_sum) = true ->
  In (task_label, []) (pipeline_tasks qgraph) ->
  create_init_workflow Config job_values_of butler_gwfile_of _enhance_command
    order_universal order_max order_sum config qgraph qgraph_gwfile
  = inl StopIteration.
Proof.
  intros Hvalues Hin. unfold create_init_workflow. cbv zeta.
  destruct (Aggregator._handle_job_values _ _ _ _ _) as [fields1|? ?]; [|done].
  rewrite pick_node_ids_empty_task; [done|]. by exists (task_label, []).
Qed.

Lemma init_job_of_task_without_units_witness :
  create_init_workflow unit unset_job_values central_butler no_enhancement
    Aggregator.universal_order Aggregator.max_order Aggregator.sum_order tt
    {| graphID := "g1"; pipeline_tasks := [("isr", ["n1"]); ("calibrate", [])] |}
    Templater.run_qgraph_file
  = inl StopIteration.
Proof.
  apply (init_job_of_task_without_units_raises unit unset_job_values central_butler
           no_enhancement Aggregator.universal_order Aggregator.max_order
           Aggregator.sum_order tt
           {| graphID := "g1"; pipeline_tasks := [("isr", ["n1"]); ("calibrate", [])] |}
           Templater.run_qgraph_file "calibrate").
  - vm_compute. reflexivity.
  - simpl. tauto.
Defined.

End InitFacts.

(** ** The attribute aggregator *)

Module AggregatorFacts.
Import Aggregator.

Lemma getattr_setattr_eq j a v : getattr (setattr j a v) a = v.
Proof. unfold getattr, setattr. by rewrite lookup_insert_eq. Qed.

Lemma getattr_setattr_ne j a b v : a <> b -> getattr (setattr j a v) b = getattr j b.
Proof. intros H. unfold getattr, setattr. by rewrite lookup_insert_ne. Qed.

(** *** The universal class *)

Lemma conflictb_ext q j1 j2 a :
  getattr j1 a = getattr j2 a -> conflictb q j1 a = conflictb q j2 a.
Proof. intros H. unfold conflictb. by rewrite H. Qed.

Lemma universal_merged_ext q j1 j2 a :
  getattr j1 a = getattr j2 a -> universal_merged q j1 a = universal_merged q j2 a.
Proof. intros H. unfold universal_merged. by rewrite H. Qed.

Lemma universal_step_cases q a j :
  (conflictb q j a = false /\
   exists j', universal_step q a j = Ok j' /\
     getattr j' a = universal_merged q j a /\
     forall b, b <> a -> getattr j' b = getattr j b) \/
  (conflictb q j a = true /\
   universal_step q a j = Raise j (InconsistentValue a (getattr j "name"))).
Proof.
  unfold universal_step, conflictb, universal_merged.
  destruct (q !! a) as [v|] eqn:Hq.
  - destruct (Py.truthy (getattr j a)) eqn:Ht; simpl.
    + destruct (Py.eq (getattr j a) v) eqn:He; simpl.
      * left. split; [done|]. exists j. done.
      * right. done.
    + left. split; [done|]. exists (setattr j a v). split; [done|].
      split; [apply getattr_setattr_eq|].
      intros b Hb. by apply getattr_setattr_ne.
  - left. split; [done|]. exists j. done.
Qed.

(** The whole loop: it completes exactly when no visited attribute
    conflicts, and then every visited attribute holds its merged value;
    otherwise it raises at the first conflicting attribute, naming it and
    the job. *)
Lemma universal_run q l : forall j, NoDup l ->
  match for_each (universal_step q) l j with
  | Ok j' =>
      (forall b, b ∈ l -> conflictb q j b = false) /\
      (forall a, a ∈ l -> getattr j' a = universal_merged q j a) /\
      (forall a, a ∉ l -> getattr j' a = getattr j a)
  | Raise j' e =>
      exists l1 b l2, l = (l1 ++ b :: l2)%list /\
        (forall c, c ∈ l1 -> conflictb q j c = false) /\
        conflictb q j b = true /\
        e = InconsistentValue b (getattr j' "name")
  end.
Proof.
  induction l as [|x l IH]; intros j Hnd; simpl.
  - repeat split; intros ? H; by inversion H.
  - apply NoDup_cons in Hnd as [Hx Hnd].
    destruct (universal_step_cases q x j) as [(Hc & j1 & Hs & Hx1 & Hfr)|(Hc & Hs)];
      rewrite Hs.
    + specialize (IH j1 Hnd).
      assert (Hsame : forall b, b ∈ l -> getattr j1 b = getattr j b).
      { intros b Hb. apply Hfr. intros ->. done. }
      destruct (for_each (universal_step q) l j1) as [j'|j' e].
      * destruct IH as (Hno & Hin & Hout). repeat split.
        -- intros b Hb. apply elem_of_cons in Hb as [->|Hb]; [done|].
           rewrite <- (Hno b Hb). symmetry. apply conflictb_ext. by apply Hsame.
        -- intros a Ha. apply elem_of_cons in Ha as [->|Ha].
           ++ rewrite (Hout x Hx). done.
           ++ rewrite (Hin a Ha). apply universal_merged_ext. by apply Hsame.
        -- intros a Ha. apply not_elem_of_cons in Ha as [Hne Ha].
           rewrite (Hout a Ha). by apply Hfr.
      * destruct IH as (l1 & b & l2 & -> & Hno & Hb & ->).
        exists (x :: l1), b, l2. repeat split; [|by rewrite <- Hb; symmetry;
          apply conflictb_ext, Hsame; set_solver].
        intros c Hcin. apply elem_of_cons in Hcin as [->|Hcin]; [done|].
        rewrite <- (Hno c Hcin). symmetry. apply conflictb_ext, Hsame. set_solver.
    + exists [], x, l. repeat split; [|done].
      intros c Hcin. by inversion Hcin.
Qed.

(** *** The max class *)

Lemma string_ltb_irrefl s : String.ltb s s = false.
Proof.
  unfold String.ltb. destruct (String.compare s s) eqn:E; try reflexivity.
  pose proof (String.compare_antisym s s) as H. rewrite E in H. discriminate.
Qed.

Lemma Qle_bool_refl x : Qle_bool x x = true.
Proof. apply Qle_bool_iff. apply Qle_refl. Qed.

(** A value is never a new maximum over itself (and comparing it with
    itself does not raise). *)
Lemma needs_update_same v : needs_update v v = Some false.
Proof.
  unfold needs_update, Py.lt.
  destruct v as [|b|z|q|s]; simpl; try reflexivity;
    rewrite ?Qle_bool_refl, ?string_ltb_irrefl; reflexivity.
Qed.

Lemma max_merged_ext q j1 j2 a :
  getattr j1 a = getattr j2 a -> max_merged q j1 a = max_merged q j2 a.
Proof. intros H. unfold max_merged. by rewrite H. Qed.

Lemma max_merged_same q j a v :
  q !! a = Some v -> getattr j a = v -> max_merged q j a = v.
Proof.
  intros Hq Hg. unfold max_merged. rewrite Hq, Hg, needs_update_same. done.
Qed.

(** The body of the loop at an attribute other than [request_memory]. *)
Lemma max_step_plain q a j :
  a <> "request_memory" ->
  max_step q a j =
  match q !! a with
  | None => Ok j
  | Some v =>
      match needs_update (getattr j a) v with
      | None => Raise j TypeError
      | Some false => Ok j
      | Some true => Ok (setattr j a v)
      end
  end.
Proof.
  intros Hne. unfold max_step.
  destruct (q !! a) as [v|]; [|done].
  destruct (needs_update (getattr j a) v) as [[|]|]; try done.
  destruct (String.eqb_spec a "request_memory"); [contradiction|done].
Qed.

Lemma max_run_plain q l : forall j,
  NoDup l -> "request_memory" ∉ l ->
  match for_each (max_step q) l j with
  | Ok j' =>
      forall a, getattr j' a =
                if bool_decide (a ∈ l) then max_merged q j a else getattr j a
  | Raise _ e =>
      e = TypeError /\
      exists a v, a ∈ l /\ q !! a = Some v /\ needs_update (getattr j a) v = None
  end.
Proof.
  induction l as [|x l IH]; intros j Hnd Hrm; simpl.
  - done.
  - apply NoDup_cons in Hnd as [Hx Hnd].
    apply not_elem_of_cons in Hrm as [Hrmx Hrm].
    rewrite max_step_plain by done.
    assert (Hgo : forall j1,
      getattr j1 x = max_merged q j x ->
      (forall b, b <> x -> getattr j1 b = getattr j b) ->
      match for_each (max_step q) l j1 with
      | Ok j' =>
          forall a, getattr j' a =
            if bool_decide (a ∈ x :: l) then max_merged q j a else getattr j a
      | Raise _ e =>
          e = TypeError /\
          exists a v, a ∈ x :: l /\ q !! a = Some v /\
                      needs_update (getattr j a) v = None
      end).
    { intros j1 Hx1 Hfr. specialize (IH j1 Hnd Hrm).
      destruct (for_each (max_step q) l j1) as [j'|j' e].
      - intros a. rewrite (IH a).
        destruct (decide (a = x)) as [->|Hax].
        + rewrite bool_decide_eq_false_2 by done.
          rewrite bool_decide_eq_true_2 by set_solver. done.
        + destruct (decide (a ∈ l)) as [Hin|Hin].
          * rewrite (bool_decide_eq_true_2 _ Hin).
            rewrite bool_decide_eq_true_2 by (by right).
            apply max_merged_ext. by apply Hfr.
          * rewrite (bool_decide_eq_false_2 _ Hin).
            rewrite bool_decide_eq_false_2 by (by apply not_elem_of_cons).
            by apply Hfr.
      - destruct IH as (-> & a & v & Ha & Hq & Hn). split; [done|].
        exists a, v. split; [set_solver|]. split; [done|].
        rewrite <- Hfr; [done|]. intros ->. done. }
    unfold max_merged in Hgo.
    destruct (q !! x) as [v|] eqn:Hq.
    + destruct (needs_update (getattr j x) v) as [[|]|] eqn:Hn.
      * apply Hgo; [apply getattr_setattr_eq|].
        intros b Hb. apply getattr_setattr_ne. done.
      * by apply Hgo.
      * split; [done|]. exists x, v. split; [set_solver|]. done.
    + by apply Hgo.
Qed.

(** The body of the loop at [request_memory]. *)
Lemma max_step_request_memory q j :
  max_step q "request_memory" j =
  match q !! "request_memory" with
  | None => Ok j
  | Some v =>
      match needs_update (getattr j "request_memory") v with
      | None => Raise j TypeError
      | Some false => Ok j
      | Some true =>
          let j1 := setattr j "request_memory" v in
          match q !! "memory_multiplier" with
          | None => Raise j1 (KeyError "memory_multiplier")
          | Some mm =>
              let j2 := setattr j1 "memory_multiplier" mm in
              if Py.is_none mm then Ok j2
              else
                match q !! "number_of_retries" with
                | None => Raise j2 (KeyError "number_of_retries")
                | Some r => Ok (setattr j2 "number_of_retries" r)
                end
          end
      end
  end.
Proof. reflexivity. Qed.

Lemma max_folded_plain q j order a :
  bool_decide ("request_memory" ∈ order) && rm_updated q j = false ->
  max_folded q j order a =
  if bool_decide (a ∈ order) then max_merged q j a else getattr j a.
Proof. intros H. unfold max_folded. by rewrite H. Qed.

(** One fold by [_handle_job_values_max] that completes leaves every
    attribute at its closed form, in whatever order the loop ran. *)
Lemma max_run q order j j' :
  NoDup order ->
  _handle_job_values_max q j order = Ok j' ->
  forall a, getattr j' a = max_folded q j order a.
Proof.
  intros Hnd Hrun a. unfold _handle_job_values_max in Hrun.
  destruct (decide ("request_memory" ∈ order)) as [Hin|Hin].
  2:{ pose proof (max_run_plain q order j Hnd Hin) as Hp. rewrite Hrun in Hp.
      rewrite max_folded_plain; [apply Hp|].
      by rewrite bool_decide_eq_false_2. }
  apply list_elem_of_split in Hin as (l1 & l2 & ->).
  apply NoDup_app in Hnd as (Hnd1 & Hdisj & Hnd2).
  apply NoDup_cons in Hnd2 as [Hrm2 Hnd2].
  assert (Hrm1 : "request_memory" ∉ l1).
  { intros H. apply (Hdisj _ H). left. }
  assert (Hd12 : forall b, b ∈ l2 -> b ∉ l1).
  { intros b Hb Hb1. apply (Hdisj _ Hb1). by right. }
  rewrite for_each_app in Hrun.
  pose proof (max_run_plain q l1 j Hnd1 Hrm1) as H1.
  destruct (for_each (max_step q) l1 j) as [j1|? ?]; [|discriminate].
  simpl in Hrun.
  destruct (max_step q "request_memory" j1) as [j2|? ?] eqn:Hstep; [|discriminate].
  pose proof (max_run_plain q l2 j2 Hnd2 Hrm2) as H2. rewrite Hrun in H2.
  assert (Hrm_j1 : getattr j1 "request_memory" = getattr j "request_memory").
  { rewrite H1. by rewrite bool_decide_eq_false_2. }
  assert (Hin_all : forall b, bool_decide (b ∈ (l1 ++ "request_memory" :: l2)%list) =
            bool_decide (b ∈ l1) || String.eqb b "request_memory" || bool_decide (b ∈ l2)).
  { intros b. rewrite <- !orb_assoc.
    destruct (String.eqb_spec b "request_memory") as [->|Hb];
      repeat case_bool_decide; simpl; try done; exfalso;
      repeat match goal with
      | H : _ ∈ (_ ++ _)%list |- _ => apply elem_of_app in H as [H|H]
      | H : _ ∈ _ :: _ |- _ => apply elem_of_cons in H as [H|H]
      | H : ¬ _ ∈ (_ ++ _)%list |- _ => apply not_elem_of_app in H as [? ?]
      | H : ¬ _ ∈ _ :: _ |- _ => apply not_elem_of_cons in H as [? ?]
      end; done. }
  (* the plain value of [a], read through the states the loop went through *)
  assert (Hplain : forall j2',
    getattr j2' a = getattr j1 a ->
    a <> "request_memory" ->
    (if bool_decide (a ∈ l2) then max_merged q j2' a else getattr j2' a) =
    if bool_decide (a ∈ (l1 ++ "request_memory" :: l2)%list)
    then max_merged q j a else getattr j a).
  { intros j2' Hfr Har. rewrite Hin_all.
    destruct (String.eqb_spec a "request_memory") as [|_]; [done|].
    rewrite orb_false_r.
    destruct (decide (a ∈ l2)) as [Ha2|Ha2].
    - rewrite (bool_decide_eq_true_2 (a ∈ l2)) by done. rewrite orb_true_r.
      apply max_merged_ext. rewrite Hfr. rewrite H1.
      by rewrite bool_decide_eq_false_2 by (by apply Hd12).
    - rewrite (bool_decide_eq_false_2 (a ∈ l2)) by done. rewrite orb_false_r.
      rewrite Hfr. apply H1. }
  rewrite max_step_request_memory in Hstep.
  unfold max_folded, rm_updated.
  rewrite (bool_decide_eq_true_2 ("request_memory" ∈ _))
    by (apply elem_of_app; right; left).
  simpl. rewrite Hrm_j1 in Hstep.
  destruct (q !! "request_memory") as [v|] eqn:Hqrm.
  2:{ injection Hstep as <-. rewrite H2.
      destruct (decide (a = "request_memory")) as [->|Har].
      - rewrite bool_decide_eq_false_2 by done.
        rewrite bool_decide_eq_true_2 by (apply elem_of_app; right; left).
        unfold max_merged. by rewrite Hqrm.
      - by apply Hplain. }
  destruct (needs_update (getattr j "request_memory") v) as [[|]|] eqn:Hn;
    [|injection Hstep as <-|discriminate].
  2:{ rewrite H2.
      destruct (decide (a = "request_memory")) as [->|Har].
      - rewrite bool_decide_eq_false_2 by done.
        rewrite bool_decide_eq_true_2 by (apply elem_of_app; right; left).
        unfold max_merged. by rewrite Hqrm, Hn.
      - by apply Hplain. }
  simpl in Hstep.
  destruct (q !! "memory_multiplier") as [mm|] eqn:Hqmm; [|discriminate].
  destruct (String.eqb_spec a "memory_multiplier") as [->|Hamm].
  { (* the multiplier is the unit's *)
    assert (Hj2 : getattr j2 "memory_multiplier" = mm).
    { destruct (Py.is_none mm).
      - injection Hstep as <-. apply getattr_setattr_eq.
      - destruct (q !! "number_of_retries"); [|discriminate].
        injection Hstep as <-.
        rewrite getattr_setattr_ne by done. apply getattr_setattr_eq. }
    rewrite H2. destruct (bool_decide _); [|done].
    by apply max_merged_same. }
  destruct (String.eqb_spec a "number_of_retries") as [->|Hare]; simpl.
  { destruct (Py.is_none mm) eqn:Hmm; simpl.
    - injection Hstep as <-. rewrite H2. apply Hplain; [|done].
      rewrite getattr_setattr_ne by done.
      by rewrite getattr_setattr_ne by done.
    - destruct (q !! "number_of_retries") as [r|] eqn:Hqr; [|discriminate].
      injection Hstep as <-. rewrite H2.
      rewrite getattr_setattr_eq.
      destruct (bool_decide _); [|done].
      apply max_merged_same; [done|apply getattr_setattr_eq]. }
  (* any other attribute *)
  assert (Hj2 : a <> "request_memory" -> getattr j2 a = getattr j1 a).
  { intros Har. destruct (Py.is_none mm).
    - injection Hstep as <-.
      rewrite getattr_setattr_ne by done. by rewrite getattr_setattr_ne by done.
    - destruct (q !! "number_of_retries"); [|discriminate].
      injection Hstep as <-.
      rewrite getattr_setattr_ne by done.
      rewrite getattr_setattr_ne by done. by rewrite getattr_setattr_ne by done. }
  assert (Hgoal : getattr j' a =
    if bool_decide (a ∈ (l1 ++ "request_memory" :: l2)%list)
    then max_merged q j a else getattr j a).
  { rewrite H2. destruct (decide (a = "request_memory")) as [->|Har].
    - rewrite bool_decide_eq_false_2 by done.
      rewrite bool_decide_eq_true_2 by (apply elem_of_app; right; left).
      unfold max_merged. rewrite Hqrm, Hn.
      destruct (Py.is_none mm).
      + injection Hstep as <-.
        rewrite getattr_setattr_ne by done. apply getattr_setattr_eq.
      + destruct (q !! "number_of_retries"); [|discriminate].
        injection Hstep as <-.
        rewrite getattr_setattr_ne by done.
        rewrite getattr_setattr_ne by done. apply getattr_setattr_eq.
    - apply Hplain; [by apply Hj2|done]. }
  rewrite Hgoal. by destruct (Py.is_none mm); simpl; destruct (q !! "number_of_retries").
Qed.

(** One fold by [_handle_job_values_max] completes when the values it
    compares are comparable and, for a new memory maximum, the record holds
    the scaling attributes the loop then reads. *)
Lemma max_total q order j :
  NoDup order ->
  (forall a v, a ∈ order -> q !! a = Some v ->
               needs_update (getattr j a) v <> None) ->
  ("request_memory" ∈ order -> rm_updated q j = true ->
   exists mm, q !! "memory_multiplier" = Some mm /\
     (Py.is_none mm = false -> is_Some (q !! "number_of_retries"))) ->
  exists j', _handle_job_values_max q j order = Ok j'.
Proof.
  intros Hnd Hcmp Hkeys. unfold _handle_job_values_max.
  destruct (decide ("request_memory" ∈ order)) as [Hin|Hin].
  2:{ pose proof (max_run_plain q order j Hnd Hin) as Hp.
      destruct (for_each (max_step q) order j) as [j'|jx e]; [by exists j'|].
      destruct Hp as (_ & a & v & Ha & Hq & Hn). by destruct (Hcmp a v). }
  specialize (Hkeys Hin).
  apply list_elem_of_split in Hin as (l1 & l2 & ->).
  apply NoDup_app in Hnd as (Hnd1 & Hdisj & Hnd2).
  apply NoDup_cons in Hnd2 as [Hrm2 Hnd2].
  assert (Hrm1 : "request_memory" ∉ l1).
  { intros H. apply (Hdisj _ H). left. }
  assert (Hd12 : forall b, b ∈ l2 -> b ∉ l1).
  { intros b Hb Hb1. apply (Hdisj _ Hb1). by right. }
  rewrite for_each_app.
  pose proof (max_run_plain q l1 j Hnd1 Hrm1) as H1.
  destruct (for_each (max_step q) l1 j) as [j1|jx e].
  2:{ destruct H1 as (_ & a & v & Ha & Hq & Hn).
      destruct (Hcmp a v); [apply elem_of_app; by left|done|done]. }
  simpl.
  assert (Hrm_j1 : getattr j1 "request_memory" = getattr j "request_memory").
  { rewrite H1. by rewrite bool_decide_eq_false_2. }
  assert (Hl2 : forall j2,
    (forall a v, a ∈ l2 -> q !! a = Some v ->
       getattr j2 a = getattr j1 a \/ getattr j2 a = v) ->
    exists j', for_each (max_step q) l2 j2 = Ok j').
  { intros j2 Hj2. pose proof (max_run_plain q l2 j2 Hnd2 Hrm2) as H2.
    destruct (for_each (max_step q) l2 j2) as [j'|jx e]; [by exists j'|].
    destruct H2 as (_ & a & v & Ha & Hq & Hn).
    destruct (Hj2 a v Ha Hq) as [Hs|Hs]; rewrite Hs in Hn.
    - rewrite H1 in Hn. rewrite bool_decide_eq_false_2 in Hn by (by apply Hd12).
      destruct (Hcmp a v); [|done|done]. apply elem_of_app. right. by right.
    - by rewrite needs_update_same in Hn. }
  rewrite max_step_request_memory, Hrm_j1.
  unfold rm_updated in Hkeys.
  destruct (q !! "request_memory") as [v|] eqn:Hqrm; [|apply Hl2; auto].
  destruct (needs_update (getattr j "request_memory") v) as [[|]|] eqn:Hn.
  - destruct (Hkeys eq_refl) as (mm & Hqmm & Hre). rewrite Hqmm. simpl.
    destruct (Py.is_none mm) eqn:Hmm.
    + apply Hl2. intros a w Ha Hq.
      destruct (decide (a = "memory_multiplier")) as [->|Ham].
      * right. rewrite getattr_setattr_eq. congruence.
      * left. rewrite getattr_setattr_ne by done.
        rewrite getattr_setattr_ne; [done|]. intros <-. done.
    + destruct (Hre eq_refl) as [r Hqr]. rewrite Hqr.
      apply Hl2. intros a w Ha Hq.
      destruct (decide (a = "number_of_retries")) as [->|Har].
      * right. rewrite getattr_setattr_eq. congruence.
      * rewrite getattr_setattr_ne by done.
        destruct (decide (a = "memory_multiplier")) as [->|Ham].
        -- right. rewrite getattr_setattr_eq. congruence.
        -- left. rewrite getattr_setattr_ne by done.
           rewrite getattr_setattr_ne; [done|]. intros <-. done.
  - apply Hl2; auto.
  - destruct (Hcmp "request_memory" v); [|done|done].
    apply elem_of_app. right. left.
Qed.

(** *** The sum class *)

Lemma sum_step_missing q a j :
  q !! a = None -> sum_step q a j = Raise j (KeyError a).
Proof. intros H. unfold sum_step. rewrite H. by destruct (negb _). Qed.

Lemma sum_step_present q a j v :
  q !! a = Some v ->
  (exists j', sum_step q a j = Ok j') \/ sum_step q a j = Raise j TypeError.
Proof.
  intros H. unfold sum_step. rewrite H. destruct (negb _); [eauto|].
  destruct (Py.add _ _); eauto.
Qed.

Lemma sum_run_missing q l : forall j,
  (exists a, a ∈ l /\ q !! a = None) ->
  exists j' e, for_each (sum_step q) l j = Raise j' e /\
    (e = TypeError \/ exists b, b ∈ l /\ q !! b = None /\ e = KeyError b).
Proof.
  induction l as [|x l IH]; intros j (a & Ha & Hq).
  - by inversion Ha.
  - simpl. destruct (q !! x) as [v|] eqn:Hx.
    + destruct (sum_step_present q x j v Hx) as [[j1 Hs]|Hs]; rewrite Hs.
      * assert (Hal : a ∈ l).
        { apply elem_of_cons in Ha as [->|Ha]; [congruence|done]. }
        destruct (IH j1 (ex_intro _ a (conj Hal Hq))) as (j' & e & Hr & He).
        exists j', e. split; [done|].
        destruct He as [He|(b & Hb & Hqb & He)]; [by left|right].
        exists b. split; [by right|done].
      * exists j, TypeError. split; [done|by left].
    + rewrite (sum_step_missing q x j Hx).
      exists j, (KeyError x). split; [done|]. right. exists x. split; [left|done].
Qed.

(** *** Iteration orders *)

Lemma iterates_list_to_set (l : list string) (s : gset string) :
  NoDup l -> list_to_set l = s -> iterates l s.
Proof.
  intros Hnd <-. split; [done|]. intros a. by rewrite elem_of_list_to_set.
Qed.

(** *** Folding records that hold the memory attributes *)

Lemma unit_memory_lookup r m t a :
  unit_memory r m t !! a =
  if String.eqb a "request_memory" then Some r
  else if String.eqb a "memory_multiplier" then Some m
  else if String.eqb a "number_of_retries" then Some t
  else None.
Proof.
  unfold unit_memory.
  destruct (String.eqb_spec a "request_memory") as [->|H1];
    [by rewrite lookup_insert_eq|].
  rewrite lookup_insert_ne by done.
  destruct (String.eqb_spec a "memory_multiplier") as [->|H2];
    [by rewrite lookup_insert_eq|].
  rewrite lookup_insert_ne by done.
  destruct (String.eqb_spec a "number_of_retries") as [->|H3];
    [by rewrite lookup_insert_eq|].
  by rewrite lookup_insert_ne by done.
Qed.

Lemma max_fold_unit_memory r m t j order (u : bool) :
  NoDup order -> "request_memory" ∈ order ->
  needs_update (getattr j "request_memory") r = Some u ->
  needs_update (getattr j "memory_multiplier") m <> None ->
  needs_update (getattr j "number_of_retries") t <> None ->
  exists j', _handle_job_values_max (unit_memory r m t) j order = Ok j' /\
    getattr j' "request_memory" = (if u then r else getattr j "request_memory") /\
    (u = true -> getattr j' "memory_multiplier" = m /\
       (Py.is_none m = false -> getattr j' "number_of_retries" = t)) /\
    (u = false ->
       needs_update (getattr j "memory_multiplier") m = Some false ->
       getattr j' "memory_multiplier" = getattr j "memory_multiplier") /\
    (u = false \/ Py.is_none m = true ->
       needs_update (getattr j "number_of_retries") t = Some false ->
       getattr j' "number_of_retries" = getattr j "number_of_retries") /\
    (forall a, a <> "request_memory" -> a <> "memory_multiplier" ->
       a <> "number_of_retries" -> getattr j' a = getattr j a).
Proof.
  intros Hnd Hin Hr Hm Ht.
  destruct (max_total (unit_memory r m t) order j Hnd) as [j' Hrun].
  { intros a v _. rewrite unit_memory_lookup.
    destruct (String.eqb_spec a "request_memory") as [->|_];
      [intros [= <-]; by rewrite Hr|].
    destruct (String.eqb_spec a "memory_multiplier") as [->|_];
      [by intros [= <-]|].
    destruct (String.eqb_spec a "number_of_retries") as [->|_];
      [by intros [= <-]|done]. }
  { intros _ _. exists m. rewrite !unit_memory_lookup. simpl. eauto. }
  exists j'. split; [done|].
  assert (Hget : forall a, getattr j' a =
            max_folded (unit_memory r m t) j order a)
    by (apply max_run; done).
  assert (Heval : forall a, getattr j' a =
    let plain :=
      if bool_decide (a ∈ order)
      then match unit_memory r m t !! a with
           | Some v => match needs_update (getattr j a) v with
                       | Some true => v
                       | _ => getattr j a
                       end
           | None => getattr j a
           end
      else getattr j a in
    if u then
      if String.eqb a "memory_multiplier" then m
      else if String.eqb a "number_of_retries" && negb (Py.is_none m) then t
      else plain
    else plain).
  { intros a. rewrite Hget. unfold max_folded, rm_updated, max_merged.
    rewrite (unit_memory_lookup _ _ _ "request_memory").
    rewrite (unit_memory_lookup _ _ _ "memory_multiplier").
    rewrite (unit_memory_lookup _ _ _ "number_of_retries").
    rewrite (bool_decide_eq_true_2 _ Hin). simpl. rewrite Hr. by destruct u. }
  clear Hget. cbv zeta in Heval.
  split; [|split; [|split; [|split]]].
  - rewrite Heval, (bool_decide_eq_true_2 _ Hin), unit_memory_lookup. simpl.
    rewrite Hr. by destruct u.
  - intros ->. split; [by rewrite Heval|].
    intros Hmn. rewrite Heval. simpl. by rewrite Hmn.
  - intros -> Hmm. rewrite Heval, unit_memory_lookup. simpl. rewrite Hmm.
    by destruct (bool_decide _).
  - intros Hor Htt. rewrite Heval, unit_memory_lookup. simpl. rewrite Htt.
    destruct Hor as [->| ->]; simpl; [by destruct (bool_decide _)|].
    destruct u; simpl; by destruct (bool_decide _).
  - intros a H1 H2 H3. rewrite Heval, unit_memory_lookup.
    destruct (String.eqb_spec a "request_memory"); [done|].
    destruct (String.eqb_spec a "memory_multiplier"); [done|].
    destruct (String.eqb_spec a "number_of_retries"); [done|].
    simpl. destruct u; simpl; by destruct (bool_decide _).
Qed.

(** *** The claims on the universal class *)

(** C1, what the code does.  For every cluster job, every universal
    attribute [a] that the loop visits and every unit record that supplies a
    value [v] for it: when the value the job stores is falsy ([not
    current_value], line 515), a fold that completes leaves [v] in the
    attribute; when the stored value is truthy and differs from [v], the
    fold raises the cluster-inconsistency error, which names the job and the
    first conflicting attribute of the loop ([a] itself when no other
    attribute conflicts); when the stored value is truthy and equal to [v],
    a fold that completes leaves it unchanged; and the fold completes
    whenever no visited attribute conflicts. *)
Theorem universal_fold_sets_then_checks
    (_ATTRS_ALL attributes : gset string) (order : list string)
    (q j : gmap string pyval) (a : string) (v : pyval) :
  iterates order (_ATTRS_UNIVERSAL _ATTRS_ALL ∩ attributes) ->
  a ∈ _ATTRS_UNIVERSAL _ATTRS_ALL -> a ∈ attributes ->
  q !! a = Some v ->
  (Py.truthy (getattr j a) = false ->
     forall j', _handle_job_values_universal q j order = Ok j' ->
                getattr j' a = v) /\
  (Py.truthy (getattr j a) = true -> Py.eq (getattr j a) v = false ->
     exists j' b,
       _handle_job_values_universal q j order
         = Raise j' (InconsistentValue b (getattr j' "name")) /\
       b ∈ order /\ conflictb q j b = true /\
       ((forall c, c ∈ order -> conflictb q j c = true -> c = a) -> b = a)) /\
  (Py.truthy (getattr j a) = true -> Py.eq (getattr j a) v = true ->
     forall j', _handle_job_values_universal q j order = Ok j' ->
                getattr j' a = getattr j a) /\
  ((forall b, b ∈ order -> conflictb q j b = false) ->
     exists j', _handle_job_values_universal q j order = Ok j').
Proof.
  intros [Hnd Hiter] Hau Hat Hq.
  assert (Hin : a ∈ order) by (by apply Hiter, elem_of_intersection).
  pose proof (universal_run q order j Hnd) as Hrun.
  unfold _handle_job_values_universal.
  repeat split.
  - intros Ht j' Hr. rewrite Hr in Hrun. destruct Hrun as (_ & Hm & _).
    rewrite (Hm a Hin). unfold universal_merged. by rewrite Hq, Ht.
  - intros Ht He.
    assert (Hca : conflictb q j a = true).
    { unfold conflictb. by rewrite Hq, Ht, He. }
    destruct (for_each (universal_step q) order j) as [j'|j' e].
    + destruct Hrun as (Hno & _). rewrite (Hno a Hin) in Hca. discriminate.
    + destruct Hrun as (l1 & b & l2 & -> & Hno & Hb & ->).
      exists j', b. split; [done|].
      assert (Hbin : b ∈ (l1 ++ b :: l2)%list) by (apply elem_of_app; right; left).
      repeat split; [done|done|]. intros Honly. by apply Honly.
  - intros Ht He j' Hr. rewrite Hr in Hrun. destruct Hrun as (_ & Hm & _).
    rewrite (Hm a Hin). unfold universal_merged. by rewrite Hq, Ht.
  - intros Hno. destruct (for_each (universal_step q) order j) as [j'|j' e].
    + by exists j'.
    + destruct Hrun as (l1 & b & l2 & -> & _ & Hb & _).
      rewrite Hno in Hb; [discriminate|]. apply elem_of_app; right; left.
Qed.

(** The theorem at work: two units with different sites. *)
Lemma universal_fold_witness :
  exists j' b,
    _handle_job_values_universal (unit_site "siteB")
      (setattr fresh_job "compute_site" (PStr "siteA")) universal_order
    = Raise j' (InconsistentValue b (getattr j' "name")) /\
    b ∈ universal_order /\
    conflictb (unit_site "siteB")
      (setattr fresh_job "compute_site" (PStr "siteA")) b = true /\
    ((forall c, c ∈ universal_order ->
        conflictb (unit_site "siteB")
          (setattr fresh_job "compute_site" (PStr "siteA")) c = true ->
        c = "compute_site") -> b = "compute_site").
Proof.
  refine (proj1 (proj2 (universal_fold_sets_then_checks spec_job_fields spec_job_fields
            universal_order (unit_site "siteB")
            (setattr fresh_job "compute_site" (PStr "siteA"))
            "compute_site" (PStr "siteB") _ _ _ _)) _ _).
  - apply iterates_list_to_set.
    + apply (bool_decide_unpack _). vm_compute. exact I.
    + vm_compute. reflexivity.
  - apply (bool_decide_unpack _). vm_compute. exact I.
  - apply (bool_decide_unpack _). vm_compute. exact I.
  - vm_compute. reflexivity.
  - vm_compute. reflexivity.
  - vm_compute. reflexivity.
Defined.

(** C1, where the code departs from it and from its own docstring (lines
    489-490: the attributes must have the same value for every quantum of
    the cluster).  The test of line 515 takes every falsy stored value for
    no value, so that a value that a unit has supplied and that is falsy
    (here the empty string; [False] and [0] alike) is not compared.  A
    first unit supplies the empty string for [compute_site], a later unit
    supplies "siteB": the second fold completes and overwrites the stored
    value, in every order of the loop. *)
Lemma universal_falsy_stored_value_overwritten :
  Forall (fun order =>
    let r1 := _handle_job_values_universal (unit_site "") fresh_job order in
    let r2 := _handle_job_values_universal (unit_site "siteB") (state_of r1) order in
    is_ok r1 = true /\
    (unit_site "") !! "compute_site" = Some (PStr "") /\
    (state_of r1) !! "compute_site" = Some (PStr "") /\
    Py.eq (getattr (state_of r1) "compute_site") (PStr "siteB") = false /\
    is_ok r2 = true /\
    getattr (state_of r2) "compute_site" = PStr "siteB")
  (permutations universal_order).
Proof. cbv zeta. apply (bool_decide_unpack _). vm_compute. exact I. Qed.

(** *** The claims on the max class *)

(** The example of the specification: unit A asks for 2048 with no
    multiplier, unit B for 4096 with multiplier 2.0 (so that [_get_job_values]
    gives it the default retry count).  Whatever the order of each loop, both
    orders of folding end in the same attributes. *)
Lemma max_fold_example (D : Z) (j0 : gmap string pyval) (o1 o2 o3 o4 : list string) :
  getattr j0 "request_memory" = PNone ->
  getattr j0 "memory_multiplier" = PNone ->
  getattr j0 "number_of_retries" = PNone ->
  NoDup o1 -> NoDup o2 -> NoDup o3 -> NoDup o4 ->
  "request_memory" ∈ o1 -> "request_memory" ∈ o2 ->
  "request_memory" ∈ o3 -> "request_memory" ∈ o4 ->
  exists A B jA jAB jB jBA,
    adjust_memory_scaling D (unit_memory (PInt 2048) PNone PNone) = Ok A /\
    adjust_memory_scaling D (unit_memory (PInt 4096) (PFloat 2) PNone) = Ok B /\
    _handle_job_values_max A j0 o1 = Ok jA /\
    _handle_job_values_max B jA o2 = Ok jAB /\
    _handle_job_values_max B j0 o3 = Ok jB /\
    _handle_job_values_max A jB o4 = Ok jBA /\
    getattr jAB "request_memory" = PInt 4096 /\
    getattr jAB "memory_multiplier" = PFloat 2 /\
    getattr jAB "number_of_retries" = PInt D /\
    forall a, getattr jAB a = getattr jBA a.
Proof.
  intros Hr0 Hm0 Ht0 Hn1 Hn2 Hn3 Hn4 Hi1 Hi2 Hi3 Hi4.
  exists (unit_memory (PInt 2048) PNone PNone),
         (unit_memory (PInt 4096) (PFloat 2) (PInt D)).
  destruct (max_fold_unit_memory (PInt 2048) PNone PNone j0 o1 true Hn1 Hi1)
    as (jA & HA & HAr & HAm & _ & HAt & HAo);
    [by rewrite Hr0|by rewrite Hm0|by rewrite Ht0|].
  destruct (HAm eq_refl) as [HAm' _]. clear HAm.
  assert (HAt' : getattr jA "number_of_retries" = PNone).
  { rewrite HAt; [done|by right|by rewrite Ht0]. }
  destruct (max_fold_unit_memory (PInt 4096) (PFloat 2) (PInt D) jA o2 true Hn2 Hi2)
    as (jAB & HAB & HABr & HABm & _ & _ & HABo);
    [by rewrite HAr|by rewrite HAm'|by rewrite HAt'|].
  destruct (HABm eq_refl) as [HABm' HABt]. specialize (HABt eq_refl).
  destruct (max_fold_unit_memory (PInt 4096) (PFloat 2) (PInt D) j0 o3 true Hn3 Hi3)
    as (jB & HB & HBr & HBm & _ & _ & HBo);
    [by rewrite Hr0|by rewrite Hm0|by rewrite Ht0|].
  destruct (HBm eq_refl) as [HBm' HBt]. specialize (HBt eq_refl).
  destruct (max_fold_unit_memory (PInt 2048) PNone PNone jB o4 false Hn4 Hi4)
    as (jBA & HBA & HBAr & _ & HBAm & HBAt & HBAo);
    [by rewrite HBr|by rewrite HBm'|by rewrite HBt|].
  exists jA, jAB, jB, jBA.
  split; [reflexivity|]. split.
  { unfold adjust_memory_scaling. rewrite !unit_memory_lookup. simpl.
    reflexivity. }
  repeat (split; [done|]).
  intros a.
  destruct (decide (a = "request_memory")) as [->|H1].
  { rewrite HABr, HBAr. done. }
  destruct (decide (a = "memory_multiplier")) as [->|H2].
  { rewrite HABm', HBAm; [done|done|by rewrite HBm']. }
  destruct (decide (a = "number_of_retries")) as [->|H3].
  { rewrite HABt, HBAt; [done|by left|by rewrite HBt]. }
  rewrite HABo, HAo, HBAo, HBo by done. done.
Qed.

(** The rule behind it: a fold in which the unit's memory request is a new
    maximum completes, stores that request, takes the multiplier of the same
    record, and takes its retry count as well when that multiplier is not
    [None]. *)
Lemma max_new_maximum_takes_scaling (q j : gmap string pyval) (order : list string)
    (v mm : pyval) :
  NoDup order -> "request_memory" ∈ order ->
  q !! "request_memory" = Some v ->
  needs_update (getattr j "request_memory") v = Some true ->
  q !! "memory_multiplier" = Some mm ->
  (Py.is_none mm = false -> is_Some (q !! "number_of_retries")) ->
  (forall a w, a ∈ order -> q !! a = Some w ->
               needs_update (getattr j a) w <> None) ->
  exists j', _handle_job_values_max q j order = Ok j' /\
    getattr j' "request_memory" = v /\
    getattr j' "memory_multiplier" = mm /\
    (Py.is_none mm = false ->
       q !! "number_of_retries" = Some (getattr j' "number_of_retries")).
Proof.
  intros Hnd Hin Hqr Hn Hqm Hret Hcmp.
  destruct (max_total q order j Hnd Hcmp) as [j' Hrun].
  { intros _ _. exists mm. done. }
  exists j'. split; [done|].
  pose proof (max_run _ _ _ _ Hnd Hrun) as Hget.
  assert (Hup : rm_updated q j = true) by (unfold rm_updated; by rewrite Hqr, Hn).
  repeat split.
  - rewrite Hget. unfold max_folded.
    rewrite (bool_decide_eq_true_2 _ Hin), Hup, Hqm. simpl.
    unfold max_merged. by rewrite Hqr, Hn.
  - rewrite Hget. unfold max_folded.
    by rewrite (bool_decide_eq_true_2 _ Hin), Hup, Hqm.
  - intros Hmn. destruct (Hret Hmn) as [r Hr].
    rewrite Hget. unfold max_folded.
    rewrite (bool_decide_eq_true_2 _ Hin), Hup, Hqm. simpl.
    by rewrite Hmn, Hr.
Qed.

(** C2, as amended.  (1) The example holds: folding unit A (request_memory
    2048, no multiplier) and unit B (request_memory 4096, multiplier 2.0, so
    the default retry count) into a fresh job gives request_memory 4096,
    multiplier 2.0 and the (non-null) default retry count, in both orders of
    folding and whatever the order of each loop, with the same value of
    every attribute.  (2) Whenever a fold makes the unit's request_memory the
    new maximum, it completes (given comparable values and a record that
    holds the scaling attributes), and the job then holds that record's
    multiplier, and that record's retry count when the multiplier is not
    None. *)
Theorem max_fold_example_and_scaling_rule :
  (forall (D : Z) (j0 : gmap string pyval) (o1 o2 o3 o4 : list string),
     getattr j0 "request_memory" = PNone ->
     getattr j0 "memory_multiplier" = PNone ->
     getattr j0 "number_of_retries" = PNone ->
     NoDup o1 -> NoDup o2 -> NoDup o3 -> NoDup o4 ->
     "request_memory" ∈ o1 -> "request_memory" ∈ o2 ->
     "request_memory" ∈ o3 -> "request_memory" ∈ o4 ->
     exists A B jA jAB jB jBA,
       adjust_memory_scaling D (unit_memory (PInt 2048) PNone PNone) = Ok A /\
       adjust_memory_scaling D (unit_memory (PInt 4096) (PFloat 2) PNone) = Ok B /\
       _handle_job_values_max A j0 o1 = Ok jA /\
       _handle_job_values_max B jA o2 = Ok jAB /\
       _handle_job_values_max B j0 o3 = Ok jB /\
       _handle_job_values_max A jB o4 = Ok jBA /\
       getattr jAB "request_memory" = PInt 4096 /\
       getattr jAB "memory_multiplier" = PFloat 2 /\
       getattr jAB "number_of_retries" = PInt D /\
       forall a, getattr jAB a = getattr jBA a) /\
  (forall (q j : gmap string pyval) (order : list string) (v mm : pyval),
     NoDup order -> "request_memory" ∈ order ->
     q !! "request_memory" = Some v ->
     needs_update (getattr j "request_memory") v = Some true ->
     q !! "memory_multiplier" = Some mm ->
     (Py.is_none mm = false -> is_Some (q !! "number_of_retries")) ->
     (forall a w, a ∈ order -> q !! a = Some w ->
                  needs_update (getattr j a) w <> None) ->
     exists j', _handle_job_values_max q j order = Ok j' /\
       getattr j' "request_memory" = v /\
       getattr j' "memory_multiplier" = mm /\
       (Py.is_none mm = false ->
          q !! "number_of_retries" = Some (getattr j' "number_of_retries"))).
Proof.
  split.
  - apply max_fold_example.
  - apply max_new_maximum_takes_scaling.
Qed.

(** The theorem at work, with the retry default 5 and the loops in
    alphabetical order. *)
Lemma max_fold_witness :
  (exists A B jA jAB jB jBA,
     adjust_memory_scaling 5 (unit_memory (PInt 2048) PNone PNone) = Ok A /\
     adjust_memory_scaling 5 (unit_memory (PInt 4096) (PFloat 2) PNone) = Ok B /\
     _handle_job_values_max A fresh_job max_order = Ok jA /\
     _handle_job_values_max B jA max_order = Ok jAB /\
     _handle_job_values_max B fresh_job max_order = Ok jB /\
     _handle_job_values_max A jB max_order = Ok jBA /\
     getattr jAB "request_memory" = PInt 4096 /\
     getattr jAB "memory_multiplier" = PFloat 2 /\
     getattr jAB "number_of_retries" = PInt 5 /\
     forall a, getattr jAB a = getattr jBA a) /\
  (exists j',
     _handle_job_values_max (unit_memory (PInt 4096) (PFloat 2) (PInt 5))
       fresh_job max_order = Ok j' /\
     getattr j' "request_memory" = PInt 4096 /\
     getattr j' "memory_multiplier" = PFloat 2 /\
     (Py.is_none (PFloat 2) = false ->
        unit_memory (PInt 4096) (PFloat 2) (PInt 5) !! "number_of_retries"
          = Some (getattr j' "number_of_retries"))).
Proof.
  assert (Hnd : NoDup max_order) by (apply (bool_decide_unpack _); vm_compute; exact I).
  assert (Hin : "request_memory" ∈ max_order)
    by (apply (bool_decide_unpack _); vm_compute; exact I).
  split.
  - apply (proj1 max_fold_example_and_scaling_rule 5 fresh_job
             max_order max_order max_order max_order);
      solve [reflexivity | exact Hnd | exact Hin].
  - apply (proj2 max_fold_example_and_scaling_rule
             (unit_memory (PInt 4096) (PFloat 2) (PInt 5)) fresh_job max_order
             (PInt 4096) (PFloat 2)); try solve [reflexivity | exact Hnd | exact Hin].
    + intros _. exists (PInt 5). reflexivity.
    + intros a w Ha Hq.
      replace (getattr fresh_job a) with PNone; [by destruct w|].
      unfold max_order in Ha.
      repeat (apply elem_of_cons in Ha as [->|Ha]; [reflexivity|]).
      by apply elem_of_nil in Ha.
Defined.

(** C2 as stated fails.  Unit A' asks for 2048 with multiplier 3.0 and 7
    retries, unit B' for 4096 with no multiplier.  Folding A' then B' ends
    with no multiplier (and the 7 retries of A', not the retry count of the
    record B' that set the new maximum); folding B' then A' ends with
    multiplier 3.0.  This is so in every order of the loop. *)
Lemma max_fold_depends_on_order :
  Forall (fun order =>
    let A' := unit_memory (PInt 2048) (PFloat 3) (PInt 7) in
    let B' := unit_memory (PInt 4096) PNone PNone in
    let rA := _handle_job_values_max A' fresh_job order in
    let rAB := _handle_job_values_max B' (state_of rA) order in
    let rB := _handle_job_values_max B' fresh_job order in
    let rBA := _handle_job_values_max A' (state_of rB) order in
    is_ok rA = true /\ is_ok rAB = true /\ is_ok rB = true /\ is_ok rBA = true /\
    getattr (state_of rAB) "request_memory" = PInt 4096 /\
    getattr (state_of rBA) "request_memory" = PInt 4096 /\
    getattr (state_of rAB) "memory_multiplier" = PNone /\
    getattr (state_of rBA) "memory_multiplier" = PFloat 3 /\
    B' !! "number_of_retries" = Some PNone /\
    getattr (state_of rAB) "number_of_retries" = PInt 7)
  (permutations max_order).
Proof. cbv zeta. apply (bool_decide_unpack _). vm_compute. exact I. Qed.

(** *** The claim on missing attributes *)

(** C10, as amended.  A record that lacks a sum-class attribute which the
    loop visits makes [_handle_job_values_sum] raise: the step at that
    attribute raises [KeyError], and the whole fold raises ([KeyError] of a
    missing attribute, unless an addition raised [TypeError] before), so a
    sum fold that completes had every visited attribute supplied.  The
    universal and the max handler skip the step of an attribute that the
    record lacks: their loops are the loops over the supplied attributes. *)
Theorem sum_raises_on_missing_others_skip :
  (forall (q j : gmap string pyval) (order : list string) (a : string),
     a ∈ order -> q !! a = None ->
     sum_step q a j = Raise j (KeyError a) /\
     exists j' e, _handle_job_values_sum q j order = Raise j' e /\
       (e = TypeError \/ exists b, b ∈ order /\ q !! b = None /\ e = KeyError b)) /\
  (forall (q j : gmap string pyval) (order : list string),
     is_ok (_handle_job_values_sum q j order) = true ->
     forall a, a ∈ order -> is_Some (q !! a)) /\
  (forall (q j : gmap string pyval) (order : list string),
     _handle_job_values_universal q j order =
     _handle_job_values_universal q j (List.filter (supplies q) order)) /\
  (forall (q j : gmap string pyval) (order : list string),
     _handle_job_values_max q j order =
     _handle_job_values_max q j (List.filter (supplies q) order)) /\
  (forall (q j : gmap string pyval) (a : string),
     q !! a = None -> universal_step q a j = Ok j /\ max_step q a j = Ok j).
Proof.
  repeat split.
  - by apply sum_step_missing.
  - apply sum_run_missing. eauto.
  - intros q j order Hok a Ha.
    destruct (q !! a) as [v|] eqn:Hq; [eauto|].
    destruct (sum_run_missing q order j (ex_intro _ a (conj Ha Hq)))
      as (j' & e & Hr & _).
    unfold _handle_job_values_sum in Hok. rewrite Hr in Hok. discriminate.
  - intros q j order. apply for_each_skip.
    intros a s0 Hs. unfold supplies in Hs. unfold universal_step.
    by destruct (q !! a).
  - intros q j order. apply for_each_skip.
    intros a s0 Hs. unfold supplies in Hs. unfold max_step.
    by destruct (q !! a).
  - unfold universal_step. by rewrite H.
  - unfold max_step. by rewrite H.
Qed.

(** The theorem at work: a record with a disk request and no walltime. *)
Lemma sum_raises_witness :
  sum_step {[ "request_disk" := PInt 1 ]} "request_walltime" fresh_job
    = Raise fresh_job (KeyError "request_walltime") /\
  exists j' e,
    _handle_job_values_sum {[ "request_disk" := PInt 1 ]} fresh_job sum_order
      = Raise j' e /\
    (e = TypeError \/
     exists b, b ∈ sum_order /\
       ({[ "request_disk" := PInt 1 ]} : gmap string pyval) !! b = None /\
       e = KeyError b).
Proof.
  apply (proj1 sum_raises_on_missing_others_skip
           {[ "request_disk" := PInt 1 ]} fresh_job sum_order "request_walltime").
  - apply (bool_decide_unpack _). vm_compute. exact I.
  - reflexivity.
Defined.

(** C10 as stated fails for the max class.  A record with a memory request
    and no [memory_multiplier] is not skipped over: the update of
    [request_memory] reads the multiplier with a plain lookup and raises
    [KeyError], in every order of the loop. *)
Lemma max_missing_multiplier_raises :
  Forall (fun order =>
    ({[ "request_memory" := PInt 4096 ]} : gmap string pyval)
      !! "memory_multiplier" = None /\
    _handle_job_values_max {[ "request_memory" := PInt 4096 ]} fresh_job order
    = Raise (setattr fresh_job "request_memory" (PInt 4096))
            (KeyError "memory_multiplier"))
  (permutations max_order).
Proof. apply (bool_decide_unpack _). vm_compute. exact I. Qed.

Lemma Py_eq_refl v : Py.eq v v = true.
Proof.
  unfold Py.eq. destruct v as [|b|z|q|s]; simpl;
    rewrite ?Qle_bool_refl, ?String.eqb_refl; try reflexivity;
    apply Qeq_bool_iff; reflexivity.
Qed.

(** X1. A successful fold by [_handle_job_values_universal] never changes
    an attribute that was set, and folding the same unit record a second time
    succeeds and leaves every attribute as it is. *)
Theorem universal_fold_keeps_set_values_and_is_idempotent
    (q j j' : gmap string pyval) (order : list string) :
  NoDup order ->
  _handle_job_values_universal q j order = Ok j' ->
  (forall a, Py.truthy (getattr j a) = true -> getattr j' a = getattr j a) /\
  exists j'', _handle_job_values_universal q j' order = Ok j'' /\
    forall a, getattr j'' a = getattr j' a.
Proof.
  intros Hnd Hrun. unfold _handle_job_values_universal in *.
  pose proof (universal_run q order j Hnd) as H1. rewrite Hrun in H1.
  destruct H1 as (Hno & Hin & Hout).
  assert (Hval : forall a, a ∈ order ->
            match q !! a with
            | Some v => getattr j' a = v \/
                        (Py.truthy (getattr j' a) = true /\ Py.eq (getattr j' a) v = true)
            | None => True
            end).
  { intros a Ha. specialize (Hno a Ha). specialize (Hin a Ha).
    unfold conflictb in Hno. unfold universal_merged in Hin.
    destruct (q !! a) as [v|]; [|done].
    destruct (Py.truthy (getattr j a)) eqn:Ht.
    - right. rewrite Hin, Ht. split; [done|].
      simpl in Hno. by apply negb_false_iff in Hno.
    - by left. }
  split.
  - intros a Ht. destruct (decide (a ∈ order)) as [Ha|Ha]; [|by apply Hout].
    rewrite (Hin a Ha). unfold universal_merged. rewrite Ht. by destruct (q !! a).
  - pose proof (universal_run q order j' Hnd) as H2.
    destruct (for_each (universal_step q) order j') as [j''|j'' e].
    + exists j''. split; [done|]. destruct H2 as (_ & Hin2 & Hout2).
      intros a. destruct (decide (a ∈ order)) as [Ha|Ha]; [|by apply Hout2].
      rewrite (Hin2 a Ha). unfold universal_merged. specialize (Hval a Ha).
      destruct (q !! a) as [v|]; [|done].
      destruct (Py.truthy (getattr j' a)) eqn:Ht; [done|].
      destruct Hval as [->|[Ht' _]]; [done|congruence].
    + exfalso. destruct H2 as (l1 & b & l2 & -> & _ & Hb & _).
      assert (Hbin : b ∈ (l1 ++ b :: l2)%list) by set_solver.
      specialize (Hval b Hbin). unfold conflictb in Hb.
      destruct (q !! b) as [v|]; [|done].
      destruct Hval as [Hv|[Ht He]].
      * rewrite Hv, Py_eq_refl in Hb. simpl in Hb. by rewrite andb_false_r in Hb.
      * rewrite He in Hb. simpl in Hb. by rewrite andb_false_r in Hb.
Qed.

Lemma needs_update_numbers (c v : pyval) :
  unset_or_number c -> unset_or_number v -> needs_update c v <> None.
Proof.
  intros Hc Hv. unfold needs_update, Py.lt.
  destruct c, v; simpl; try done; exfalso.
  all: first [ destruct Hc as [Hc|[? Hc]]; discriminate
             | destruct Hv as [Hv|[? Hv]]; discriminate ].
Qed.

Lemma needs_update_ints (x y : Z) :
  needs_update (PInt x) (PInt y) = Some (x <? y).
Proof.
  unfold needs_update, Py.lt. simpl. f_equal.
  destruct (Z.ltb_spec x y) as [Hlt|Hge].
  - apply negb_true_iff. apply not_true_iff_false. intros H.
    apply Qle_bool_iff in H. rewrite <- Zle_Qle in H. lia.
  - apply negb_false_iff. apply Qle_bool_iff. rewrite <- Zle_Qle. lia.
Qed.

(** X2. On a unit record that has the two scaling keys, with unset or
    numeric values on both sides, [_handle_job_values_max] completes, and
    every visited attribute other than the two scaling ones ends at the
    larger value: the unit's value where the job had none, the job's value
    where the unit has none, and the maximum of two integers. *)
Theorem max_fold_takes_the_larger (q j : gmap string pyval) (order : list string) :
  NoDup order ->
  is_Some (q !! "memory_multiplier") -> is_Some (q !! "number_of_retries") ->
  (forall a, a ∈ order -> unset_or_number (getattr j a)) ->
  (forall a v, a ∈ order -> q !! a = Some v -> unset_or_number v) ->
  exists j', _handle_job_values_max q j order = Ok j' /\
    forall a, a ∈ order -> a <> "memory_multiplier" -> a <> "number_of_retries" ->
      (q !! a = None -> getattr j' a = getattr j a) /\
      (q !! a = Some PNone -> getattr j' a = getattr j a) /\
      (forall v, q !! a = Some v -> getattr j a = PNone -> getattr j' a = v) /\
      (forall x y, q !! a = Some (PInt y) -> getattr j a = PInt x ->
                   getattr j' a = PInt (Z.max x y)).
Proof.
  intros Hnd [mm Hmm] Hnr Hj Hq.
  destruct (max_total q order j Hnd) as [j' Hrun].
  { intros a v Ha Hv. apply needs_update_numbers; [by apply Hj|by eapply Hq]. }
  { intros _ _. exists mm. done. }
  exists j'. split; [done|]. intros a Ha Hamm Hanr.
  assert (Hval : getattr j' a = max_merged q j a).
  { rewrite (max_run q order j j' Hnd Hrun a). unfold max_folded.
    rewrite (bool_decide_eq_true_2 (a ∈ order)) by done.
    destruct (String.eqb_spec a "memory_multiplier"); [done|].
    destruct (String.eqb_spec a "number_of_retries"); [done|]. simpl.
    destruct (_ && _); [|done]. by destruct (q !! "memory_multiplier"). }
  rewrite Hval. unfold max_merged. repeat split.
  - by intros ->.
  - intros ->. unfold needs_update. simpl. by destruct (Py.is_none _).
  - intros v -> ->. unfold needs_update. simpl. by destruct v.
  - intros x y -> ->. rewrite needs_update_ints.
    destruct (Z.ltb_spec x y); f_equal; lia.
Qed.

(** *** The sum class *)

Lemma sum_merged_ext q j1 j2 a :
  getattr j1 a = getattr j2 a -> sum_merged q j1 a = sum_merged q j2 a.
Proof. intros H. unfold sum_merged. by rewrite H. Qed.

(** The body of the loop on an attribute that the unit's record has and
    whose sum is defined. *)
Lemma sum_step_defined q a j v :
  q !! a = Some v ->
  (Py.truthy (getattr j a) = true -> Py.add (getattr j a) v <> None) ->
  sum_step q a j = Ok (setattr j a (sum_merged q j a)).
Proof.
  intros Hq Hadd. unfold sum_step, sum_merged. rewrite Hq.
  destruct (Py.truthy (getattr j a)); simpl; [|done].
  destruct (Py.add (getattr j a) v) eqn:E; [done|]. by destruct Hadd.
Qed.

Lemma sum_run q l : forall j, NoDup l ->
  (forall a, a ∈ l -> exists v, q !! a = Some v /\
     (Py.truthy (getattr j a) = true -> Py.add (getattr j a) v <> None)) ->
  exists j', for_each (sum_step q) l j = Ok j' /\
    (forall a, a ∈ l -> getattr j' a = sum_merged q j a) /\
    (forall a, a ∉ l -> getattr j' a = getattr j a).
Proof.
  induction l as [|x l IH]; intros j Hnd Hall; simpl.
  - exists j. split; [done|]. split; [|done]. intros a Ha. by inversion Ha.
  - apply NoDup_cons in Hnd as [Hx Hnd].
    destruct (Hall x) as (v & Hq & Hadd); [left|].
    rewrite (sum_step_defined q x j v Hq Hadd).
    set (j1 := setattr j x (sum_merged q j x)).
    assert (Hsame : forall b, b ∈ l -> getattr j1 b = getattr j b).
    { intros b Hb. apply getattr_setattr_ne. by intros ->. }
    destruct (IH j1 Hnd) as (j' & Hrun & Hin & Hout).
    { intros a Ha. rewrite (Hsame a Ha). apply Hall. by right. }
    exists j'. split; [done|]. split.
    + intros a Ha. apply elem_of_cons in Ha as [->|Ha].
      * rewrite (Hout x Hx). apply getattr_setattr_eq.
      * rewrite (Hin a Ha). apply sum_merged_ext. by apply Hsame.
    + intros a Ha. apply not_elem_of_cons in Ha as [Hne Ha].
      rewrite (Hout a Ha). by apply getattr_setattr_ne.
Qed.

Lemma sum_merged_ints q j a (y : Z) :
  q !! a = Some (PInt y) -> unset_or_int (getattr j a) ->
  sum_merged q j a = PInt (int_or_zero (getattr j a) + y).
Proof.
  intros Hq Hj. unfold sum_merged. rewrite Hq.
  destruct Hj as [->|[x ->]]; simpl; [done|].
  destruct (Z.eqb_spec x 0) as [->|_]; simpl; [done|]. done.
Qed.

(** X3. When the unit records give an integer for every attribute the
    loop visits and the job holds integers or nothing there,
    [_handle_job_values_sum] completes and leaves in each visited attribute
    the job's value plus the unit's (an unset value counting for nothing),
    the other attributes as they were; and folding two such records gives the
    same job in either order of the two. *)
Theorem sum_fold_adds_integers
    (q1 q2 j : gmap string pyval) (o1 o2 o3 o4 : list string) :
  NoDup o1 -> NoDup o2 -> NoDup o3 -> NoDup o4 ->
  (forall a, a ∈ o1 <-> a ∈ o2) -> (forall a, a ∈ o1 <-> a ∈ o3) ->
  (forall a, a ∈ o1 <-> a ∈ o4) ->
  (forall a, a ∈ o1 -> exists y, q1 !! a = Some (PInt y)) ->
  (forall a, a ∈ o1 -> exists y, q2 !! a = Some (PInt y)) ->
  (forall a, a ∈ o1 -> unset_or_int (getattr j a)) ->
  exists j1 j12 j2 j21,
    _handle_job_values_sum q1 j o1 = Ok j1 /\
    _handle_job_values_sum q2 j1 o2 = Ok j12 /\
    _handle_job_values_sum q2 j o3 = Ok j2 /\
    _handle_job_values_sum q1 j2 o4 = Ok j21 /\
    (forall a, a ∈ o1 ->
       getattr j1 a = PInt (int_or_zero (getattr j a) + int_or_zero (getattr q1 a)) /\
       getattr j12 a =
         PInt (int_or_zero (getattr j a) + int_or_zero (getattr q1 a)
               + int_or_zero (getattr q2 a))) /\
    (forall a, a ∉ o1 -> getattr j1 a = getattr j a /\ getattr j12 a = getattr j a) /\
    (forall a, getattr j12 a = getattr j21 a).
Proof.
  intros Hnd1 Hnd2 Hnd3 Hnd4 H12 H13 H14 Hq1 Hq2 Hj.
  assert (Hfold : forall q o j0,
            NoDup o -> (forall a, a ∈ o1 <-> a ∈ o) ->
            (forall a, a ∈ o1 -> exists y, q !! a = Some (PInt y)) ->
            (forall a, a ∈ o1 -> unset_or_int (getattr j0 a)) ->
            exists j', _handle_job_values_sum q j0 o = Ok j' /\
              (forall a, a ∈ o1 ->
                 getattr j' a =
                 PInt (int_or_zero (getattr j0 a) + int_or_zero (getattr q a))) /\
              (forall a, a ∉ o1 -> getattr j' a = getattr j0 a)).
  { intros q o j0 Hnd Ho Hq Hj0.
    destruct (sum_run q o j0 Hnd) as (j' & Hrun & Hin & Hout).
    { intros a Ha. apply Ho in Ha. destruct (Hq a Ha) as [y Hy].
      exists (PInt y). split; [done|]. intros Ht.
      destruct (Hj0 a Ha) as [Hn|[x Hx]]; [by rewrite Hn in Ht|by rewrite Hx]. }
    exists j'. split; [done|]. split.
    - intros a Ha. rewrite (Hin a) by (by apply Ho).
      destruct (Hq a Ha) as [y Hy].
      rewrite (sum_merged_ints q j0 a y Hy (Hj0 a Ha)).
      assert (getattr q a = PInt y) as -> by (unfold getattr; by rewrite Hy).
      done.
    - intros a Ha. apply Hout. intros Ha'. by apply Ha, Ho. }
  destruct (Hfold q1 o1 j Hnd1 (fun a => iff_refl _) Hq1 Hj) as (j1 & Hr1 & Hin1 & Hout1).
  destruct (Hfold q2 o2 j1 Hnd2 H12 Hq2) as (j12 & Hr12 & Hin12 & Hout12).
  { intros a Ha. right. rewrite (Hin1 a Ha). by eexists. }
  destruct (Hfold q2 o3 j Hnd3 H13 Hq2 Hj) as (j2 & Hr2 & Hin2 & Hout2).
  destruct (Hfold q1 o4 j2 Hnd4 H14 Hq1) as (j21 & Hr21 & Hin21 & Hout21).
  { intros a Ha. right. rewrite (Hin2 a Ha). by eexists. }
  exists j1, j12, j2, j21. repeat split; try done.
  - by apply Hin1.
  - rewrite (Hin12 a) by done. rewrite (Hin1 a) by done. done.
  - by apply Hout1.
  - rewrite (Hout12 a) by done. by apply Hout1.
  - intros a. destruct (decide (a ∈ o1)) as [Ha|Ha].
    + rewrite (Hin12 a Ha), (Hin21 a Ha), (Hin1 a Ha), (Hin2 a Ha). simpl.
      f_equal. lia.
    + rewrite (Hout12 a Ha), (Hout21 a Ha), (Hout1 a Ha), (Hout2 a Ha). done.
Qed.

(** *** What the handlers leave alone *)

Lemma for_each_frame (step : string -> gmap string pyval -> result (gmap string pyval))
    (P : string -> Prop) (b : string) :
  (forall a s, P a -> getattr (state_of (step a s)) b = getattr s b) ->
  forall l j, (forall a, a ∈ l -> P a) ->
    getattr (state_of (for_each step l j)) b = getattr j b.
Proof.
  intros Hstep. induction l as [|x l IH]; intros j HP; simpl; [done|].
  specialize (Hstep x j (HP x ltac:(left))).
  destruct (step x j) as [j1|j1 e]; simpl in *; [|done].
  rewrite IH; [done|]. intros a Ha. apply HP. by right.
Qed.

Lemma universal_step_frame q a j b :
  b <> a -> getattr (state_of (universal_step q a j)) b = getattr j b.
Proof.
  intros Hb. unfold universal_step. destruct (q !! a); [|done].
  destruct (negb _); simpl; [by apply getattr_setattr_ne|].
  by destruct (negb _).
Qed.

Lemma max_step_frame q a j b :
  b <> a -> b <> "memory_multiplier" -> b <> "number_of_retries" ->
  getattr (state_of (max_step q a j)) b = getattr j b.
Proof.
  intros Hb Hmm Hnr. unfold max_step. destruct (q !! a); [|done].
  destruct (needs_update _ _) as [[|]|]; [|done|done].
  destruct (String.eqb a "request_memory"); simpl;
    [|by apply getattr_setattr_ne].
  destruct (q !! "memory_multiplier"); simpl; [|by apply getattr_setattr_ne].
  destruct (Py.is_none _); simpl;
    [by rewrite !getattr_setattr_ne|].
  destruct (q !! "number_of_retries"); simpl; by rewrite !getattr_setattr_ne.
Qed.

Lemma sum_step_frame q a j b :
  b <> a -> getattr (state_of (sum_step q a j)) b = getattr j b.
Proof.
  intros Hb. unfold sum_step.
  destruct (negb _); destruct (q !! a); simpl; try done;
    [by apply getattr_setattr_ne|].
  destruct (Py.add _ _); simpl; [by apply getattr_setattr_ne|done].
Qed.

(** X4. Whether [_handle_job_values] completes or raises, the job it leaves
    has the attributes of the miscellaneous class ([label], [cmdvals],
    [profile], [attrs]) as they were, and so every attribute that
    [attributes] leaves out, apart from [memory_multiplier] and
    [number_of_retries], which a new maximum of [request_memory] sets even
    when [attributes] leaves them out. *)
Theorem job_values_merge_leaves_other_attributes
    (_ATTRS_ALL attributes : gset string) (q j : gmap string pyval)
    (order_universal order_max order_sum : list string) (b : string) :
  iterates order_universal (_ATTRS_UNIVERSAL _ATTRS_ALL ∩ attributes) ->
  iterates order_max (_ATTRS_MAX ∩ attributes) ->
  iterates order_sum (_ATTRS_SUM ∩ attributes) ->
  b ∈ _ATTRS_MISC \/
  ((b ∉ attributes) /\ b <> "memory_multiplier" /\ b <> "number_of_retries") ->
  getattr (state_of (_handle_job_values q j order_universal order_max order_sum)) b
  = getattr j b.
Proof.
  intros [_ Hu] [_ Hm] [_ Hs] Hb.
  assert (Hout : (b ∉ order_universal) /\ (b ∉ order_max) /\ (b ∉ order_sum) /\
                 b <> "memory_multiplier" /\ b <> "number_of_retries").
  { rewrite Hu, Hm, Hs. destruct Hb as [Hb|(Hb & Hmm & Hnr)].
    - assert ((b ∉ _ATTRS_MAX) /\ (b ∉ _ATTRS_SUM) /\
              b <> "memory_multiplier" /\ b <> "number_of_retries") as (? & ? & ? & ?).
      { unfold _ATTRS_MISC, _ATTRS_MAX, _ATTRS_SUM in *.
        repeat (apply elem_of_union in Hb as [Hb|Hb]);
          apply elem_of_singleton in Hb; subst b;
          (split; [by apply (bool_decide_unpack _)|]);
          (split; [by apply (bool_decide_unpack _)|]); done. }
      split; [|split; [|split; [|done]]].
      + intros [Hd _]%elem_of_intersection. unfold _ATTRS_UNIVERSAL in Hd.
        apply elem_of_difference in Hd as [_ Hn]. apply Hn.
        apply elem_of_union. left. apply elem_of_union. by right.
      + by intros [? _]%elem_of_intersection.
      + by intros [? _]%elem_of_intersection.
    - split; [|split; [|split; [|done]]]; by intros [_ ?]%elem_of_intersection. }
  destruct Hout as (Hbu & Hbm & Hbs & Hmm & Hnr).
  assert (Fu := for_each_frame (universal_step q) (fun a => b <> a) b
                  (fun a s H => universal_step_frame q a s b H) order_universal j).
  assert (Fm := fun j0 => for_each_frame (max_step q) (fun a => b <> a) b
                  (fun a s H => max_step_frame q a s b H Hmm Hnr) order_max j0).
  assert (Fs := fun j0 => for_each_frame (sum_step q) (fun a => b <> a) b
                  (fun a s H => sum_step_frame q a s b H) order_sum j0).
  assert (Nu : forall a, a ∈ order_universal -> b <> a) by (by intros a Ha ->).
  assert (Nm : forall a, a ∈ order_max -> b <> a) by (by intros a Ha ->).
  assert (Ns : forall a, a ∈ order_sum -> b <> a) by (by intros a Ha ->).
  specialize (Fu Nu).
  unfold _handle_job_values, _handle_job_values_universal, _handle_job_values_max,
    _handle_job_values_sum.
  destruct (for_each (universal_step q) order_universal j) as [j1|j1 e]; simpl in *;
    [|done].
  specialize (Fm j1 Nm).
  destruct (for_each (max_step q) order_max j1) as [j2|j2 e]; simpl in *;
    [|by rewrite Fm].
  rewrite (Fs j2 Ns). by rewrite Fm.
Qed.

Lemma sum_step_ok_frame q a j j1 b :
  sum_step q a j = Ok j1 -> b <> a -> getattr j1 b = getattr j b.
Proof.
  intros Hs Hb. pose proof (sum_step_frame q a j b Hb) as H.
  by rewrite Hs in H.
Qed.

(** The loop raises [TypeError] when the record has every visited attribute
    and the sum at one of them is not defined. *)
Lemma sum_run_type_error q a v : forall l j,
  a ∈ l -> (forall b, b ∈ l -> is_Some (q !! b)) ->
  q !! a = Some v -> Py.truthy (getattr j a) = true ->
  Py.add (getattr j a) v = None ->
  exists j', for_each (sum_step q) l j = Raise j' TypeError.
Proof.
  induction l as [|x l IH]; intros j Ha Hall Hq Ht Hadd; [by inversion Ha|].
  simpl. destruct (decide (x = a)) as [->|Hne].
  - exists j. unfold sum_step. by rewrite Ht, Hq, Hadd.
  - destruct (Hall x) as [w Hw]; [left|].
    destruct (sum_step_present q x j w Hw) as [[j1 Hs]|Hs]; rewrite Hs;
      [|by exists j].
    apply elem_of_cons in Ha as [Ha|Ha]; [congruence|].
    assert (Hsame : getattr j1 a = getattr j a)
      by (apply (sum_step_ok_frame q x j j1 a Hs); congruence).
    apply IH; try done; [|by rewrite Hsame..].
    intros b Hb. apply Hall. by right.
Qed.

(** X5. A unit whose value for a summed attribute is [None] is accepted
    or refused according to what was folded before it: folded after a unit
    that left a number other than zero, it makes [_handle_job_values_sum]
    raise [TypeError]; folded first, on a job that holds nothing yet, it is
    accepted, and the later unit's number is what the job ends with. *)
Theorem sum_fold_of_unset_value_depends_on_order
    (q1 q2 j : gmap string pyval) (order : list string) (a : string) (x : Z) :
  NoDup order -> a ∈ order ->
  (forall b, b ∈ order -> getattr j b = PNone) ->
  (forall b, b ∈ order -> exists y, q1 !! b = Some (PInt y)) ->
  q1 !! a = Some (PInt x) -> x <> 0 ->
  (forall b, b ∈ order -> exists v, q2 !! b = Some v /\ unset_or_int v) ->
  q2 !! a = Some PNone ->
  (exists j1 j', _handle_job_values_sum q1 j order = Ok j1 /\
     _handle_job_values_sum q2 j1 order = Raise j' TypeError) /\
  (exists j2 j21, _handle_job_values_sum q2 j order = Ok j2 /\
     getattr j2 a = PNone /\
     _handle_job_values_sum q1 j2 order = Ok j21 /\
     getattr j21 a = PInt x).
Proof.
  intros Hnd Ha Hj Hq1 Hq1a Hx Hq2 Hq2a. unfold _handle_job_values_sum. split.
  - destruct (sum_run q1 order j Hnd) as (j1 & Hr1 & Hin1 & _).
    { intros b Hb. destruct (Hq1 b Hb) as [y Hy]. exists (PInt y).
      split; [done|]. by rewrite (Hj b Hb). }
    assert (Hj1a : getattr j1 a = PInt x).
    { rewrite (Hin1 a Ha). unfold sum_merged. by rewrite Hq1a, (Hj a Ha). }
    destruct (sum_run_type_error q2 a PNone order j1) as [j' Hr2]; try done.
    + intros b Hb. destruct (Hq2 b Hb) as (v & Hv & _). by rewrite Hv.
    + rewrite Hj1a. simpl. by destruct (Z.eqb_spec x 0).
    + by rewrite Hj1a.
    + by exists j1, j'.
  - destruct (sum_run q2 order j Hnd) as (j2 & Hr2 & Hin2 & _).
    { intros b Hb. destruct (Hq2 b Hb) as (v & Hv & _). exists v.
      split; [done|]. by rewrite (Hj b Hb). }
    assert (Hj2 : forall b, b ∈ order -> unset_or_int (getattr j2 b)).
    { intros b Hb. rewrite (Hin2 b Hb). unfold sum_merged.
      destruct (Hq2 b Hb) as (v & -> & Hv). by rewrite (Hj b Hb). }
    assert (Hj2a : getattr j2 a = PNone).
    { rewrite (Hin2 a Ha). unfold sum_merged. by rewrite Hq2a, (Hj a Ha). }
    destruct (sum_run q1 order j2 Hnd) as (j21 & Hr21 & Hin21 & _).
    { intros b Hb. destruct (Hq1 b Hb) as [y Hy]. exists (PInt y).
      split; [done|]. intros Ht.
      destruct (Hj2 b Hb) as [Hn|[z Hz]]; [by rewrite Hn in Ht|by rewrite Hz]. }
    exists j2, j21. repeat split; try done.
    rewrite (Hin21 a Ha). unfold sum_merged. by rewrite Hq1a, Hj2a.
Qed.

(** *** The memory-scaling adjustment *)

Lemma adjust_memory_scaling_ok (D : Z) (q q' : gmap string pyval) :
  adjust_memory_scaling D q = Ok q' ->
  (forall k, k <> "memory_multiplier" -> k <> "number_of_retries" ->
             q' !! k = q !! k) /\
  (exists mm, q' !! "memory_multiplier" = Some mm /\
     (Py.is_none mm = false ->
        q !! "memory_multiplier" = Some mm /\ Py.ceil_gt_1 mm = Some true /\
        exists r, q' !! "number_of_retries" = Some r /\ Py.is_none r = false)).
Proof.
  unfold adjust_memory_scaling. intros H.
  destruct (q !! "memory_multiplier") as [mm|] eqn:Hmm; [|done].
  destruct (Py.is_none mm) eqn:Hn; simpl in H.
  { injection H as <-. split; [done|]. exists mm. split; [done|]. congruence. }
  destruct (Py.ceil_gt_1 mm) as [[|]|] eqn:Hc; [| |done].
  - destruct (q !! "number_of_retries") as [r|] eqn:Hr; [|done].
    destruct (Py.is_none r) eqn:Hrn; injection H as <-.
    + split; [intros k _ Hk; by rewrite lookup_insert_ne|].
      exists mm. rewrite lookup_insert_ne by done. split; [done|]. intros _.
      split; [done|]. split; [done|]. exists (PInt D).
      by rewrite lookup_insert_eq.
    + split; [done|]. exists mm. split; [done|]. intros _.
      split; [done|]. split; [done|]. by exists r.
  - injection H as <-. split; [intros k Hk _; by rewrite lookup_insert_ne|].
    exists PNone. by rewrite lookup_insert_eq.
Qed.

(** X6. When the adjustment of [_get_job_values] completes, the record has
    memory scaling either disabled ([memory_multiplier] is [None]) or enabled
    by the multiplier it was given, whose ceiling is above 1, together with a
    number of retries that is not [None]; no other key is changed; and
    adjusting the adjusted record again changes nothing. *)
Theorem memory_scaling_adjustment_result (D : Z) (q q' : gmap string pyval) :
  adjust_memory_scaling D q = Ok q' ->
  (forall k, k <> "memory_multiplier" -> k <> "number_of_retries" ->
             q' !! k = q !! k) /\
  (q' !! "memory_multiplier" = Some PNone \/
   exists mm r, q' !! "memory_multiplier" = Some mm /\
     q !! "memory_multiplier" = Some mm /\ Py.ceil_gt_1 mm = Some true /\
     q' !! "number_of_retries" = Some r /\ r <> PNone) /\
  adjust_memory_scaling D q' = Ok q'.
Proof.
  intros H. destruct (adjust_memory_scaling_ok D q q' H) as (Hfr & mm & Hmm & Hen).
  split; [done|]. destruct (Py.is_none mm) eqn:Hn.
  - assert (mm = PNone) as -> by (by destruct mm). split; [by left|].
    unfold adjust_memory_scaling. by rewrite Hmm.
  - destruct (Hen eq_refl) as (Hq & Hc & r & Hr & Hrn). split.
    + right. exists mm, r. repeat split; try done. by intros ->.
    + unfold adjust_memory_scaling. by rewrite Hmm, Hn, Hc, Hr, Hrn.
Qed.

Lemma max_step_no_key_error q a j :
  is_Some (q !! "memory_multiplier") ->
  (forall mm, q !! "memory_multiplier" = Some mm -> Py.is_none mm = false ->
              is_Some (q !! "number_of_retries")) ->
  (exists j', max_step q a j = Ok j') \/ max_step q a j = Raise j TypeError.
Proof.
  intros [mm Hmm] Hnr. unfold max_step. destruct (q !! a); [|by left; eexists].
  destruct (needs_update _ _) as [[|]|]; [|by left; eexists|by right].
  left. destruct (String.eqb a "request_memory"); [|by eexists].
  rewrite Hmm. destruct (Py.is_none mm) eqn:Hn; [by eexists|].
  destruct (Hnr mm Hmm Hn) as [r ->]. by eexists.
Qed.

(** X7. A record that the adjustment of [_get_job_values] has passed never
    makes [_handle_job_values_max] fail on a missing scaling key: the fold
    completes, or raises [TypeError] on values that cannot be compared. *)
Theorem adjusted_record_has_the_scaling_keys
    (D : Z) (q q' j : gmap string pyval) (order : list string) :
  adjust_memory_scaling D q = Ok q' ->
  (exists j', _handle_job_values_max q' j order = Ok j') \/
  (exists j', _handle_job_values_max q' j order = Raise j' TypeError).
Proof.
  intros H. destruct (adjust_memory_scaling_ok D q q' H) as (_ & mm & Hmm & Hen).
  assert (Hnr : forall m, q' !! "memory_multiplier" = Some m -> Py.is_none m = false ->
                          is_Some (q' !! "number_of_retries")).
  { intros m Hm Hn. rewrite Hmm in Hm. injection Hm as <-.
    destruct (Hen Hn) as (_ & _ & r & -> & _). by eexists. }
  unfold _handle_job_values_max. revert j.
  induction order as [|a order IH]; intros j; simpl; [left; by eexists|].
  destruct (max_step_no_key_error q' a j) as [[j1 ->]| ->];
    [by eexists|done|apply IH|right; by eexists].
Qed.

Ltac each_member H :=
  repeat (apply elem_of_cons in H as [->|H]); [..|by inversion H].

Lemma universal_fold_idempotent_witness :
  exists j' j'',
    _handle_job_values_universal (unit_site "siteA") fresh_job universal_order = Ok j' /\
    getattr j' "name" = PStr "cluster1" /\
    _handle_job_values_universal (unit_site "siteA") j' universal_order = Ok j'' /\
    getattr j'' "compute_site" = getattr j' "compute_site".
Proof.
  assert (E : _handle_job_values_universal (unit_site "siteA") fresh_job universal_order
              = Ok (setattr fresh_job "compute_site" (PStr "siteA")))
    by (vm_compute; reflexivity).
  destruct (universal_fold_keeps_set_values_and_is_idempotent
              (unit_site "siteA") fresh_job _ universal_order
              ltac:(apply (bool_decide_unpack _); vm_compute; exact I) E)
    as (Hkeep & j'' & Hr & Hsame).
  eexists _, j''. split; [exact E|]. split; [|split; [exact Hr|apply Hsame]].
  rewrite (Hkeep "name"); reflexivity.
Defined.

Lemma max_fold_witness_larger :
  exists j',
    _handle_job_values_max (unit_requests (PInt 4) PNone PNone)
      (setattr fresh_job "request_cpus" (PInt 2)) max_order = Ok j' /\
    getattr j' "request_cpus" = PInt 4 /\
    getattr j' "request_memory" = PNone.
Proof.
  destruct (max_fold_takes_the_larger (unit_requests (PInt 4) PNone PNone)
              (setattr fresh_job "request_cpus" (PInt 2)) max_order)
    as (j' & Hrun & Hval).
  - apply (bool_decide_unpack _). vm_compute. exact I.
  - eexists. vm_compute. reflexivity.
  - eexists. vm_compute. reflexivity.
  - intros a Ha. each_member Ha; vm_compute;
      first [left; reflexivity | right; eexists; reflexivity].
  - intros a v Ha. each_member Ha; vm_compute; intros [= <-];
      first [left; reflexivity | right; eexists; reflexivity].
  - exists j'. split; [exact Hrun|]. split.
    + refine (proj2 (proj2 (proj2 (Hval "request_cpus" _ _ _))) 2 4 _ _);
        first [apply (bool_decide_unpack _); vm_compute; exact I
              | discriminate | vm_compute; reflexivity].
    + refine (eq_trans (proj1 (Hval "request_memory" _ _ _) _) _);
        first [apply (bool_decide_unpack _); vm_compute; exact I
              | discriminate | vm_compute; reflexivity].
Defined.

Lemma sum_fold_adds_integers_witness :
  exists j1 j12 j2 j21,
    _handle_job_values_sum (unit_requests PNone (PInt 10) (PInt 100))
      fresh_job sum_order = Ok j1 /\
    _handle_job_values_sum (unit_requests PNone (PInt 5) (PInt 50)) j1 sum_order
      = Ok j12 /\
    _handle_job_values_sum (unit_requests PNone (PInt 5) (PInt 50))
      fresh_job sum_order = Ok j2 /\
    _handle_job_values_sum (unit_requests PNone (PInt 10) (PInt 100)) j2 sum_order
      = Ok j21 /\
    getattr j12 "request_disk" = PInt 15 /\
    getattr j21 "request_disk" = PInt 15.
Proof.
  destruct (sum_fold_adds_integers (unit_requests PNone (PInt 10) (PInt 100))
              (unit_requests PNone (PInt 5) (PInt 50)) fresh_job
              sum_order sum_order sum_order sum_order)
    as (j1 & j12 & j2 & j21 & H1 & H12 & H2 & H21 & Hin & _ & Hsame);
    try (apply (bool_decide_unpack _); vm_compute; exact I);
    try (intros a; reflexivity).
  - intros a Ha. each_member Ha; eexists; vm_compute; reflexivity.
  - intros a Ha. each_member Ha; eexists; vm_compute; reflexivity.
  - intros a Ha. each_member Ha; left; vm_compute; reflexivity.
  - exists j1, j12, j2, j21.
    assert (Hd : getattr j12 "request_disk" = PInt 15).
    { refine (eq_trans (proj2 (Hin "request_disk" _)) _);
        [apply (bool_decide_unpack _); vm_compute; exact I|vm_compute; reflexivity]. }
    split; [exact H1|]. split; [exact H12|]. split; [exact H2|].
    split; [exact H21|]. split; [exact Hd|].
    exact (eq_trans (eq_sym (Hsame "request_disk")) Hd).
Defined.

Lemma job_values_merge_leaves_label_witness :
  is_ok (_handle_job_values (unit_site "siteB")
           (setattr (Workflow.fields (Workflow.new_job "cluster1" "isr"))
              "compute_site" (PStr "siteA"))
           universal_order max_order sum_order) = false /\
  getattr (state_of (_handle_job_values (unit_site "siteB")
                       (setattr (Workflow.fields (Workflow.new_job "cluster1" "isr"))
                          "compute_site" (PStr "siteA"))
                       universal_order max_order sum_order)) "label" = PStr "isr".
Proof.
  split; [vm_compute; reflexivity|].
  refine (eq_trans (job_values_merge_leaves_other_attributes spec_job_fields
            spec_job_fields (unit_site "siteB")
            (setattr (Workflow.fields (Workflow.new_job "cluster1" "isr"))
               "compute_site" (PStr "siteA"))
            universal_order max_order sum_order "label" _ _ _ _) _).
  - apply iterates_list_to_set;
      [apply (bool_decide_unpack _); vm_compute; exact I|vm_compute; reflexivity].
  - apply iterates_list_to_set;
      [apply (bool_decide_unpack _); vm_compute; exact I|vm_compute; reflexivity].
  - apply iterates_list_to_set;
      [apply (bool_decide_unpack _); vm_compute; exact I|vm_compute; reflexivity].
  - left. apply (bool_decide_unpack _). vm_compute. exact I.
  - vm_compute. reflexivity.
Defined.

Lemma sum_fold_of_unset_value_witness :
  (exists j1 j',
     _handle_job_values_sum (unit_requests PNone (PInt 10) (PInt 100))
       fresh_job sum_order = Ok j1 /\
     _handle_job_values_sum (unit_requests PNone PNone (PInt 50)) j1 sum_order
       = Raise j' TypeError) /\
  (exists j2 j21,
     _handle_job_values_sum (unit_requests PNone PNone (PInt 50))
       fresh_job sum_order = Ok j2 /\
     getattr j2 "request_disk" = PNone /\
     _handle_job_values_sum (unit_requests PNone (PInt 10) (PInt 100)) j2 sum_order
       = Ok j21 /\
     getattr j21 "request_disk" = PInt 10).
Proof.
  apply (sum_fold_of_unset_value_depends_on_order
           (unit_requests PNone (PInt 10) (PInt 100))
           (unit_requests PNone PNone (PInt 50)) fresh_job sum_order
           "request_disk" 10).
  - apply (bool_decide_unpack _). vm_compute. exact I.
  - apply (bool_decide_unpack _). vm_compute. exact I.
  - intros b Hb. each_member Hb; vm_compute; reflexivity.
  - intros b Hb. each_member Hb; eexists; vm_compute; reflexivity.
  - vm_compute. reflexivity.
  - discriminate.
  - intros b Hb. each_member Hb; eexists; (split; [vm_compute; reflexivity|]);
      first [left; reflexivity | right; eexists; reflexivity].
  - vm_compute. reflexivity.
Defined.

Lemma memory_scaling_adjustment_witness :
  exists q',
    adjust_memory_scaling 5 (unit_memory (PInt 4096) (PFloat 2) PNone) = Ok q' /\
    q' !! "number_of_retries" = Some (PInt 5) /\
    adjust_memory_scaling 5 q' = Ok q'.
Proof.
  assert (E : adjust_memory_scaling 5 (unit_memory (PInt 4096) (PFloat 2) PNone)
              = Ok (unit_memory (PInt 4096) (PFloat 2) (PInt 5)))
    by (vm_compute; reflexivity).
  eexists. split; [exact E|]. split; [vm_compute; reflexivity|].
  exact (proj2 (proj2 (memory_scaling_adjustment_result 5 _ _ E))).
Defined.

Lemma adjusted_record_witness :
  (exists j',
     _handle_job_values_max (unit_memory (PInt 4096) (PFloat 2) (PInt 5))
       fresh_job max_order = Ok j') \/
  (exists j',
     _handle_job_values_max (unit_memory (PInt 4096) (PFloat 2) (PInt 5))
       fresh_job max_order = Raise j' TypeError).
Proof.
  apply (adjusted_record_has_the_scaling_keys 5
           (unit_memory (PInt 4096) (PFloat 2) PNone)).
  vm_compute. reflexivity.
Defined.

End AggregatorFacts.
